(** * The sales ingestion pipeline of the collection tracker

    A shallow embedding of [src/lib/unified-scraper.ts]: the listing
    classifier, the player-name filter, year inference, de-duplicating
    persistence into the [individual_sales] table, the market summary and
    the orchestrator [scrapeAndStorePlayer].

    Conventions of the embedding.
    - A JavaScript string is a [string]: a sequence of code units, here the
      code units 0..255 (the Latin-1 range).  [toLowerCase], [trim] and the
      regular-expression classes are the ECMAScript ones on that range.
    - A JavaScript number that holds a price is a binary64 [float]; a year is
      an integer ([Z]).  [number | null] is an [option].
    - A [Date] is held as its [toISOString()] text, which is what the table
      stores and orders by.
    - The table [individual_sales] is the list of its rows, oldest insert
      first.  An INSERT that violates a constraint of the table throws: the
      driver binds NaN as NULL, which [sale_price REAL NOT NULL] refuses;
      [ebay_url] is UNIQUE and [id] the primary key.
    - The network call is the input [Fetched] of a run; the URL parser, the
      identifiers and the clock are parameters.  Logging is left out. *)

From Stdlib Require Import ZArith Bool List Ascii String Lia Permutation Sorted.
From Stdlib Require Import DecimalString.
From Stdlib Require OrderedTypeEx.
From Stdlib Require Import Floats.PrimFloat Floats.FloatOps Floats.SpecFloat.
From Stdlib Require Uint63.
Import ListNotations.

Open Scope string_scope.
Open Scope list_scope.

(* ====================================================================== *)
(** ** JavaScript strings *)
(* ====================================================================== *)

Module JS.

Definition code (c : ascii) : N := N_of_ascii c.

Definition between (lo hi n : N) : bool := ((lo <=? n) && (n <=? hi))%N.

(** One code unit of [String.prototype.toLowerCase]: A-Z, and the Latin-1
    capitals U+00C0..U+00DE except the multiplication sign U+00D7.  On the
    code units below U+0100 the mapping is one code unit to one, whatever
    stands around it; beyond them it is not (see [Wide]). *)
Definition lower_char (c : ascii) : ascii :=
  let n := code c in
  if between 65 90 n || (between 192 222 n && negb (n =? 215)%N)
  then ascii_of_N (n + 32) else c.

Fixpoint toLowerCase (s : string) : string :=
  match s with
  | EmptyString => EmptyString
  | String c s' => String (lower_char c) (toLowerCase s')
  end.

(** ECMAScript WhiteSpace and LineTerminator below U+0100: TAB, LF, VT,
    FF, CR, SP, NBSP.  This is the regular-expression class [\s] and what
    [trim] removes. *)
Definition is_space (c : ascii) : bool :=
  let n := code c in between 9 13 n || (n =? 32)%N || (n =? 160)%N.

(** [\d] *)
Definition is_digit (c : ascii) : bool := between 48 57 (code c).

(** The word characters of [\b] and [\w]: A-Z a-z 0-9 and underscore. *)
Definition is_word (c : ascii) : bool :=
  let n := code c in
  between 65 90 n || between 97 122 n || between 48 57 n || (n =? 95)%N.

Fixpoint startsWith (p s : string) : bool :=
  match p, s with
  | EmptyString, _ => true
  | String _ _, EmptyString => false
  | String a p', String b s' => Ascii.eqb a b && startsWith p' s'
  end.

(** [s.includes(p)] *)
Fixpoint includes (s p : string) : bool :=
  startsWith p s ||
  match s with
  | EmptyString => false
  | String _ s' => includes s' p
  end.

Fixpoint trimStart (s : string) : string :=
  match s with
  | String c s' => if is_space c then trimStart s' else s
  | EmptyString => EmptyString
  end.

Fixpoint trimEnd (s : string) : string :=
  match s with
  | EmptyString => EmptyString
  | String c s' =>
      match trimEnd s' with
      | EmptyString => if is_space c then EmptyString else String c EmptyString
      | t => String c t
      end
  end.

Definition trim (s : string) : string := trimEnd (trimStart s).

(** [s.split(/[...]+/)] for a class [sep] of single code units: the pieces
    between maximal runs of separators; a leading or trailing run leaves an
    empty piece, and the empty string splits into one empty piece.
    [tok] is the piece being read, [insep] tells that the last code unit
    was a separator. *)
Fixpoint split_runs (sep : ascii -> bool) (insep : bool) (tok : string)
         (s : string) : list string :=
  match s with
  | EmptyString => [tok]
  | String c s' =>
      if sep c then
        if insep then split_runs sep true EmptyString s'
        else tok :: split_runs sep true EmptyString s'
      else split_runs sep false (tok ++ String c EmptyString) s'
  end.

Definition split_class (sep : ascii -> bool) (s : string) : list string :=
  split_runs sep false EmptyString s.

(** [s.split('?')[0]]: the text before the first occurrence of [d]. *)
Fixpoint before_first (d : ascii) (s : string) : string :=
  match s with
  | EmptyString => EmptyString
  | String c s' => if Ascii.eqb c d then EmptyString else String c (before_first d s')
  end.

(** Truthiness of a [number | null | undefined] holding an integer. *)
Definition truthy (y : option Z) : option Z :=
  match y with
  | Some v => if (v =? 0)%Z then None else Some v
  | None => None
  end.

End JS.

(* ====================================================================== *)
(** ** Regular expressions *)
(* ====================================================================== *)

(** The patterns of the scraper are sequences of single-character classes,
    each with a greedy quantifier, and word-boundary assertions.  The matcher
    is the backtracking one of ECMAScript: leftmost start, longest repetition
    first. *)
Module Regex.

Inductive atom : Type :=
| Rep (p : ascii -> bool) (lo : nat) (hi : option nat)  (* class{lo,hi} *)
| WordBoundary.                                          (* \b *)

Definition pattern := list atom.

Definition chr (c : ascii) : atom := Rep (Ascii.eqb c) 1 (Some 1).
(** A letter under the [i] flag. *)
Definition chr_i (c : ascii) : atom :=
  Rep (fun d => Ascii.eqb (JS.lower_char d) c) 1 (Some 1).
Definition plus (p : ascii -> bool) : atom := Rep p 1 None.
Definition star (p : ascii -> bool) : atom := Rep p 0 None.
Definition opt (p : ascii -> bool) : atom := Rep p 0 (Some 1).

Definition room (hi : option nat) : bool :=
  match hi with Some 0 => false | _ => true end.
Definition less (hi : option nat) : option nat :=
  match hi with Some n => Some (Nat.pred n) | None => None end.

Definition word_before (prev : option ascii) : bool :=
  match prev with Some c => JS.is_word c | None => false end.
Definition word_here (s : string) : bool :=
  match s with String c _ => JS.is_word c | EmptyString => false end.

(** [repeat_greedy p lo hi k prev s]: take as many [p] as allowed, then
    continue with [k]; give one back at a time when [k] fails.  The result
    is the matched text. *)
Fixpoint repeat_greedy (p : ascii -> bool) (lo : nat) (hi : option nat)
         (k : option ascii -> string -> option string)
         (prev : option ascii) (s : string) {struct s} : option string :=
  let stop := match lo with O => k prev s | S _ => None end in
  match s with
  | EmptyString => stop
  | String c s' =>
      if p c && room hi then
        match repeat_greedy p (Nat.pred lo) (less hi) k (Some c) s' with
        | Some m => Some (String c m)
        | None => stop
        end
      else stop
  end.

Fixpoint match_here (r : pattern) (prev : option ascii) (s : string)
  : option string :=
  match r with
  | [] => Some EmptyString
  | Rep p lo hi :: r' => repeat_greedy p lo hi (match_here r') prev s
  | WordBoundary :: r' =>
      if xorb (word_before prev) (word_here s) then match_here r' prev s
      else None
  end.

Fixpoint search (r : pattern) (prev : option ascii) (s : string)
  : option string :=
  match match_here r prev s with
  | Some m => Some m
  | None =>
      match s with
      | EmptyString => None
      | String c s' => search r (Some c) s'
      end
  end.

(** [s.match(r)] for a pattern without the [g] flag: [match[0]]. *)
Definition exec (r : pattern) (s : string) : option string := search r None s.

(** [r.test(s)] *)
Definition test (r : pattern) (s : string) : bool :=
  match exec r s with Some _ => true | None => false end.

End Regex.

(* ====================================================================== *)
(** ** Arrays and Maps *)
(* ====================================================================== *)

Module Arr.

(** [Array.prototype.sort(cmp)] is stable; [after a b] tells that
    [cmp(a, b) > 0].  Insertion from the right keeps equal elements in
    their order. *)
Fixpoint insert {A : Type} (after : A -> A -> bool) (x : A) (l : list A)
  : list A :=
  match l with
  | [] => [x]
  | y :: l' => if after x y then y :: insert after x l' else x :: l
  end.

Definition sort {A : Type} (after : A -> A -> bool) (l : list A) : list A :=
  fold_right (insert after) [] l.

(** A [Map<number, number>]: its entries in insertion order. *)
Definition NumMap := list (Z * Z).

Fixpoint get (m : NumMap) (k : Z) : option Z :=
  match m with
  | [] => None
  | (k', v) :: m' => if (k' =? k)%Z then Some v else get m' k
  end.

Fixpoint set (m : NumMap) (k v : Z) : NumMap :=
  match m with
  | [] => [(k, v)]
  | (k', v') :: m' =>
      if (k' =? k)%Z then (k', v) :: m' else (k', v') :: set m' k v
  end.

Definition keys (m : NumMap) : list Z := map fst m.

End Arr.

(* ====================================================================== *)
(** ** Constants of the scraper *)
(* ====================================================================== *)

Definition PARALLEL_COLORS : list string :=
  [ "refractor"; "shimmer"; "speckle"; "mojo"; "lava"; "wave";
    "sapphire"; "aqua"; "sky blue";
    "purple"; "blue"; "green"; "gold"; "orange"; "red"; "yellow"; "pink";
    "black";
    "atomic"; "prism"; "hyper"; "x-fractor" ].

Definition GRADED_INDICATORS : list string :=
  [ "psa"; "bgs"; "sgc"; "cgc"; "hga"; "csg";
    "gem mint"; "gem mt 10"; "mint 9"; "perfect 10"; "pristine" ].

Definition LOT_INDICATORS : list string :=
  [ "(2)"; "(3)"; "(4)"; "(5)"; "(6)"; "(10)"; "(20)";
    "[2]"; "[3]"; "[4]"; "[5]"; "[6]"; "[10]"; "[20]";
    "lot"; "bundle"; "set of"; "collection of"; "group";
    "& "; " and "; " + " ].

Definition LOT_QUANTITY_PATTERNS : list Regex.pattern :=
  let d := JS.is_digit in
  let cards o c :=
    [ Regex.chr o; Regex.plus d; Regex.star JS.is_space;
      Regex.chr_i "c"; Regex.chr_i "a"; Regex.chr_i "r"; Regex.chr_i "d";
      Regex.opt (fun x => Ascii.eqb (JS.lower_char x) "s"); Regex.chr c ] in
  [ [ Regex.chr "("; Regex.chr_i "x"; Regex.plus d; Regex.chr ")" ];
    [ Regex.chr "["; Regex.chr_i "x"; Regex.plus d; Regex.chr "]" ];
    [ Regex.chr "("; Regex.plus d; Regex.chr_i "x"; Regex.chr ")" ];
    [ Regex.chr "["; Regex.plus d; Regex.chr_i "x"; Regex.chr "]" ];
    [ Regex.WordBoundary; Regex.chr_i "x"; Regex.plus d; Regex.WordBoundary ];
    cards "("%char ")"%char;
    cards "["%char "]"%char ].

Definition EXCLUDED_PRODUCTS : list string :=
  [ "topps chrome"; "panini"; "donruss"; "prizm"; "contenders";
    "leaf"; "sterling"; "heritage"; "finest";
    "arizona fall league"; "fall league"; "aflac";
    "redemption"; "vip"; "relic"; "patch";
    "bunt"; "digital"; "nft"; "virtual";
    "bowman u"; "bowman university";
    "mega" ].

Definition IP_AUTOGRAPH_INDICATORS : list string :=
  [ " ip "; " ip auto"; "in person"; "in-person"; "signed in"; "signed at";
    "signed by"; "hand signed"; "hand-signed"; "authentic auto";
    "convention"; "meet and greet"; "autograph event"; "signing event" ].

(** [/\/\d{1,4}\b/] *)
Definition SERIAL_PATTERN : Regex.pattern :=
  [ Regex.chr "/"; Regex.Rep JS.is_digit 1 (Some 4); Regex.WordBoundary ].

(** [/\b(20[1-2][0-9])\b/g] *)
Definition YEAR_PATTERN : Regex.pattern :=
  [ Regex.WordBoundary; Regex.chr "2"; Regex.chr "0";
    Regex.Rep (fun c => JS.between 49 50 (JS.code c)) 1 (Some 1);
    Regex.Rep JS.is_digit 1 (Some 1); Regex.WordBoundary ].

(* ====================================================================== *)
(** ** Types *)
(* ====================================================================== *)

(** A [Date], by its [toISOString()] text. *)
Definition Date := string.

Record ParsedSale : Type := {
  title : string;
  ebayUrl : string;
  ebayItemId : string;
  salePrice : float;
  saleDate : Date;
  saleType : string;
  releaseYear : option Z;
  currency : string
}.

(** [FilteredSale extends ParsedSale]: the spread [...sale] is the field
    [parsed]. *)
Record FilteredSale : Type := {
  parsed : ParsedSale;
  isBaseAuto : bool;
  isRefractor : bool;
  exclusionReason : option string
}.

Inductive CardType : Type := base | refractor.

Record ScrapeError : Type := { code : string; message : string }.

Record ScrapeResult : Type := {
  playerName : string;
  normalizedPlayerName : string;
  success : bool;
  totalResultsFromApi : nat;
  baseAutosFiltered : nat;
  refractorsFiltered : nat;
  inferredFirstBowmanYear : option Z;
  salesInserted : nat;
  salesDuplicate : nat;
  salesTotal : nat;
  cardType : option CardType;
  averagePrice : option float;
  medianPrice : option float;
  lastSalePrice : option float;
  lastSaleDate : option Date;
  sampleSize : nat;
  responseTimeMs : Z;
  error : option ScrapeError
}.

(** A row of the table [individual_sales] (its column [title] is
    [row_title]). *)
Record Row : Type := {
  id : string;
  player_name : string;
  normalized_player_name : string;
  ebay_url : string;
  ebay_item_id : string;
  row_title : string;
  sale_price : float;
  sale_date : string;
  sale_type : string;
  release_year : option Z;
  card_type : CardType;
  fetched_at : string
}.

(** What [getPlayerSalesFromDb] returns for a row. *)
Record SaleView : Type := {
  v_id : string;
  v_title : string;
  v_salePrice : float;
  v_saleDate : Date;
  v_saleType : string;
  v_ebayUrl : string;
  v_releaseYear : option Z;
  v_cardType : CardType
}.

(* ====================================================================== *)
(** ** Parsing helpers and the player-name filter *)
(* ====================================================================== *)

(** Decimal value of a run of digits ([parseInt(_, 10)] on a match of
    [YEAR_PATTERN]). *)
Definition parseInt (s : string) : Z :=
  fold_left (fun acc c => (acc * 10 + (Z.of_N (JS.code c) - 48))%Z)
            (list_ascii_of_string s) 0%Z.

Definition extractYear (t : string) : option Z :=
  match Regex.exec YEAR_PATTERN t with
  | Some m => Some (parseInt m)
  | None => None
  end.

(** The class [[\s-]] of the name splitter. *)
Definition name_separator (c : ascii) : bool :=
  JS.is_space c || Ascii.eqb c "-".

Definition nameParts (playerName : string) : list string :=
  filter (fun p => (2 <? String.length p)%nat)
         (JS.split_class name_separator (JS.toLowerCase playerName)).

Definition titleContainsPlayerName (t playerName : string) : bool :=
  let lowerTitle := JS.toLowerCase t in
  let parts := nameParts playerName in
  if forallb (fun part => JS.includes lowerTitle part) parts
  then (0 <? List.length parts)%nat
  else false.

(* ====================================================================== *)
(** ** The classifier *)
(* ====================================================================== *)

(** The three mutable locals of [categorizeListingSale]. *)
Record Flags : Type := {
  f_base : bool;
  f_refractor : bool;
  f_reason : option string
}.

(** Their initial values. *)
Definition initial : Flags :=
  {| f_base := true; f_refractor := false; f_reason := None |}.

Definition exclude (st : Flags) (reason : string) : Flags :=
  {| f_base := false; f_refractor := f_refractor st; f_reason := Some reason |}.

(** A [for ... of] loop that stops at the first element passing the test. *)
Definition first_match {A B : Type} (f : A -> option B) (l : list A)
  : option B :=
  fold_right (fun a rest => match f a with Some b => Some b | None => rest end)
             None l.

Definition first_included (lowerTitle : string) (l : list string)
  : option string :=
  find (fun x => JS.includes lowerTitle x) l.

Definition check_graded (lowerTitle : string) (st : Flags) : Flags :=
  match first_included lowerTitle GRADED_INDICATORS with
  | Some graded => exclude st ("Graded card: " ++ graded)
  | None => st
  end.

Definition check_lot_text (lowerTitle : string) (st : Flags) : Flags :=
  if f_base st then
    match first_included lowerTitle LOT_INDICATORS with
    | Some lot => exclude st ("Lot/bundle: " ++ lot)
    | None => st
    end
  else st.

Definition check_lot_quantity (t : string) (st : Flags) : Flags :=
  if f_base st then
    match first_match (fun p => Regex.exec p t) LOT_QUANTITY_PATTERNS with
    | Some m => exclude st ("Lot quantity: " ++ m)
    | None => st
    end
  else st.

Definition check_product (lowerTitle : string) (st : Flags) : Flags :=
  if f_base st then
    match first_included lowerTitle EXCLUDED_PRODUCTS with
    | Some product => exclude st ("Wrong product: " ++ product)
    | None => st
    end
  else st.

Definition check_ip (lowerTitle : string) (st : Flags) : Flags :=
  if f_base st then
    match first_included lowerTitle IP_AUTOGRAPH_INDICATORS with
    | Some ipIndicator =>
        {| f_base := false; f_refractor := false;
           f_reason := Some ("IP/aftermarket auto: " ++ JS.trim ipIndicator)%string |}
    | None => st
    end
  else st.

Definition check_serial (t lowerTitle : string) (st : Flags) : Flags :=
  if f_base st && Regex.test SERIAL_PATTERN t then
    {| f_base := false;
       f_refractor :=
         if JS.includes lowerTitle "/499" && JS.includes lowerTitle "refractor"
         then true else f_refractor st;
       f_reason := Some "Numbered parallel" |}
  else st.

Definition check_color (lowerTitle : string) (st : Flags) : Flags :=
  if f_base st then
    match first_included lowerTitle PARALLEL_COLORS with
    | Some color =>
        {| f_base := false;
           f_refractor :=
             if String.eqb color "refractor" && JS.includes lowerTitle "/499"
             then true else f_refractor st;
           f_reason := Some ("Parallel: " ++ color)%string |}
    | None => st
    end
  else st.

Definition classify_flags (t : string) : Flags :=
  let lowerTitle := JS.toLowerCase t in
  let st := check_graded lowerTitle initial in
  let st := check_lot_text lowerTitle st in
  let st := check_lot_quantity t st in
  let st := check_product lowerTitle st in
  let st := check_ip lowerTitle st in
  let st := check_serial t lowerTitle st in
  check_color lowerTitle st.

Definition categorizeListingSale (sale : ParsedSale) : FilteredSale :=
  let st := classify_flags (title sale) in
  {| parsed := sale;
     isBaseAuto := f_base st;
     isRefractor := f_refractor st;
     exclusionReason := f_reason st |}.

(* ====================================================================== *)
(** ** Year inference *)
(* ====================================================================== *)

(** One pass of [determineFirstBowmanYear] over the sales: count the year of
    every sale with a truthy [releaseYear] that [pick]s. *)
Definition tally (pick : FilteredSale -> bool) (sales : list FilteredSale)
           (yearCounts : Arr.NumMap) : Arr.NumMap :=
  fold_left
    (fun m s =>
       match JS.truthy (releaseYear (parsed s)) with
       | Some y =>
           if pick s
           then Arr.set m y (match Arr.get m y with
                             | Some n => n
                             | None => 0
                             end + 1)%Z
           else m
       | None => m
       end)
    sales yearCounts.

Definition determineFirstBowmanYear (sales : list FilteredSale) : option Z :=
  let yearCounts := tally isBaseAuto sales [] in
  let yearCounts :=
    match yearCounts with
    | [] => tally isRefractor sales yearCounts
    | _ => yearCounts
    end in
  match yearCounts with
  | [] => None
  | _ =>
      let years := Arr.sort (fun a b => (0 <? a - b)%Z) (Arr.keys yearCounts) in
      hd_error years
  end.

(* ====================================================================== *)
(** ** Numbers *)
(* ====================================================================== *)

Module Num.

Definition of_Z (n : Z) : float := PrimFloat.of_uint63 (Uint63.of_Z n).

Definition of_nat (n : nat) : float := of_Z (Z.of_nat n).

(** [Math.round]: the integer nearest to [x], the larger one on a tie.
    A finite [x] is [(-1)^s * m * 2^e]; with [e >= 0] it is an integer
    already, otherwise the result is [floor (x + 1/2)] computed exactly. *)
Definition Math_round (x : float) : float :=
  match Prim2SF x with
  | S754_finite s m e =>
      if (0 <=? e)%Z then x
      else
        let sm := if s then Z.neg m else Z.pos m in
        let n := ((2 * sm + 2 ^ (- e)) / 2 ^ (1 - e))%Z in
        if (n =? 0)%Z then (if s then (-0)%float else 0%float)
        else if (n <? 0)%Z then PrimFloat.opp (of_Z (- n))
        else of_Z n
  | _ => x
  end.

(** [Math.round(x * 100) / 100] *)
Definition round2 (x : float) : float :=
  (Math_round (x * 100) / 100)%float.

(** [prices.reduce((a, b) => a + b, 0)] *)
Definition sum (prices : list float) : float :=
  fold_left PrimFloat.add prices 0%float.

(** The comparator [(a, b) => a - b] is positive. *)
Definition after (a b : float) : bool := (0 <? a - b)%float.

(** [Number.isNaN]: NaN is the one number that differs from itself. *)
Definition isNaN (x : float) : bool := negb (PrimFloat.eqb x x).

End Num.

(* ====================================================================== *)
(** ** The store *)
(* ====================================================================== *)

Module Sqlite.

(** [LIKE] folds the case of the ASCII letters only. *)
Definition fold_case (c : ascii) : ascii :=
  if JS.between 65 90 (JS.code c) then ascii_of_N (JS.code c + 32) else c.

(** [text LIKE pat], without [ESCAPE]: [%] is any run of characters, [_]
    any one character, every other character itself up to ASCII case. *)
Fixpoint like (pat text : string) {struct pat} : bool :=
  match pat with
  | EmptyString =>
      match text with EmptyString => true | String _ _ => false end
  | String c pat' =>
      if Ascii.eqb c "%" then
        (fix any (t : string) : bool :=
           like pat' t ||
           match t with
           | EmptyString => false
           | String _ t' => any t'
           end) text
      else
        match text with
        | EmptyString => false
        | String d text' =>
            (Ascii.eqb c "_" || Ascii.eqb (fold_case c) (fold_case d))
            && like pat' text'
        end
  end.

(** [ORDER BY sale_date DESC] on a TEXT column (byte order); rows with the
    same key stay in table order. *)
Definition order_by_desc {A : Type} (key : A -> string) (rows : list A)
  : list A :=
  Arr.sort (fun a b => String.ltb (key a) (key b)) rows.

(** [LIMIT n] *)
Definition limit {A : Type} (n : nat) (rows : list A) : list A :=
  firstn n rows.

End Sqlite.

(** What [new URL(url)] gives the scraper: the origin and the path name. *)
Record URL : Type := { origin : string; pathname : string }.

Module PlainURL.

(** The URL parser on plain web addresses: [http://] or [https://], a host
    that ends at the first [/], [?] or [#], and a path that ends at the
    first [?] or [#].  Everything else throws.  (No port, no credentials,
    no escapes, no dot segments: item pages have none.) *)
Definition ends_host (c : ascii) : bool :=
  Ascii.eqb c "/" || Ascii.eqb c "?" || Ascii.eqb c "#".
Definition ends_path (c : ascii) : bool :=
  Ascii.eqb c "?" || Ascii.eqb c "#".

Fixpoint take_until (stop : ascii -> bool) (s : string) : string :=
  match s with
  | EmptyString => EmptyString
  | String c s' => if stop c then EmptyString else String c (take_until stop s')
  end.

Fixpoint drop_until (stop : ascii -> bool) (s : string) : string :=
  match s with
  | EmptyString => EmptyString
  | String c s' => if stop c then s else drop_until stop s'
  end.

Definition after_scheme (url : string) : option (string * string) :=
  let l := JS.toLowerCase url in
  if JS.startsWith "https://" l
  then Some ("https://", substring 8 (String.length url) url)
  else if JS.startsWith "http://" l
       then Some ("http://", substring 7 (String.length url) url)
       else None.

Definition parse (url : string) : option URL :=
  match after_scheme url with
  | Some (scheme, rest) =>
      let host := JS.toLowerCase (take_until ends_host rest) in
      let path := take_until ends_path (drop_until ends_host rest) in
      match host with
      | EmptyString => None
      | _ =>
          Some {| origin := scheme ++ host;
                  pathname := match path with
                              | String "/" _ => path
                              | _ => "/"
                              end |}
      end
  | None => None
  end.

End PlainURL.

(** What the network call [query130PointCards] does: throw, or return the
    parsed sales. *)
Inductive Fetched : Type :=
| Threw (msg : string)
| Returned (rawSales : list ParsedSale).

Record MarketStats : Type := {
  m_average : option float;
  m_median : option float;
  m_lastPrice : option float;
  m_lastDate : option Date
}.

(** Step 6 of [scrapeAndStorePlayer]: the statistics of the recent sales. *)
Definition marketStats (recentSales : list SaleView) : MarketStats :=
  match recentSales with
  | [] => {| m_average := None; m_median := None;
             m_lastPrice := None; m_lastDate := None |}
  | first :: _ =>
      let prices := Arr.sort Num.after (map v_salePrice recentSales) in
      let n := List.length prices in
      let mid := Nat.div n 2 in
      {| m_average :=
           Some (Num.round2 (Num.sum prices / Num.of_nat n)%float);
         m_median :=
           Some (if Nat.odd n then nth mid prices nan
                 else Num.round2
                        ((nth (mid - 1) prices nan + nth mid prices nan) / 2)%float);
         m_lastPrice := Some (v_salePrice first);
         m_lastDate := Some (v_saleDate first) |}
  end.

Definition year_is (y : Z) (s : FilteredSale) : bool :=
  match releaseYear (parsed s) with
  | Some v => (v =? y)%Z
  | None => false
  end.

(** Step 4 of [scrapeAndStorePlayer]: the sales to store and their card
    type. *)
Definition selectSales (baseAutos refractors : list FilteredSale)
           (firstYear : option Z) : list FilteredSale * CardType :=
  match JS.truthy firstYear with
  | Some y =>
      let firstYearBaseAutos := filter (year_is y) baseAutos in
      if (0 <? List.length firstYearBaseAutos)%nat
      then (firstYearBaseAutos, base)
      else
        let firstYearRefractors := filter (year_is y) refractors in
        if (0 <? List.length firstYearRefractors)%nat
        then (firstYearRefractors, refractor)
        else ([], base)
  | None =>
      if (0 <? List.length baseAutos)%nat then (baseAutos, base)
      else if (0 <? List.length refractors)%nat then (refractors, refractor)
           else ([], base)
  end.

Definition normalizeName (playerName : string) : string :=
  JS.trim (JS.toLowerCase playerName).

Definition failure (name : string) (total nbase nrefr : nat)
           (year : option Z) (elapsed : Z) (c m : string) : ScrapeResult :=
  {| playerName := name;
     normalizedPlayerName := normalizeName name;
     success := false;
     totalResultsFromApi := total;
     baseAutosFiltered := nbase;
     refractorsFiltered := nrefr;
     inferredFirstBowmanYear := year;
     salesInserted := 0;
     salesDuplicate := 0;
     salesTotal := 0;
     cardType := None;
     averagePrice := None;
     medianPrice := None;
     lastSalePrice := None;
     lastSaleDate := None;
     sampleSize := 0;
     responseTimeMs := elapsed;
     error := Some {| code := c; message := m |} |}.

(** [`${firstYear || 'any'}`] *)
Definition year_text (y : option Z) : string :=
  match JS.truthy y with
  | Some v => NilZero.string_of_int (Z.to_int v)
  | None => "any"
  end.

(** Steps 2 to 4 of [scrapeAndStorePlayer]: what a run keeps of the fetched
    sales.  None of it reads the store. *)
Record Selection : Type := {
  sel_baseAutos : list FilteredSale;
  sel_refractors : list FilteredSale;
  sel_firstYear : option Z;
  sel_salesToStore : list FilteredSale;
  sel_cardType : CardType
}.

Definition selectForPlayer (rawSales : list ParsedSale) (name : string)
           (targetYear : option Z) : Selection :=
  let categorizedSales := map categorizeListingSale rawSales in
  let nameMatchedSales :=
    filter (fun s => titleContainsPlayerName (title (parsed s)) name)
           categorizedSales in
  let baseAutos := filter isBaseAuto nameMatchedSales in
  let refractors := filter isRefractor nameMatchedSales in
  let firstYear :=
    match JS.truthy targetYear with
    | Some y => Some y
    | None => determineFirstBowmanYear categorizedSales
    end in
  let (salesToStore, ct) := selectSales baseAutos refractors firstYear in
  {| sel_baseAutos := baseAutos;
     sel_refractors := refractors;
     sel_firstYear := firstYear;
     sel_salesToStore := salesToStore;
     sel_cardType := ct |}.

(** How a call ends: it returns a value, or it throws an error with a
    message. *)
Inductive Completion (A : Type) : Type :=
| Return (a : A)
| Throw (msg : string).

Arguments Return {A} a.
Arguments Throw {A} msg.

(** [INSERT INTO individual_sales]: the constraint of the table that the
    row violates, if any, as the message of the error that the driver
    throws.  [sale_price] is [REAL NOT NULL] and a NaN is bound as NULL;
    [ebay_url] is [UNIQUE]; [id] is the [PRIMARY KEY].  (The other
    [NOT NULL] columns are bound to strings.) *)
Definition constraint_failed (db : list Row) (row : Row) : option string :=
  if Num.isNaN (sale_price row)
  then Some "NOT NULL constraint failed: individual_sales.sale_price"
  else if existsb (fun r => String.eqb (ebay_url r) (ebay_url row)) db
  then Some "UNIQUE constraint failed: individual_sales.ebay_url"
  else if existsb (fun r => String.eqb (id r) (id row)) db
  then Some "UNIQUE constraint failed: individual_sales.id"
  else None.

Section Pipeline.

(** The platform: the URL parser ([None] when [new URL] throws), the
    identifier and the clock reading drawn for the n-th row of the table,
    and the time a run takes. *)
Variable URL_parse : string -> option URL.
Variable uuidv4 : nat -> string.
Variable clock : nat -> Date.
Variable elapsedMs : Z.

Definition normalizeEbayUrl (url : string) : string :=
  match URL_parse url with
  | Some urlObj => (origin urlObj ++ pathname urlObj)%string
  | None => JS.before_first "?" url
  end.

(** [SELECT 1 FROM individual_sales WHERE ebay_url = ? OR ebay_url LIKE ?] *)
Definition saleExists (db : list Row) (ebayUrl : string) : bool :=
  let normalizedUrl := normalizeEbayUrl ebayUrl in
  existsb (fun row =>
             String.eqb (ebay_url row) normalizedUrl
             || Sqlite.like (normalizedUrl ++ "%") (ebay_url row))
          db.

(** The row that [insertSale] binds to its INSERT. *)
Definition row_to_insert (db : list Row) (name : string)
           (sale : FilteredSale) (ct : CardType) : Row :=
  {| id := uuidv4 (List.length db);
     player_name := name;
     normalized_player_name := normalizeName name;
     ebay_url := normalizeEbayUrl (ebayUrl (parsed sale));
     ebay_item_id := ebayItemId (parsed sale);
     row_title := title (parsed sale);
     sale_price := salePrice (parsed sale);
     sale_date := saleDate (parsed sale);
     sale_type := saleType (parsed sale);
     release_year := releaseYear (parsed sale);
     card_type := ct;
     fetched_at := clock (List.length db) |}.

(** [insertSale]: the table after the call, and whether the call returned
    true (inserted), returned false (duplicate) or threw (the INSERT was
    refused; the table is as before). *)
Definition insertSale (db : list Row) (name : string) (sale : FilteredSale)
           (ct : CardType) : list Row * Completion bool :=
  let normalizedUrl := normalizeEbayUrl (ebayUrl (parsed sale)) in
  if saleExists db normalizedUrl then (db, Return false)
  else
    let row := row_to_insert db name sale ct in
    match constraint_failed db row with
    | Some msg => (db, Throw msg)
    | None => (db ++ [row], Return true)
    end.

(** The WHERE clause of [getPlayerSalesFromDb] and [getPlayerSalesCount];
    [cutoff] is the ISO text of the cut-off date when [daysBack] is
    given and positive. *)
Definition row_matches (normalizedName : string) (year : option Z)
           (cutoff : option string) (row : Row) : bool :=
  String.eqb (normalized_player_name row) normalizedName
  && match JS.truthy year with
     | Some y => match release_year row with
                 | Some v => (v =? y)%Z
                 | None => false
                 end
     | None => true
     end
  && match cutoff with
     | Some c => String.leb c (sale_date row)
     | None => true
     end.

Definition view (row : Row) : SaleView :=
  {| v_id := id row;
     v_title := row_title row;
     v_salePrice := sale_price row;
     v_saleDate := sale_date row;
     v_saleType := sale_type row;
     v_ebayUrl := ebay_url row;
     v_releaseYear := release_year row;
     v_cardType := card_type row |}.

Definition selectRows (db : list Row) (name : string) (year : option Z)
           (lim : option nat) (cutoff : option string) : list Row :=
  let rows := filter (row_matches (normalizeName name) year cutoff) db in
  let rows := Sqlite.order_by_desc sale_date rows in
  match lim with
  | Some (S n) => Sqlite.limit (S n) rows
  | _ => rows
  end.

Definition getPlayerSalesFromDb (db : list Row) (name : string)
           (year : option Z) (lim : option nat) (cutoff : option string)
  : list SaleView :=
  map view (selectRows db name year lim cutoff).

Definition getPlayerSalesCount (db : list Row) (name : string)
           (year : option Z) : nat :=
  List.length (filter (row_matches (normalizeName name) year None) db).

(** Step 5: the insertion loop over the sales that are left, with its two
    counters.  An [insertSale] that throws ends the loop: the error goes
    to the [catch] of [scrapeAndStorePlayer], and the rows inserted before
    stay in the table. *)
Fixpoint store_from (name : string) (ct : CardType)
         (salesToStore : list FilteredSale) (db : list Row)
         (inserted duplicates : nat) : list Row * Completion (nat * nat) :=
  match salesToStore with
  | [] => (db, Return (inserted, duplicates))
  | sale :: rest =>
      match insertSale db name sale ct with
      | (db', Return true) =>
          store_from name ct rest db' (S inserted) duplicates
      | (db', Return false) =>
          store_from name ct rest db' inserted (S duplicates)
      | (db', Throw msg) => (db', Throw msg)
      end
  end.

Definition storeSales (db : list Row) (name : string) (ct : CardType)
           (salesToStore : list FilteredSale)
  : list Row * Completion (nat * nat) :=
  store_from name ct salesToStore db 0 0.

Definition scrapeAndStorePlayer (db : list Row) (fetched : Fetched)
           (name : string) (targetYear : option Z)
  : list Row * ScrapeResult :=
  let normalizedName := normalizeName name in
  match fetched with
  | Threw msg =>
      (db, failure name 0 0 0 None elapsedMs "SCRAPE_ERROR" msg)
  | Returned [] =>
      (db, failure name 0 0 0 (JS.truthy targetYear) elapsedMs
                   "NO_RESULTS" "No results returned from API")
  | Returned rawSales =>
      let sel := selectForPlayer rawSales name targetYear in
      let baseAutos := sel_baseAutos sel in
      let refractors := sel_refractors sel in
      let firstYear := sel_firstYear sel in
      let ct := sel_cardType sel in
      match sel_salesToStore sel with
      | [] =>
          (db, failure name (List.length rawSales) (List.length baseAutos)
                       (List.length refractors) firstYear elapsedMs
                       "NO_VALID_SALES"
                       ("No base autos or refractors found for "
                          ++ year_text firstYear ++ " year"))
      | salesToStore =>
          match storeSales db name ct salesToStore with
          | (db', Throw msg) =>
              (db', failure name 0 0 0 None elapsedMs "SCRAPE_ERROR" msg)
          | (db', Return (inserted, duplicates)) =>
              let recentSales :=
                getPlayerSalesFromDb db' normalizedName (JS.truthy firstYear)
                                     (Some 5%nat) None in
              let stats := marketStats recentSales in
              let totalSalesInDb :=
                getPlayerSalesCount db' normalizedName (JS.truthy firstYear) in
              (db',
               {| playerName := name;
                  normalizedPlayerName := normalizedName;
                  success := true;
                  totalResultsFromApi := List.length rawSales;
                  baseAutosFiltered := List.length baseAutos;
                  refractorsFiltered := List.length refractors;
                  inferredFirstBowmanYear := firstYear;
                  salesInserted := inserted;
                  salesDuplicate := duplicates;
                  salesTotal := totalSalesInDb;
                  cardType := Some ct;
                  averagePrice := m_average stats;
                  medianPrice := m_median stats;
                  lastSalePrice := m_lastPrice stats;
                  lastSaleDate := m_lastDate stats;
                  sampleSize := List.length recentSales;
                  responseTimeMs := elapsedMs;
                  error := None |})
          end
      end
  end.

End Pipeline.

(* ====================================================================== *)
(** ** Vocabulary of the statements *)
(* ====================================================================== *)

(** The three classes of a classified listing. *)
Definition admissible_base (c : FilteredSale) : Prop :=
  isBaseAuto c = true /\ isRefractor c = false /\ exclusionReason c = None.

Definition admissible_fallback (c : FilteredSale) : Prop :=
  isBaseAuto c = false /\ isRefractor c = true /\
  (exclusionReason c = Some "Numbered parallel"
   \/ exclusionReason c = Some "Parallel: refractor").

Definition excluded (c : FilteredSale) : Prop :=
  isBaseAuto c = false /\ isRefractor c = false /\
  exists reason, exclusionReason c = Some reason.

(** The title, lower-cased, contains one of the indicators. *)
Definition indicated (l : list string) (t : string) : Prop :=
  exists x, In x l /\ JS.includes (JS.toLowerCase t) x = true.

(** The title shows a lot: by a text indicator or a quantity pattern. *)
Definition lot_indicated (t : string) : Prop :=
  indicated LOT_INDICATORS t
  \/ exists p, In p LOT_QUANTITY_PATTERNS /\ Regex.test p t = true.

(** What holds of the flags up to the serial-number check: still base with
    nothing recorded, or excluded for good with a reason. *)
Definition settled (st : Flags) : Prop :=
  (f_base st = true /\ f_refractor st = false /\ f_reason st = None)
  \/ (f_base st = false /\ f_refractor st = false /\
      exists r, f_reason st = Some r).

(** The flags before the serial-number check. *)
Definition before_serial (t : string) : Flags :=
  let lt := JS.toLowerCase t in
  check_ip lt (check_product lt (check_lot_quantity t
    (check_lot_text lt (check_graded lt initial)))).

(** [a] may stand before [b] in an array sorted with [after]. *)
Definition precedes {A : Type} (after : A -> A -> bool) (a b : A) : Prop :=
  after a b = false.

(** Ascending numbers: the comparator [(a, b) => a - b]. *)
Definition ascending (a b : Z) : bool := (0 <? a - b)%Z.

(** The years observed among the sales that [pick]. *)
Definition years_of (pick : FilteredSale -> bool) (sales : list FilteredSale)
  : list Z :=
  flat_map (fun s => match releaseYear (parsed s) with
                     | Some y => if pick s then [y] else []
                     | None => []
                     end) sales.

Definition earliest (y : Z) (years : list Z) : Prop :=
  In y years /\ forall y', In y' years -> (y <= y')%Z.

(** The sales a fetch hands to the pipeline. *)
Definition fetched_sales (fetched : Fetched) : list ParsedSale :=
  match fetched with
  | Threw _ => []
  | Returned rawSales => rawSales
  end.

(** The row matches the URL [n] in the duplicate check: its stored URL is
    [n], or is [LIKE] the pattern [n] followed by [%]. *)
Definition url_matches (n : string) (row : Row) : Prop :=
  ebay_url row = n \/ Sqlite.like (n ++ "%") (ebay_url row) = true.

(** Normalizing a normalized URL changes nothing (so it is for every URL
    that [new URL] parses, and for the text before a question mark). *)
Definition stable_url (URL_parse : string -> option URL) (u : string) : Prop :=
  normalizeEbayUrl URL_parse (normalizeEbayUrl URL_parse u)
  = normalizeEbayUrl URL_parse u.

(** The row was written for the player [name], with the card type [ct],
    from one of the listings [l]: it has the normalized URL, the title,
    the price and the year of that listing, and its price is a number. *)
Definition stored_from (URL_parse : string -> option URL) (name : string)
           (ct : CardType) (l : list FilteredSale) (row : Row) : Prop :=
  exists s,
    In s l
    /\ ebay_url row = normalizeEbayUrl URL_parse (ebayUrl (parsed s))
    /\ player_name row = name
    /\ normalized_player_name row = normalizeName name
    /\ row_title row = title (parsed s)
    /\ sale_price row = salePrice (parsed s)
    /\ release_year row = releaseYear (parsed s)
    /\ card_type row = ct
    /\ Num.isNaN (sale_price row) = false.

(** [a] was sold no earlier than [b]. *)
Definition newer_or_same (a b : Row) : Prop :=
  String.leb (sale_date b) (sale_date a) = true.

(** The listings a run hands to persistence. *)
Definition to_store (fetched : Fetched) (name : string) (targetYear : option Z)
  : list FilteredSale :=
  sel_salesToStore (selectForPlayer (fetched_sales fetched) name targetYear).

Definition error_code (r : ScrapeResult) : option string :=
  option_map code (error r).

(** The mean of the prices, and their middle value as the code reports it:
    for an even count, the mean of the two middle values rounded to two
    decimals. *)
Definition mean (prices : list float) : float :=
  (Num.sum prices / Num.of_nat (List.length prices))%float.

Definition middle (prices : list float) : float :=
  let n := List.length prices in
  if Nat.odd n then nth (Nat.div n 2) prices nan
  else Num.round2
         ((nth (Nat.div n 2 - 1) prices nan + nth (Nat.div n 2) prices nan) / 2)%float.

(** The summary of the rows [recent], most recent first. *)
Definition summary_of (recent : list Row) (r : ScrapeResult) : Prop :=
  sampleSize r = List.length recent
  /\ match recent with
     | [] =>
         averagePrice r = None /\ medianPrice r = None
         /\ lastSalePrice r = None /\ lastSaleDate r = None
     | latest :: _ =>
         averagePrice r
         = Some (Num.round2 (mean (Arr.sort Num.after (map sale_price recent))))
         /\ medianPrice r
            = Some (middle (Arr.sort Num.after (map sale_price recent)))
         /\ lastSalePrice r = Some (sale_price latest)
         /\ lastSaleDate r = Some (sale_date latest)
     end.

(* ====================================================================== *)
(** ** Listings, stores and runs used as examples *)
(* ====================================================================== *)

Definition listing (t : string) (u : string) (p : float) (d : Date)
  : ParsedSale :=
  {| title := t; ebayUrl := u; ebayItemId := u; salePrice := p;
     saleDate := d; saleType := "Auction"; releaseYear := extractYear t;
     currency := "USD" |}.

(** A /499 refractor, the sanctioned fallback. *)
Definition numbered_refractor : ParsedSale :=
  listing "2023 Bowman Chrome Player Y Refractor Auto /499"
          "https://www.ebay.com/itm/1001" 80 "2025-01-05T00:00:00.000Z".

(** The same card, signed in person. *)
Definition in_person_refractor : ParsedSale :=
  listing "2023 Bowman Chrome Player Y Refractor Auto /499 In Person"
          "https://www.ebay.com/itm/1002" 80 "2025-01-05T00:00:00.000Z".

(** A graded lot. *)
Definition graded_lot : ParsedSale :=
  listing "2023 Bowman Chrome Player Y Auto PSA 10 Lot (2)"
          "https://www.ebay.com/itm/1003" 80 "2025-01-05T00:00:00.000Z".

(** Base years 2023, 2022, 2023 and 2024: 2023 is the most frequent. *)
Definition three_years : list FilteredSale :=
  map categorizeListingSale
      [ listing "2023 Bowman Chrome Player Y Auto"
                "https://www.ebay.com/itm/2001" 40 "2025-01-01T00:00:00.000Z";
        listing "2022 Bowman Chrome Player Y Auto"
                "https://www.ebay.com/itm/2002" 45 "2025-01-02T00:00:00.000Z";
        listing "2023 Bowman Chrome Player Y Auto"
                "https://www.ebay.com/itm/2003" 50 "2025-01-03T00:00:00.000Z";
        listing "2024 Bowman Chrome Player Y Auto"
                "https://www.ebay.com/itm/2004" 55 "2025-01-04T00:00:00.000Z" ].

Definition row_id (n : nat) : string :=
  "sale-" ++ NilZero.string_of_uint (Nat.to_uint n).

Definition row_clock (n : nat) : Date := "2025-02-01T07:00:00.000Z".

Definition plain_insert := insertSale PlainURL.parse row_id row_clock.

Definition plain_run := scrapeAndStorePlayer PlainURL.parse row_id row_clock 0.

(** Two item pages, the number of one a prefix of the other's. *)
Definition item_12345 : FilteredSale :=
  categorizeListingSale
    (listing "2023 Bowman Chrome Player Y Auto"
             "https://www.ebay.com/itm/12345?nordt=true" 40
             "2025-01-01T00:00:00.000Z").

Definition item_1234 : FilteredSale :=
  categorizeListingSale
    (listing "2023 Bowman Chrome Player Z Auto"
             "https://www.ebay.com/itm/1234?nordt=true" 45
             "2025-01-02T00:00:00.000Z").

Definition store_with_12345 : list Row :=
  fst (plain_insert [] "Player Y" item_12345 base).

(** Scenario A: one graded listing. *)
Definition scenario_A : list ParsedSale :=
  [ listing "2024 Player X Chrome Auto PSA 10"
            "https://www.ebay.com/itm/3001" 50 "2025-01-01T00:00:00.000Z" ].

(** Scenario B: three base listings of 2023. *)
Definition scenario_B : list ParsedSale :=
  [ listing "2023 Player Y Chrome Auto"
            "https://www.ebay.com/itm/4001?hash=a" 40 "2025-01-01T00:00:00.000Z";
    listing "2023 Player Y Chrome Auto"
            "https://www.ebay.com/itm/4002?hash=b" 45 "2025-01-02T00:00:00.000Z";
    listing "2023 Player Y Chrome Auto"
            "https://www.ebay.com/itm/4003?hash=c" 50 "2025-01-03T00:00:00.000Z" ].

Definition priced (n : nat) (p : float) : ParsedSale :=
  listing "2023 Player Y Chrome Auto"
          ("https://www.ebay.com/itm/500"
             ++ NilZero.string_of_uint (Nat.to_uint n))%string
          p
          ("2025-01-0" ++ NilZero.string_of_uint (Nat.to_uint n)
             ++ "T00:00:00.000Z")%string.

Definition five_sales : list ParsedSale :=
  [ priced 1 10; priced 2 20; priced 3 30; priced 4 40; priced 5 50 ].

Definition two_sales : list ParsedSale := [ priced 1 10; priced 2 20 ].

Definition two_cent_sales : list ParsedSale :=
  [ priced 1 10.01; priced 2 10.02 ].

(** A listing of another player, of an earlier year, next to one of the
    player asked for. *)
Definition other_player_2022 : ParsedSale :=
  listing "2022 Bowman Chrome Mike Jones Auto"
          "https://www.ebay.com/itm/6001" 30 "2025-01-01T00:00:00.000Z".

Definition john_smith_2023 : ParsedSale :=
  listing "2023 Bowman Chrome John Smith Auto"
          "https://www.ebay.com/itm/6002" 60 "2025-01-02T00:00:00.000Z".

(* ====================================================================== *)
(** ** Vocabulary of the further statements *)
(* ====================================================================== *)

Definition absent {A : Type} (o : option A) : bool :=
  match o with None => true | Some _ => false end.

(** The title shows a quantity: one of the quantity patterns matches. *)
Definition quantity_indicated (t : string) : Prop :=
  exists p, In p LOT_QUANTITY_PATTERNS /\ Regex.test p t = true.

(** None of the first five rules (graded, lot text, lot quantity, wrong
    product, in-person autograph) applies to the title. *)
Definition passes_exclusions (t : string) : Prop :=
  ~ indicated GRADED_INDICATORS t
  /\ ~ indicated LOT_INDICATORS t
  /\ ~ quantity_indicated t
  /\ ~ indicated EXCLUDED_PRODUCTS t
  /\ ~ indicated IP_AUTOGRAPH_INDICATORS t.

(** The same, as the tests the code makes. *)
Definition passes_exclusions_b (t : string) : bool :=
  absent (first_included (JS.toLowerCase t) GRADED_INDICATORS)
  && absent (first_included (JS.toLowerCase t) LOT_INDICATORS)
  && absent (first_match (fun p => Regex.exec p t) LOT_QUANTITY_PATTERNS)
  && absent (first_included (JS.toLowerCase t) EXCLUDED_PRODUCTS)
  && absent (first_included (JS.toLowerCase t) IP_AUTOGRAPH_INDICATORS).

(** The text has no space in it. *)
Fixpoint spaceless (s : string) : Prop :=
  match s with
  | EmptyString => True
  | String c s' => c <> " "%char /\ spaceless s'
  end.

(** A pattern whose classes do not tell a letter from its lower case. *)
Definition case_blind (r : Regex.pattern) : Prop :=
  Forall (fun a => match a with
                   | Regex.Rep p _ _ => forall c, p (JS.lower_char c) = p c
                   | Regex.WordBoundary => True
                   end) r.

(** The character before the position, lower-cased. *)
Definition lower_prev (prev : option ascii) : option ascii :=
  option_map JS.lower_char prev.

(** The years observed among the sales that [pick], as the code reads them:
    a year 0 counts as no year. *)
Definition truthy_years (pick : FilteredSale -> bool)
           (sales : list FilteredSale) : list Z :=
  flat_map (fun s => match JS.truthy (releaseYear (parsed s)) with
                     | Some y => if pick s then [y] else []
                     | None => []
                     end) sales.

(** The name with every hyphen written as a space. *)
Fixpoint unhyphen (s : string) : string :=
  match s with
  | EmptyString => EmptyString
  | String c s' =>
      String (if Ascii.eqb c "-" then " "%char else c) (unhyphen s')
  end.

(** A row as a run for [name] writes it: for that player, of the card type
    [ct] and (when there is one) of the year [year], with a title that
    names the player and that the classifier puts in the card type's
    class. *)
Definition row_of_run (name : string) (ct : CardType) (year : option Z)
           (row : Row) : Prop :=
  player_name row = name
  /\ normalized_player_name row = normalizeName name
  /\ card_type row = ct
  /\ (forall y, JS.truthy year = Some y -> release_year row = Some y)
  /\ titleContainsPlayerName (row_title row) name = true
  /\ match card_type row with
     | base => f_base (classify_flags (row_title row)) = true
     | refractor => f_refractor (classify_flags (row_title row)) = true
     end.

(** The same item page with two different query strings. *)
Definition item_7001_a : FilteredSale :=
  categorizeListingSale
    (listing "2023 Bowman Chrome Player Y Auto"
             "https://www.ebay.com/itm/7001?hash=item1&nordt=true" 40
             "2025-01-01T00:00:00.000Z").

Definition item_7001_b : FilteredSale :=
  categorizeListingSale
    (listing "2023 Bowman Chrome Player Y Auto"
             "https://www.ebay.com/itm/7001?campid=5338" 40
             "2025-01-01T00:00:00.000Z").

(* ====================================================================== *)
(** ** More of the scraper: the end of the parser and the batch *)
(* ====================================================================== *)

(** The end of [parseHtmlResponse]: [sales.filter] with the set
    [seenItemIds], which keeps a sale whose item id was not seen and then
    records the id. *)
Fixpoint dedupe_seen (seenItemIds : list string) (sales : list ParsedSale)
  : list ParsedSale :=
  match sales with
  | [] => []
  | sale :: rest =>
      if existsb (String.eqb (ebayItemId sale)) seenItemIds
      then dedupe_seen seenItemIds rest
      else sale :: dedupe_seen (ebayItemId sale :: seenItemIds) rest
  end.

Definition deduplicatedSales (sales : list ParsedSale) : list ParsedSale :=
  dedupe_seen [] sales.

(** A [Map<string, ScrapeResult>]: its entries in insertion order. *)
Definition ResultMap := list (string * ScrapeResult).

Fixpoint results_get (m : ResultMap) (k : string) : option ScrapeResult :=
  match m with
  | [] => None
  | (k', v) :: m' => if String.eqb k' k then Some v else results_get m' k
  end.

Fixpoint results_set (m : ResultMap) (k : string) (v : ScrapeResult)
  : ResultMap :=
  match m with
  | [] => [(k, v)]
  | (k', v') :: m' =>
      if String.eqb k' k then (k', v) :: m'
      else (k', v') :: results_set m' k v
  end.

(** What holds of the results of a batch: the keys are distinct, and each
    result is filed under its own normalized player name. *)
Definition filed (results : ResultMap) : Prop :=
  NoDup (map fst results)
  /\ forall k r, results_get results k = Some r -> normalizedPlayerName r = k.

Section Batch.

Variable URL_parse : string -> option URL.
Variable uuidv4 : nat -> string.
Variable clock : nat -> Date.
Variable elapsedMs : Z.

(** The outcome of the i-th network call of a batch. *)
Variable fetch : nat -> Fetched.

(** The loop of [scrapeMultiplePlayers] from its i-th turn on.  (The pause
    between two calls is not modelled.) *)
Fixpoint batch_from (i : nat) (playerNames : list string) (db : list Row)
         (results : ResultMap) : list Row * ResultMap :=
  match playerNames with
  | [] => (db, results)
  | player :: rest =>
      let (db', result) :=
        scrapeAndStorePlayer URL_parse uuidv4 clock elapsedMs
                             db (fetch i) player None in
      batch_from (S i) rest db'
                 (results_set results (normalizeName player) result)
  end.

Definition scrapeMultiplePlayers (playerNames : list string) (db : list Row)
  : list Row * ResultMap :=
  batch_from 0 playerNames db [].

End Batch.

(* ====================================================================== *)
(** ** The refresh script ([scripts/cron-refresh.ts]) *)
(* ====================================================================== *)

Module CronScript.

Definition GRADED_INDICATORS : list string :=
  [ "psa"; "bgs"; "sgc"; "cgc"; "hga"; "csg"; "gem mint"; "mint 9";
    "pristine" ].

Definition LOT_INDICATORS : list string :=
  [ "lot"; "bundle"; "set of"; "(2)"; "(3)"; "(4)"; "(5)"; "& "; " and ";
    " + " ].

Definition EXCLUDED_PRODUCTS : list string :=
  [ "topps chrome"; "panini"; "donruss"; "prizm"; "leaf"; "finest"; "mega";
    "bowman u" ].

Definition IP_INDICATORS : list string :=
  [ " ip "; "in person"; "in-person"; "hand signed"; "convention" ].

(** [PARALLEL_COLORS] and [SERIAL_PATTERN] are those of the scraper. *)
Definition isBaseAuto (t : string) : bool :=
  let lower := JS.toLowerCase t in
  if existsb (fun pattern => JS.includes lower pattern)
             (GRADED_INDICATORS ++ LOT_INDICATORS ++ EXCLUDED_PRODUCTS
                                ++ IP_INDICATORS)
  then false
  else if existsb (fun color => JS.includes lower color) PARALLEL_COLORS
       then false
       else if Regex.test SERIAL_PATTERN t then false else true.


End CronScript.

(* ====================================================================== *)
(** ** The sales route ([app/api/collection/sales/route.ts]) *)
(* ====================================================================== *)

Module SalesRoute.

Record Stats : Type := {
  averagePrice : float;
  medianPrice : float;
  lastSalePrice : float;
  lastSaleDate : Date;
  sampleSize : nat
}.

(** The market stats of the GET handler, over [recentSales]. *)
Definition marketStats (recentSales : list SaleView) : option Stats :=
  match recentSales with
  | [] => None
  | first :: _ =>
      let prices := Arr.sort Num.after (map v_salePrice recentSales) in
      let n := List.length prices in
      let avg := (Num.sum prices / Num.of_nat n)%float in
      let mid := Nat.div n 2 in
      let median :=
        if Nat.odd n then nth mid prices nan
        else ((nth (mid - 1) prices nan + nth mid prices nan) / 2)%float in
      Some {| averagePrice := Num.round2 avg;
              medianPrice := Num.round2 median;
              lastSalePrice := v_salePrice first;
              lastSaleDate := v_saleDate first;
              sampleSize := List.length recentSales |}
  end.

End SalesRoute.

(* ====================================================================== *)
(** ** The collection database ([lib/collection-database.ts]) *)
(* ====================================================================== *)

Module CollectionDb.

(** A row of [baseline_prices]. *)
Record BaselinePriceRow : Type := {
  b_id : string;
  b_player_name : string;
  b_normalized_player_name : string;
  b_original_price : float;
  b_article_date : string;
  b_article_source : string;
  b_release_year : option Z;
  b_notes : option string;
  b_created_at : string
}.

Record BaselinePrice : Type := {
  bp_id : string;
  bp_playerName : string;
  bp_normalizedPlayerName : string;
  bp_originalPrice : float;
  bp_articleDate : Date;
  bp_articleSource : string;
  bp_releaseYear : option Z;
  bp_notes : option string;
  bp_createdAt : Date
}.

(** [row.notes || undefined] *)
Definition truthy_text (s : option string) : option string :=
  match s with
  | Some EmptyString => None
  | _ => s
  end.

Definition rowToBaselinePrice (row : BaselinePriceRow) : BaselinePrice :=
  {| bp_id := b_id row;
     bp_playerName := b_player_name row;
     bp_normalizedPlayerName := b_normalized_player_name row;
     bp_originalPrice := b_original_price row;
     bp_articleDate := b_article_date row;
     bp_articleSource := b_article_source row;
     bp_releaseYear := JS.truthy (b_release_year row);
     bp_notes := truthy_text (b_notes row);
     bp_createdAt := b_created_at row |}.

(** [SELECT * FROM baseline_prices WHERE normalized_player_name = ?
     ORDER BY article_date DESC LIMIT 1] *)
Definition getBaselinePrice (baseline_prices : list BaselinePriceRow)
           (normalizedPlayerName : string) : option BaselinePrice :=
  match Sqlite.order_by_desc b_article_date
          (filter (fun row => String.eqb (b_normalized_player_name row)
                                         normalizedPlayerName)
                  baseline_prices) with
  | [] => None
  | row :: _ => Some (rowToBaselinePrice row)
  end.

(** A row of [current_market]. *)
Record CurrentMarketRow : Type := {
  cm_id : string;
  cm_player_name : string;
  cm_normalized_player_name : string;
  cm_average_price : float;
  cm_median_price : float;
  cm_last_sale_price : float;
  cm_last_sale_date : string;
  cm_sample_size : nat;
  cm_verified_sales_json : string;
  cm_fetched_at : string;
  cm_card_type : CardType;
  cm_inferred_year : option Z
}.

(** [CurrentMarketData]; the array [verifiedSales] is held as its JSON
    text. *)
Record CurrentMarketData : Type := {
  md_playerName : string;
  md_normalizedPlayerName : string;
  md_averagePrice : float;
  md_medianPrice : float;
  md_lastSalePrice : float;
  md_lastSaleDate : Date;
  md_sampleSize : nat;
  md_verifiedSales : string;
  md_fetchedAt : Date;
  md_cardType : CardType;
  md_inferredYear : option Z
}.

(** The row that [upsertCurrentMarket] offers for insertion; [now] is
    [Date.now()]. *)
Definition offered_row (now : Z) (market : CurrentMarketData)
  : CurrentMarketRow :=
  {| cm_id := "market_" ++ md_normalizedPlayerName market ++ "_"
                ++ NilZero.string_of_int (Z.to_int now);
     cm_player_name := md_playerName market;
     cm_normalized_player_name := md_normalizedPlayerName market;
     cm_average_price := md_averagePrice market;
     cm_median_price := md_medianPrice market;
     cm_last_sale_price := md_lastSalePrice market;
     cm_last_sale_date := md_lastSaleDate market;
     cm_sample_size := md_sampleSize market;
     cm_verified_sales_json := md_verifiedSales market;
     cm_fetched_at := md_fetchedAt market;
     cm_card_type := md_cardType market;
     cm_inferred_year := md_inferredYear market |}.

(** [ON CONFLICT(normalized_player_name) DO UPDATE SET ...]: the row in
    conflict keeps its id and its names and takes the other columns of the
    offered row. *)
Definition updated_row (old excluded : CurrentMarketRow) : CurrentMarketRow :=
  {| cm_id := cm_id old;
     cm_player_name := cm_player_name old;
     cm_normalized_player_name := cm_normalized_player_name old;
     cm_average_price := cm_average_price excluded;
     cm_median_price := cm_median_price excluded;
     cm_last_sale_price := cm_last_sale_price excluded;
     cm_last_sale_date := cm_last_sale_date excluded;
     cm_sample_size := cm_sample_size excluded;
     cm_verified_sales_json := cm_verified_sales_json excluded;
     cm_fetched_at := cm_fetched_at excluded;
     cm_card_type := cm_card_type excluded;
     cm_inferred_year := cm_inferred_year excluded |}.

Fixpoint insert_or_update (current_market : list CurrentMarketRow)
         (offered : CurrentMarketRow) : list CurrentMarketRow :=
  match current_market with
  | [] => [offered]
  | row :: rest =>
      if String.eqb (cm_normalized_player_name row)
                    (cm_normalized_player_name offered)
      then updated_row row offered :: rest
      else row :: insert_or_update rest offered
  end.

(** The table after [upsertCurrentMarket], when its statement is not
    refused (see [upsert_refused]). *)
Definition upsertCurrentMarket (now : Z)
           (current_market : list CurrentMarketRow)
           (market : CurrentMarketData) : list CurrentMarketRow :=
  insert_or_update current_market (offered_row now market).

(** The constraint of [current_market] that the statement of
    [upsertCurrentMarket] violates, if any, as the message of the error
    that the driver throws; the table is then left as it was.  The three
    price columns are [REAL NOT NULL] and a NaN is bound as NULL; [id] is
    the [PRIMARY KEY], which the [ON CONFLICT] clause does not cover. *)
Definition upsert_refused (now : Z)
           (current_market : list CurrentMarketRow)
           (market : CurrentMarketData) : option string :=
  let offered := offered_row now market in
  if Num.isNaN (cm_average_price offered)
  then Some "NOT NULL constraint failed: current_market.average_price"
  else if Num.isNaN (cm_median_price offered)
  then Some "NOT NULL constraint failed: current_market.median_price"
  else if Num.isNaN (cm_last_sale_price offered)
  then Some "NOT NULL constraint failed: current_market.last_sale_price"
  else if existsb (fun row => String.eqb (cm_normalized_player_name row)
                                         (cm_normalized_player_name offered))
                  current_market
  then None
  else if existsb (fun row => String.eqb (cm_id row) (cm_id offered))
                  current_market
  then Some "UNIQUE constraint failed: current_market.id"
  else None.

(** The market data [market] under the player name [name]. *)
Definition named (name : string) (market : CurrentMarketData)
  : CurrentMarketData :=
  {| md_playerName := name;
     md_normalizedPlayerName := md_normalizedPlayerName market;
     md_averagePrice := md_averagePrice market;
     md_medianPrice := md_medianPrice market;
     md_lastSalePrice := md_lastSalePrice market;
     md_lastSaleDate := md_lastSaleDate market;
     md_sampleSize := md_sampleSize market;
     md_verifiedSales := md_verifiedSales market;
     md_fetchedAt := md_fetchedAt market;
     md_cardType := md_cardType market;
     md_inferredYear := md_inferredYear market |}.

Definition rowToCurrentMarket (row : CurrentMarketRow) : CurrentMarketData :=
  {| md_playerName := cm_player_name row;
     md_normalizedPlayerName := cm_normalized_player_name row;
     md_averagePrice := cm_average_price row;
     md_medianPrice := cm_median_price row;
     md_lastSalePrice := cm_last_sale_price row;
     md_lastSaleDate := cm_last_sale_date row;
     md_sampleSize := cm_sample_size row;
     md_verifiedSales := cm_verified_sales_json row;
     md_fetchedAt := cm_fetched_at row;
     md_cardType := cm_card_type row;
     md_inferredYear := cm_inferred_year row |}.

(** [SELECT * FROM current_market WHERE normalized_player_name = ?] *)
Definition getCurrentMarket (current_market : list CurrentMarketRow)
           (normalizedPlayerName : string) : option CurrentMarketData :=
  match find (fun row => String.eqb (cm_normalized_player_name row)
                                    normalizedPlayerName)
             current_market with
  | Some row => Some (rowToCurrentMarket row)
  | None => None
  end.

End CollectionDb.

(* ====================================================================== *)
(** ** The refresh route ([app/api/cron/refresh/route.ts]) *)
(* ====================================================================== *)

Module CronRoute.

Import CollectionDb.

(** [s.split(d)] for a separator of one character: the pieces between the
    separators; [tok] is the piece being read. *)
Fixpoint split_char (d : ascii) (tok : string) (s : string) : list string :=
  match s with
  | EmptyString => [tok]
  | String c s' =>
      if Ascii.eqb c d then tok :: split_char d EmptyString s'
      else split_char d (tok ++ String c EmptyString) s'
  end.

(** A string that is set and not empty ([!x] is false). *)
Definition present (x : option string) : option string :=
  match x with
  | Some EmptyString => None
  | _ => x
  end.

(** [isAuthorized], of the two environment variables and the two request
    headers it reads ([None] for a variable that is not set and for a
    header that is absent). *)
Definition isAuthorized (CRON_SECRET NODE_ENV : option string)
           (authorization railwayCron : option string) : bool :=
  match present CRON_SECRET with
  | None =>
      match NODE_ENV with
      | Some env => String.eqb env "development"
      | None => false
      end
  | Some cronSecret =>
      match present authorization with
      | None =>
          match railwayCron with
          | Some v => String.eqb v "true"
          | None => false
          end
      | Some authHeader =>
          match split_char " " EmptyString authHeader with
          | scheme :: token :: _ =>
              String.eqb scheme "Bearer" && String.eqb token cronSecret
          | _ => false
          end
      end
  end.

(** [4.5 * 60 * 1000] *)
Definition MAX_EXECUTION_TIME_MS : Z := 270000.

(** Truthiness of a [number | null] holding a price: null, 0 and NaN are
    falsy. *)
Definition truthy_price (p : option float) : option float :=
  match p with
  | Some x => if (PrimFloat.eqb x x && negb (PrimFloat.eqb x 0))%bool
              then Some x else None
  | None => None
  end.

Definition or_else {A : Type} (o : option A) (d : A) : A :=
  match o with Some x => x | None => d end.

(** The tables and the counters of the handler's loop. *)
Record State : Type := {
  individual_sales : list Row;
  current_market : list CurrentMarketRow;
  refreshed : nat;
  failed : nat;
  newSalesAdded : nat;
  errors : list (string * string)
}.

Record Stats : Type := {
  s_totalPlayers : nat;
  s_refreshed : nat;
  s_failed : nat;
  s_skipped : nat;
  s_newSalesAdded : nat
}.

Section Handler.

Variable URL_parse : string -> option URL.
Variable uuidv4 : nat -> string.
Variable clock : nat -> Date.
Variable elapsedMs : Z.

(** The outcome of the network call of the i-th turn, the time since the
    start read at the head of that turn, and the clock read when its market
    data is built ([Date.now()] for the id, [new Date()] for a missing last
    sale date and for [fetchedAt]). *)
Variable fetch : nat -> Fetched.
Variable elapsedAt : nat -> Z.
Variable nowMs : nat -> Z.
Variable nowDate : nat -> Date.
Variable fetchedDate : nat -> Date.

(** The table [baseline_prices], which the loop only reads. *)
Variable baseline_prices : list BaselinePriceRow.

(** The market data of a result that has an average. *)
Definition marketDataOf (i : nat) (result : ScrapeResult) (average : float)
  : CurrentMarketData :=
  {| md_playerName := playerName result;
     md_normalizedPlayerName := normalizedPlayerName result;
     md_averagePrice := average;
     md_medianPrice := or_else (truthy_price (medianPrice result)) average;
     md_lastSalePrice := or_else (truthy_price (lastSalePrice result)) average;
     md_lastSaleDate := or_else (lastSaleDate result) (nowDate i);
     md_sampleSize := sampleSize result;
     md_verifiedSales := "[]";
     md_fetchedAt := fetchedDate i;
     md_cardType := or_else (cardType result) base;
     md_inferredYear := inferredFirstBowmanYear result |}.

(** [result.error?.message || 'No valid sales found'] *)
Definition errorMessage (result : ScrapeResult) : string :=
  match error result with
  | Some e => match message e with
              | EmptyString => "No valid sales found"
              | m => m
              end
  | None => "No valid sales found"
  end.

(** One turn of the loop, past the time check.  The [catch] of the turn
    is reached when the statement of [upsertCurrentMarket] is refused
    ([scrapeAndStorePlayer] catches its own errors): the player is counted
    as failed with the message of the error, after the run has stored its
    rows. *)
Definition turn (i : nat) (name : string) (st : State) : State :=
  let targetYear :=
    match getBaselinePrice baseline_prices name with
    | Some baseline => JS.truthy (bp_releaseYear baseline)
    | None => None
    end in
  let (db', result) :=
    scrapeAndStorePlayer URL_parse uuidv4 clock elapsedMs
                         (individual_sales st) (fetch i) name targetYear in
  match success result, averagePrice result with
  | true, Some average =>
      let marketData := marketDataOf i result average in
      match upsert_refused (nowMs i) (current_market st) marketData with
      | Some msg =>
          {| individual_sales := db';
             current_market := current_market st;
             refreshed := refreshed st;
             failed := S (failed st);
             newSalesAdded := newSalesAdded st;
             errors := errors st ++ [(name, msg)] |}
      | None =>
          {| individual_sales := db';
             current_market :=
               upsertCurrentMarket (nowMs i) (current_market st) marketData;
             refreshed := S (refreshed st);
             failed := failed st;
             newSalesAdded := newSalesAdded st + salesInserted result;
             errors := errors st |}
      end
  | _, _ =>
      {| individual_sales := db';
         current_market := current_market st;
         refreshed := refreshed st;
         failed := S (failed st);
         newSalesAdded := newSalesAdded st;
         errors := errors st ++ [(name, errorMessage result)] |}
  end.

(** The loop from its i-th turn on: the state it ends in and the number of
    players skipped. *)
Fixpoint loop_from (i : nat) (playerNames : list string) (st : State)
  : State * nat :=
  match playerNames with
  | [] => (st, 0)
  | name :: rest =>
      if (MAX_EXECUTION_TIME_MS <? elapsedAt i)%Z
      then (st, List.length playerNames)
      else loop_from (S i) rest (turn i name st)
  end.

(** The loop of [POST] on the players to refresh, and the stats it
    reports.  (The price snapshots taken afterwards, the cache and the
    pause between two players are not modelled.) *)
Definition refresh (playerNames : list string) (db : list Row)
           (market : list CurrentMarketRow) : State * Stats :=
  let (st, skipped) :=
    loop_from 0 playerNames
              {| individual_sales := db; current_market := market;
                 refreshed := 0; failed := 0; newSalesAdded := 0;
                 errors := [] |} in
  (st, {| s_totalPlayers := List.length playerNames;
          s_refreshed := refreshed st;
          s_failed := failed st;
          s_skipped := skipped;
          s_newSalesAdded := newSalesAdded st |}).

End Handler.

End CronRoute.

(* ====================================================================== *)
(** ** The name filter on UTF-16 code units *)
(* ====================================================================== *)

(** [titleContainsPlayerName] once more, on JavaScript strings in full: a
    string is the sequence of its UTF-16 code units, and
    [String.prototype.toLowerCase] is a parameter [lower] of the
    definitions.  On the code units below U+0100 this is the filter
    above. *)
Module Wide.

Definition text : Type := list N.

Definition of_string (s : string) : text :=
  map JS.code (list_ascii_of_string s).

(** The class [\s]: WhiteSpace and LineTerminator of ECMAScript. *)
Definition is_space (u : N) : bool :=
  (JS.between 9 13 u || (u =? 32) || (u =? 160) || (u =? 5760)
   || JS.between 8192 8202 u || (u =? 8232) || (u =? 8233) || (u =? 8239)
   || (u =? 8287) || (u =? 12288) || (u =? 65279))%N.

(** The class [[\s-]] of the name splitter. *)
Definition name_separator (u : N) : bool := (is_space u || (u =? 45))%N.

Fixpoint startsWith (p s : text) : bool :=
  match p, s with
  | [], _ => true
  | _ :: _, [] => false
  | a :: p', b :: s' => (a =? b)%N && startsWith p' s'
  end.

Fixpoint includes (s p : text) : bool :=
  startsWith p s ||
  match s with
  | [] => false
  | _ :: s' => includes s' p
  end.

Fixpoint split_runs (sep : N -> bool) (insep : bool) (tok : text) (s : text)
  : list text :=
  match s with
  | [] => [tok]
  | u :: s' =>
      if sep u then
        if insep then split_runs sep true [] s'
        else tok :: split_runs sep true [] s'
      else split_runs sep false (tok ++ [u]) s'
  end.

Definition split_class (sep : N -> bool) (s : text) : list text :=
  split_runs sep false [] s.

Section NameFilter.

Variable lower : text -> text.

Definition nameParts (playerName : text) : list text :=
  filter (fun p => (2 <? List.length p)%nat)
         (split_class name_separator (lower playerName)).

Definition titleContainsPlayerName (t playerName : text) : bool :=
  let lowerTitle := lower t in
  let parts := nameParts playerName in
  if forallb (fun part => includes lowerTitle part) parts
  then (0 <? List.length parts)%nat
  else false.

End NameFilter.

(** [toLowerCase] on the code units below U+0100 and on U+0130, LATIN
    CAPITAL LETTER I WITH DOT ABOVE, which lower-cases to the two code
    units U+0069 U+0307; the other code units are left as they are, which
    is right of U+0307 and of the examples below. *)
Definition lower_unit (u : N) : text :=
  if (u <? 256)%N then [JS.code (JS.lower_char (ascii_of_N u))]
  else if (u =? 304)%N then [105%N; 775%N]
  else [u].

Definition lower_table (s : text) : text := flat_map lower_unit s.

End Wide.

(** The name [İb], of two code units, and a title with it. *)
Definition name_Ib : Wide.text := [304%N; 98%N].

Definition title_Ib : Wide.text :=
  Wide.of_string "2023 Bowman Chrome " ++ name_Ib ++ Wide.of_string " Auto".

(* ====================================================================== *)
(** ** More listings and runs used as examples *)
(* ====================================================================== *)

(** A fetch whose second listing has a price that does not parse
    ([parseFloat] gives NaN). *)
Definition one_price_unparsed : list ParsedSale :=
  [ priced 1 40; priced 2 nan ].


(** The /499 refractor with its title in capitals. *)
Definition numbered_refractor_capitals : ParsedSale :=
  listing "2023 BOWMAN CHROME PLAYER Y REFRACTOR AUTO /499"
          "https://www.ebay.com/itm/1001" 80 "2025-01-05T00:00:00.000Z".

(** A refresh of two players in which the second turn comes late. *)
Definition late_after_one (i : nat) : Z :=
  match i with
  | O => 1500
  | S _ => 271000
  end.

Definition plain_refresh :=
  CronRoute.refresh PlainURL.parse row_id row_clock 0
                    (fun _ => Returned scenario_B) late_after_one
                    (fun _ => 1738393200000%Z) row_clock row_clock [].

(** Two listings whose prices are the two infinities: their sum is no
    number. *)
Definition infinite_prices : list ParsedSale :=
  [ priced 1 infinity; priced 2 neg_infinity ].

(** A refresh, in time, in which every player gets the same fetch. *)
Definition refresh_of (rawSales : list ParsedSale) :=
  CronRoute.refresh PlainURL.parse row_id row_clock 0
                    (fun _ => Returned rawSales) (fun _ => 1500%Z)
                    (fun _ => 1738393200000%Z) row_clock row_clock [].

(* ====================================================================== *)
(** ** Statements about the classifier *)
(* ====================================================================== *)

(* ---------------------------------------------------------------------- *)
(** *** The flags through the checks *)

Lemma settled_initial : settled initial.
Proof. left; repeat split. Qed.

Lemma settled_exclude st reason : settled st -> settled (exclude st reason).
Proof.
  intros [(_ & Hr & _) | (_ & Hr & _)]; right; unfold exclude; simpl;
    (repeat split; [assumption | eauto]).
Qed.

Lemma settled_graded lt st : settled st -> settled (check_graded lt st).
Proof.
  intros H; unfold check_graded.
  destruct (first_included lt GRADED_INDICATORS); auto using settled_exclude.
Qed.

Lemma settled_lot_text lt st : settled st -> settled (check_lot_text lt st).
Proof.
  intros H; unfold check_lot_text.
  destruct (f_base st); auto.
  destruct (first_included lt LOT_INDICATORS); auto using settled_exclude.
Qed.

Lemma settled_lot_quantity t st :
  settled st -> settled (check_lot_quantity t st).
Proof.
  intros H; unfold check_lot_quantity.
  destruct (f_base st); auto.
  destruct (first_match _ LOT_QUANTITY_PATTERNS); auto using settled_exclude.
Qed.

Lemma settled_product lt st : settled st -> settled (check_product lt st).
Proof.
  intros H; unfold check_product.
  destruct (f_base st); auto.
  destruct (first_included lt EXCLUDED_PRODUCTS); auto using settled_exclude.
Qed.

Lemma settled_ip lt st : settled st -> settled (check_ip lt st).
Proof.
  intros H; unfold check_ip.
  destruct (f_base st); auto.
  destruct (first_included lt IP_AUTOGRAPH_INDICATORS); auto.
  right; simpl; eauto.
Qed.

(** A check leaves a listing alone once it is not base. *)
Lemma skip_lot_text lt st : f_base st = false -> check_lot_text lt st = st.
Proof. intros H; unfold check_lot_text; now rewrite H. Qed.

Lemma skip_lot_quantity t st :
  f_base st = false -> check_lot_quantity t st = st.
Proof. intros H; unfold check_lot_quantity; now rewrite H. Qed.

Lemma skip_product lt st : f_base st = false -> check_product lt st = st.
Proof. intros H; unfold check_product; now rewrite H. Qed.

Lemma skip_ip lt st : f_base st = false -> check_ip lt st = st.
Proof. intros H; unfold check_ip; now rewrite H. Qed.

Lemma skip_serial t lt st : f_base st = false -> check_serial t lt st = st.
Proof. intros H; unfold check_serial; now rewrite H. Qed.

Lemma skip_color lt st : f_base st = false -> check_color lt st = st.
Proof. intros H; unfold check_color; now rewrite H. Qed.

Create HintDb classify.

#[local] Hint Resolve settled_initial settled_graded settled_lot_text
  settled_lot_quantity settled_product settled_ip : classify.

Lemma classify_flags_eq t :
  classify_flags t =
  check_color (JS.toLowerCase t)
    (check_serial t (JS.toLowerCase t) (before_serial t)).
Proof. reflexivity. Qed.

Lemma settled_before_serial t : settled (before_serial t).
Proof. unfold before_serial; auto 10 with classify. Qed.

Lemma first_included_some lt l :
  (exists x, In x l /\ JS.includes lt x = true) ->
  exists y, first_included lt l = Some y /\ In y l /\ JS.includes lt y = true.
Proof.
  intros (x & Hin & Hx); unfold first_included.
  destruct (find (fun x0 => JS.includes lt x0) l) as [y|] eqn:E.
  - exists y; split; [reflexivity|]. apply find_some in E. exact E.
  - exfalso. apply (find_none _ _ E) in Hin. simpl in Hin. congruence.
Qed.

(** The final flags are of one of the three classes. *)
Lemma classify_flags_classes t :
  let st := classify_flags t in
  (f_base st = true /\ f_refractor st = false /\ f_reason st = None)
  \/ (f_base st = false /\ f_refractor st = true /\
      (f_reason st = Some "Numbered parallel"
       \/ f_reason st = Some "Parallel: refractor"))
  \/ (f_base st = false /\ f_refractor st = false /\
      exists r, f_reason st = Some r).
Proof.
  cbv zeta. rewrite classify_flags_eq.
  generalize (settled_before_serial t).
  generalize (before_serial t) as st. intros st Hst.
  destruct Hst as [(Hb & Hr & Ho) | (Hb & Hr & Ho)].
  2:{ rewrite (skip_serial _ _ _ Hb), (skip_color _ _ Hb). auto. }
  unfold check_serial. rewrite Hb. simpl andb.
  destruct (Regex.test SERIAL_PATTERN t).
  - rewrite skip_color by reflexivity. simpl. rewrite Hr.
    destruct (JS.includes (JS.toLowerCase t) "/499"
              && JS.includes (JS.toLowerCase t) "refractor").
    + right; left; auto.
    + right; right; eauto.
  - unfold check_color. rewrite Hb.
    destruct (first_included (JS.toLowerCase t) PARALLEL_COLORS) as [color|].
    2:{ left; auto. }
    simpl. rewrite Hr.
    destruct (String.eqb color "refractor") eqn:E; simpl.
    + apply String.eqb_eq in E; subst color.
      destruct (JS.includes (JS.toLowerCase t) "/499").
      * right; left; auto.
      * right; right; eauto.
    + right; right; eauto.
Qed.

(** C1 (as amended): every listing is classified into exactly one of base,
    fallback and excluded.  A base listing carries no exclusion reason;
    every other listing carries one, the fallback listing included (the
    reason why it is not base: "Numbered parallel" or
    "Parallel: refractor"). *)
Theorem classification_exactly_one (sale : ParsedSale) :
  (admissible_base (categorizeListingSale sale)
   \/ admissible_fallback (categorizeListingSale sale)
   \/ excluded (categorizeListingSale sale))
  /\ ~ (admissible_base (categorizeListingSale sale)
        /\ admissible_fallback (categorizeListingSale sale))
  /\ ~ (admissible_base (categorizeListingSale sale)
        /\ excluded (categorizeListingSale sale))
  /\ ~ (admissible_fallback (categorizeListingSale sale)
        /\ excluded (categorizeListingSale sale))
  /\ parsed (categorizeListingSale sale) = sale.
Proof.
  unfold admissible_base, admissible_fallback, excluded,
    categorizeListingSale; simpl.
  repeat split.
  - exact (classify_flags_classes (title sale)).
  - intros [(H & _) (H' & _)]; congruence.
  - intros [(H & _) (H' & _)]; congruence.
  - intros [(_ & H & _) (_ & H' & _)]; congruence.
Qed.

(** C1 (as stated) fails: the /499 refractor is admissible as the fallback
    variant and carries an exclusion reason at once. *)
Lemma fallback_carries_exclusion_reason :
  isRefractor (categorizeListingSale numbered_refractor) = true
  /\ isBaseAuto (categorizeListingSale numbered_refractor) = false
  /\ exclusionReason (categorizeListingSale numbered_refractor)
     = Some "Numbered parallel".
Proof. vm_compute. repeat split. Qed.

(** C8: a listing whose title shows an in-person or aftermarket autograph
    is excluded, and never marked as the fallback variant, whatever else
    the title contains. *)
Theorem ip_autograph_never_fallback (sale : ParsedSale) :
  indicated IP_AUTOGRAPH_INDICATORS (title sale) ->
  isRefractor (categorizeListingSale sale) = false
  /\ isBaseAuto (categorizeListingSale sale) = false
  /\ exists reason, exclusionReason (categorizeListingSale sale) = Some reason.
Proof.
  intros Hip. unfold categorizeListingSale; simpl.
  rewrite classify_flags_eq.
  assert (Hs : settled (before_serial (title sale)))
    by apply settled_before_serial.
  assert (Hb : f_base (before_serial (title sale)) = false).
  { unfold before_serial; cbv zeta.
    set (lt := JS.toLowerCase (title sale)) in *.
    set (st := check_product lt _).
    unfold check_ip. destruct (f_base st) eqn:E; [|exact E].
    destruct (first_included_some lt _ Hip) as (y & -> & _). reflexivity. }
  rewrite (skip_serial _ _ _ Hb), (skip_color _ _ Hb).
  destruct Hs as [(H & _) | (_ & Hr & Ho)]; [congruence | auto].
Qed.

(** At the /499 refractor signed in person: it matches the fallback
    signature and is not marked as the fallback variant. *)
Lemma ip_autograph_never_fallback_witness :
  indicated IP_AUTOGRAPH_INDICATORS (title in_person_refractor)
  /\ JS.includes (JS.toLowerCase (title in_person_refractor)) "/499" = true
  /\ JS.includes (JS.toLowerCase (title in_person_refractor)) "refractor" = true
  /\ isRefractor (categorizeListingSale in_person_refractor) = false.
Proof.
  assert (H : indicated IP_AUTOGRAPH_INDICATORS (title in_person_refractor)).
  { exists "in person". split; [simpl; tauto | reflexivity]. }
  split; [exact H|]. split; [reflexivity|]. split; [reflexivity|].
  exact (proj1 (ip_autograph_never_fallback in_person_refractor H)).
Defined.

(** C9: a title with both a grading token and a lot indicator is excluded
    with the graded reason (that of the first grading token of the table
    found in the title), not with a lot reason. *)
Theorem graded_reason_precedes_lot (sale : ParsedSale) :
  indicated GRADED_INDICATORS (title sale) ->
  lot_indicated (title sale) ->
  (exists graded,
     In graded GRADED_INDICATORS
     /\ JS.includes (JS.toLowerCase (title sale)) graded = true
     /\ exclusionReason (categorizeListingSale sale)
        = Some ("Graded card: " ++ graded)%string)
  /\ (forall lot, exclusionReason (categorizeListingSale sale)
                  <> Some ("Lot/bundle: " ++ lot)%string)
  /\ (forall q, exclusionReason (categorizeListingSale sale)
                <> Some ("Lot quantity: " ++ q)%string)
  /\ isBaseAuto (categorizeListingSale sale) = false
  /\ isRefractor (categorizeListingSale sale) = false.
Proof.
  intros Hg _. unfold categorizeListingSale; simpl.
  destruct (first_included_some _ _ Hg) as (g & Hfind & Hin & Hinc).
  assert (E : classify_flags (title sale)
              = exclude initial ("Graded card: " ++ g)).
  { rewrite classify_flags_eq. unfold before_serial; cbv zeta.
    unfold check_graded. rewrite Hfind.
    rewrite skip_lot_text, skip_lot_quantity, skip_product, skip_ip,
      skip_serial, skip_color; reflexivity. }
  rewrite E; simpl.
  split; [exists g; auto|].
  repeat split; intros; discriminate.
Qed.

(** At the graded lot. *)
Lemma graded_reason_precedes_lot_witness :
  indicated GRADED_INDICATORS (title graded_lot)
  /\ lot_indicated (title graded_lot)
  /\ (exists graded,
        In graded GRADED_INDICATORS
        /\ JS.includes (JS.toLowerCase (title graded_lot)) graded = true
        /\ exclusionReason (categorizeListingSale graded_lot)
           = Some ("Graded card: " ++ graded)%string)
  /\ (forall lot, exclusionReason (categorizeListingSale graded_lot)
                  <> Some ("Lot/bundle: " ++ lot)%string).
Proof.
  assert (Hg : indicated GRADED_INDICATORS (title graded_lot)).
  { exists "psa". split; [simpl; tauto | reflexivity]. }
  assert (Hl : lot_indicated (title graded_lot)).
  { left. exists "lot". split; [simpl; tauto | reflexivity]. }
  split; [exact Hg|]. split; [exact Hl|].
  split; apply (graded_reason_precedes_lot graded_lot Hg Hl).
Defined.

(** The reason recorded for the graded lot. *)
Example graded_lot_reason :
  exclusionReason (categorizeListingSale graded_lot) = Some "Graded card: psa".
Proof. reflexivity. Qed.

(* ====================================================================== *)
(** ** Sorting *)
(* ====================================================================== *)

Section SortFacts.

Context {A : Type} (after : A -> A -> bool).

Lemma insert_perm (x : A) (l : list A) :
  Permutation (x :: l) (Arr.insert after x l).
Proof.
  induction l as [|y l IH]; simpl; [reflexivity|].
  destruct (after x y); [|reflexivity].
  rewrite perm_swap. now constructor.
Qed.

Lemma sort_perm (l : list A) : Permutation l (Arr.sort after l).
Proof.
  induction l as [|x l IH]; simpl; [constructor|].
  rewrite <- insert_perm. now constructor.
Qed.

Hypothesis after_asym : forall a b, after a b = true -> after b a = false.
Hypothesis precedes_trans : forall a b c,
    precedes after a b -> precedes after b c -> precedes after a c.

Lemma insert_sorted (x : A) (l : list A) :
  StronglySorted (precedes after) l ->
  StronglySorted (precedes after) (Arr.insert after x l).
Proof.
  induction 1 as [|y l Hs IH Hy]; simpl.
  - repeat constructor.
  - destruct (after x y) eqn:E.
    + constructor; [exact IH|].
      rewrite <- insert_perm. constructor; [now apply after_asym | exact Hy].
    + constructor; [now constructor|].
      constructor; [exact E|].
      rewrite Forall_forall in *. intros z Hz.
      apply precedes_trans with y; [exact E | now apply Hy].
Qed.

Lemma sort_sorted (l : list A) :
  StronglySorted (precedes after) (Arr.sort after l).
Proof.
  induction l as [|x l IH]; simpl; [constructor | now apply insert_sorted].
Qed.

End SortFacts.

Lemma sorted_app_precedes {A : Type} (R : A -> A -> Prop) (l1 l2 : list A) :
  StronglySorted R (l1 ++ l2) ->
  forall a b, In a l1 -> In b l2 -> R a b.
Proof.
  induction l1 as [|x l1 IH]; simpl; intros Hs a b Ha Hb; [contradiction|].
  inversion Hs as [|? ? Hs' Hall]; subst.
  destruct Ha as [<- | Ha].
  - rewrite Forall_forall in Hall. apply Hall, in_or_app. now right.
  - now apply IH.
Qed.

Lemma sorted_app_left {A : Type} (R : A -> A -> Prop) (l1 l2 : list A) :
  StronglySorted R (l1 ++ l2) -> StronglySorted R l1.
Proof.
  induction l1 as [|x l1 IH]; simpl; intros Hs; [constructor|].
  inversion Hs as [|? ? Hs' Hall]; subst.
  constructor; [now apply IH|].
  apply Forall_app in Hall. tauto.
Qed.

Lemma sort_ascending_head (l : list Z) :
  l <> [] ->
  exists y, hd_error (Arr.sort ascending l) = Some y
            /\ In y l /\ forall y', In y' l -> (y <= y')%Z.
Proof.
  intros Hne.
  assert (Hp := sort_perm ascending l).
  assert (Hs : StronglySorted (precedes ascending) (Arr.sort ascending l)).
  { apply sort_sorted; unfold precedes, ascending; intros; lia. }
  destruct (Arr.sort ascending l) as [|y s] eqn:E.
  - apply Permutation_sym, Permutation_nil in Hp. contradiction.
  - exists y. split; [reflexivity|]. split.
    + eapply Permutation_in; [apply Permutation_sym, Hp | now left].
    + intros y' Hy'. eapply Permutation_in in Hy'; [|exact Hp].
      inversion Hs as [|? ? _ Hall]; subst.
      destruct Hy' as [<- | Hy']; [lia|].
      rewrite Forall_forall in Hall. specialize (Hall _ Hy').
      unfold precedes, ascending in Hall. lia.
Qed.

(* ====================================================================== *)
(** ** Year inference *)
(* ====================================================================== *)

Lemma keys_set (m : Arr.NumMap) (k v k' : Z) :
  In k' (Arr.keys (Arr.set m k v)) <-> k' = k \/ In k' (Arr.keys m).
Proof.
  unfold Arr.keys. induction m as [|[k0 v0] m IH]; simpl.
  - intuition.
  - destruct (Z.eqb_spec k0 k); simpl.
    + subst. intuition.
    + rewrite IH. intuition.
Qed.

Lemma tally_keys (pick : FilteredSale -> bool) (sales : list FilteredSale) :
  (forall s, In s sales -> releaseYear (parsed s) <> Some 0%Z) ->
  forall (m : Arr.NumMap) (y : Z),
    In y (Arr.keys (tally pick sales m))
    <-> In y (Arr.keys m) \/ In y (years_of pick sales).
Proof.
  unfold tally.
  induction sales as [|s sales IH]; intros Hnz m y; simpl.
  - intuition.
  - rewrite IH by (intros; apply Hnz; now right).
    rewrite in_app_iff.
    assert (Hs := Hnz s (or_introl eq_refl)).
    destruct (releaseYear (parsed s)) as [v|]; simpl.
    + destruct (Z.eqb_spec v 0); [congruence|].
      destruct (pick s); simpl; [rewrite keys_set|]; intuition.
    + intuition.
Qed.

Lemma no_keys (m : Arr.NumMap) : Arr.keys m = [] -> m = [].
Proof. destruct m; [reflexivity | discriminate]. Qed.

Lemma tally_empty (pick : FilteredSale -> bool) (sales : list FilteredSale) :
  (forall s, In s sales -> releaseYear (parsed s) <> Some 0%Z) ->
  (tally pick sales [] = [] <-> years_of pick sales = []).
Proof.
  intros Hnz. assert (H := tally_keys pick sales Hnz []).
  split; intros E.
  - destruct (years_of pick sales) as [|y l]; [reflexivity|].
    specialize (H y). rewrite E in H. simpl in H. exfalso. apply H. auto.
  - apply no_keys. destruct (Arr.keys _) as [|y l]; [reflexivity|].
    specialize (H y). rewrite E in H. simpl in H. exfalso. intuition.
Qed.

Lemma earliest_of_tally (pick : FilteredSale -> bool)
      (sales : list FilteredSale) :
  (forall s, In s sales -> releaseYear (parsed s) <> Some 0%Z) ->
  years_of pick sales <> [] ->
  exists y,
    hd_error (Arr.sort (fun a b => (0 <? a - b)%Z)
                       (Arr.keys (tally pick sales [])))
    = Some y
    /\ earliest y (years_of pick sales).
Proof.
  intros Hnz Hne.
  assert (Hk : Arr.keys (tally pick sales []) <> []).
  { intros E. apply no_keys in E. now apply tally_empty in E. }
  destruct (sort_ascending_head _ Hk) as (y & Hhd & Hin & Hmin).
  exists y. split; [exact Hhd|].
  assert (H := tally_keys pick sales Hnz []).
  split.
  - apply H in Hin. simpl in Hin. tauto.
  - intros y' Hy'. apply Hmin, H. now right.
Qed.

(** C5: year inference returns the earliest year seen on a base-variant
    listing when there is one, otherwise the earliest year seen on a
    fallback-variant listing, and null when neither kind shows a year; how
    often a year occurs plays no part.  (Years are as [extractYear] gives
    them: never 0.) *)
Theorem determineFirstBowmanYear_earliest (sales : list FilteredSale) :
  (forall s, In s sales -> releaseYear (parsed s) <> Some 0%Z) ->
  (years_of isBaseAuto sales <> [] ->
   exists y, determineFirstBowmanYear sales = Some y
             /\ earliest y (years_of isBaseAuto sales))
  /\ (years_of isBaseAuto sales = [] ->
      years_of isRefractor sales <> [] ->
      exists y, determineFirstBowmanYear sales = Some y
                /\ earliest y (years_of isRefractor sales))
  /\ (years_of isBaseAuto sales = [] ->
      years_of isRefractor sales = [] ->
      determineFirstBowmanYear sales = None).
Proof.
  intros Hnz. unfold determineFirstBowmanYear. repeat split.
  - intros Hne.
    destruct (earliest_of_tally isBaseAuto sales Hnz Hne) as (y & Hhd & He).
    exists y. split; [|exact He].
    destruct (tally isBaseAuto sales []) eqn:E; [|exact Hhd].
    apply tally_empty in E; [contradiction | exact Hnz].
  - intros Hb Hne. apply (tally_empty _ _ Hnz) in Hb. rewrite Hb.
    destruct (earliest_of_tally isRefractor sales Hnz Hne) as (y & Hhd & He).
    exists y. split; [|exact He].
    destruct (tally isRefractor sales []) eqn:E; [|exact Hhd].
    apply tally_empty in E; [contradiction | exact Hnz].
  - intros Hb Hr. apply (tally_empty _ _ Hnz) in Hb, Hr. now rewrite Hb, Hr.
Qed.

(** At the base years 2023, 2022, 2023, 2024: the earliest, 2022, and not
    the most frequent. *)
Lemma determineFirstBowmanYear_earliest_witness :
  determineFirstBowmanYear three_years = Some 2022%Z.
Proof.
  assert (Hnz : forall s, In s three_years ->
                          releaseYear (parsed s) <> Some 0%Z).
  { intros s Hs. simpl in Hs.
    repeat (destruct Hs as [<- | Hs]; [vm_compute; discriminate|]).
    contradiction. }
  destruct (determineFirstBowmanYear_earliest three_years Hnz) as (H & _).
  destruct H as (y & Hy & Hin & Hmin); [vm_compute; discriminate|].
  rewrite Hy. f_equal.
  assert (H22 : (y <= 2022)%Z) by (apply Hmin; vm_compute; tauto).
  vm_compute in Hin.
  destruct Hin as [<- | [<- | [<- | [<- | []]]]]; lia || reflexivity.
Defined.

(* ====================================================================== *)
(** ** Persistence *)
(* ====================================================================== *)

Section PersistenceFacts.

Variable URL_parse : string -> option URL.
Variable uuidv4 : nat -> string.
Variable clock : nat -> Date.

Local Abbreviation normalize := (normalizeEbayUrl URL_parse).
Local Abbreviation insertSale' := (insertSale URL_parse uuidv4 clock).
Local Abbreviation storeSales' := (storeSales URL_parse uuidv4 clock).
Local Abbreviation store_from' := (store_from URL_parse uuidv4 clock).
Local Abbreviation row_to_insert' := (row_to_insert URL_parse uuidv4 clock).

Lemma saleExists_iff (db : list Row) (u : string) :
  saleExists URL_parse db u = true
  <-> exists row, In row db /\ url_matches (normalize u) row.
Proof.
  unfold saleExists, url_matches. rewrite existsb_exists.
  split; intros (row & Hin & H); exists row; split; auto.
  - apply orb_true_iff in H. rewrite String.eqb_eq in H. exact H.
  - apply orb_true_iff. rewrite String.eqb_eq. exact H.
Qed.

Lemma saleExists_app (db new : list Row) (u : string) :
  saleExists URL_parse db u = true ->
  saleExists URL_parse (db ++ new) u = true.
Proof.
  unfold saleExists. rewrite existsb_app. intros ->. reflexivity.
Qed.

Lemma insertSale_duplicate (db : list Row) name sale ct :
  saleExists URL_parse db (normalize (ebayUrl (parsed sale))) = true ->
  insertSale' db name sale ct = (db, Return false).
Proof. unfold insertSale. intros ->. reflexivity. Qed.

Lemma insertSale_new (db : list Row) name sale ct :
  saleExists URL_parse db (normalize (ebayUrl (parsed sale))) = false ->
  constraint_failed db (row_to_insert' db name sale ct) = None ->
  insertSale' db name sale ct
  = (db ++ [row_to_insert' db name sale ct], Return true).
Proof. unfold insertSale. intros -> ->. reflexivity. Qed.

Lemma insertSale_refused (db : list Row) name sale ct msg :
  saleExists URL_parse db (normalize (ebayUrl (parsed sale))) = false ->
  constraint_failed db (row_to_insert' db name sale ct) = Some msg ->
  insertSale' db name sale ct = (db, Throw msg).
Proof. unfold insertSale. intros -> ->. reflexivity. Qed.

(** A row that the table accepts: its price is a number and its URL and
    its id are new to the table. *)
Lemma constraint_passed (db : list Row) (row : Row) :
  constraint_failed db row = None ->
  Num.isNaN (sale_price row) = false
  /\ ~ In (ebay_url row) (map ebay_url db)
  /\ ~ In (id row) (map id db).
Proof.
  unfold constraint_failed.
  destruct (Num.isNaN (sale_price row)); [discriminate|].
  destruct (existsb (fun r => String.eqb (ebay_url r) (ebay_url row)) db)
    eqn:Eu; [discriminate|].
  destruct (existsb (fun r => String.eqb (id r) (id row)) db)
    eqn:Ei; [discriminate|].
  intros _. split; [reflexivity|].
  split; intros Hin; apply in_map_iff in Hin; destruct Hin as (r & Hr & Hin).
  - assert (X : existsb (fun r => String.eqb (ebay_url r) (ebay_url row)) db
                = true).
    { apply existsb_exists. exists r. split; [exact Hin|].
      now apply String.eqb_eq. }
    congruence.
  - assert (X : existsb (fun r => String.eqb (id r) (id row)) db = true).
    { apply existsb_exists. exists r. split; [exact Hin|].
      now apply String.eqb_eq. }
    congruence.
Qed.

(** The outcomes of [insertSale]: a duplicate, a refused INSERT, or one row
    more. *)
Lemma insertSale_cases (db : list Row) name sale ct :
  (saleExists URL_parse db (normalize (ebayUrl (parsed sale))) = true
   /\ insertSale' db name sale ct = (db, Return false))
  \/ (saleExists URL_parse db (normalize (ebayUrl (parsed sale))) = false
      /\ exists msg,
          constraint_failed db (row_to_insert' db name sale ct) = Some msg
          /\ insertSale' db name sale ct = (db, Throw msg))
  \/ (saleExists URL_parse db (normalize (ebayUrl (parsed sale))) = false
      /\ constraint_failed db (row_to_insert' db name sale ct) = None
      /\ insertSale' db name sale ct
         = (db ++ [row_to_insert' db name sale ct], Return true)).
Proof.
  destruct (saleExists URL_parse db (normalize (ebayUrl (parsed sale))))
    eqn:E.
  - left. split; [reflexivity | now apply insertSale_duplicate].
  - right.
    destruct (constraint_failed db (row_to_insert' db name sale ct))
      as [msg|] eqn:C.
    + left. split; [reflexivity|]. exists msg.
      split; [reflexivity | now apply insertSale_refused].
    + right. split; [reflexivity|]. split; [reflexivity|].
      now apply insertSale_new.
Qed.

(* ---------------------------------------------------------------------- *)
(** *** The insertion loop *)

Lemma stored_from_tail name ct s (l : list FilteredSale) row :
  stored_from URL_parse name ct l row ->
  stored_from URL_parse name ct (s :: l) row.
Proof. intros (s' & Hin & H). exists s'. split; [now right | exact H]. Qed.

Lemma stored_from_head (db : list Row) name ct s (l : list FilteredSale) :
  constraint_failed db (row_to_insert' db name s ct) = None ->
  stored_from URL_parse name ct (s :: l) (row_to_insert' db name s ct).
Proof.
  intros C. apply constraint_passed in C. destruct C as (Hnan & _).
  exists s. split; [now left|]. repeat split. exact Hnan.
Qed.

(** What a pass of the loop leaves.  The table grew at its end by rows
    written from sales of the pass, and stored URLs stay distinct.  When
    the pass comes to its end every sale was counted once, as many as
    there are new rows as inserted, and every stable URL of the pass is
    now found by the duplicate check. *)
Lemma store_from_spec name ct (l : list FilteredSale) :
  forall db i d db' c,
    store_from' name ct l db i d = (db', c) ->
    exists new,
      db' = db ++ new
      /\ Forall (stored_from URL_parse name ct l) new
      /\ (NoDup (map ebay_url db) -> NoDup (map ebay_url db'))
      /\ match c with
         | Return (i', d') =>
             i' = i + List.length new
             /\ i' + d' = i + d + List.length l
             /\ (Forall (fun s => stable_url URL_parse (ebayUrl (parsed s))) l ->
                 Forall (fun s => saleExists URL_parse db'
                                    (normalize (ebayUrl (parsed s))) = true) l)
         | Throw _ => List.length new < List.length l
         end.
Proof.
  induction l as [|s l IH]; intros db i d db' c H.
  - simpl in H. injection H as <- <-. exists []. rewrite app_nil_r.
    split; [reflexivity|]. split; [constructor|]. split; [auto|].
    simpl. repeat split; auto; lia.
  - cbn [store_from] in H.
    destruct (insertSale_cases db name s ct)
      as [(E & Hins) | [(E & msg & C & Hins) | (E & C & Hins)]];
      rewrite Hins in H.
    + apply IH in H. destruct H as (new & -> & Hrows & Hnd & Hc).
      exists new. split; [reflexivity|].
      split; [eapply Forall_impl; [|exact Hrows];
              intros row; apply stored_from_tail|].
      split; [exact Hnd|].
      destruct c as [[i' d']|m].
      * destruct Hc as (Hi & Hsum & Hall).
        split; [exact Hi|]. split; [simpl; lia|].
        intros Hst. inversion Hst as [|? ? Hs Hl]; subst.
        constructor; [now apply saleExists_app | now apply Hall].
      * simpl. lia.
    + injection H as <- <-. exists []. rewrite app_nil_r.
      split; [reflexivity|]. split; [constructor|]. split; [auto|].
      simpl. lia.
    + apply IH in H. destruct H as (new & Hdb' & Hrows & Hnd & Hc).
      exists (row_to_insert' db name s ct :: new).
      split; [rewrite Hdb', <- app_assoc; reflexivity|].
      split.
      { constructor; [now apply stored_from_head|].
        eapply Forall_impl; [|exact Hrows].
        intros row; apply stored_from_tail. }
      split.
      { intros Hdb. apply Hnd.
        rewrite map_app. simpl.
        apply (Permutation_NoDup (Permutation_cons_append _ _)).
        constructor; [|exact Hdb].
        apply constraint_passed in C. tauto. }
      destruct c as [[i' d']|m].
      * destruct Hc as (Hi & Hsum & Hall).
        split; [simpl; lia|]. split; [simpl; lia|].
        intros Hst. inversion Hst as [|? ? Hs Hl]; subst.
        constructor; [|now apply Hall].
        apply saleExists_app, saleExists_iff.
        exists (row_to_insert' db name s ct).
        split; [apply in_or_app; right; now left|].
        left. simpl. symmetry. exact Hs.
      * simpl. lia.
Qed.


Lemma storeSales_spec name ct (l : list FilteredSale) db db' c :
  storeSales' db name ct l = (db', c) ->
  exists new,
    db' = db ++ new
    /\ Forall (stored_from URL_parse name ct l) new
    /\ (NoDup (map ebay_url db) -> NoDup (map ebay_url db'))
    /\ match c with
       | Return (i, d) =>
           i = List.length new
           /\ i + d = List.length l
           /\ (Forall (fun s => stable_url URL_parse (ebayUrl (parsed s))) l ->
               Forall (fun s => saleExists URL_parse db'
                                  (normalize (ebayUrl (parsed s))) = true) l)
       | Throw _ => List.length new < List.length l
       end.
Proof.
  unfold storeSales. intros H. apply store_from_spec in H.
  destruct H as (new & Hdb & Hrows & Hnd & Hc).
  exists new. repeat (split; [assumption|]).
  destruct c as [[i d]|m]; [|exact Hc]. simpl in Hc. exact Hc.
Qed.


End PersistenceFacts.

(* ====================================================================== *)
(** ** Strings: lower case, trimming and splitting *)
(* ====================================================================== *)

Ltac each_char c := destruct c as [[] [] [] [] [] [] [] []]; reflexivity.

Lemma lower_char_idem c : JS.lower_char (JS.lower_char c) = JS.lower_char c.
Proof. each_char c. Qed.

Lemma is_space_lower c : JS.is_space (JS.lower_char c) = JS.is_space c.
Proof. each_char c. Qed.

Lemma name_separator_lower c :
  name_separator (JS.lower_char c) = name_separator c.
Proof. each_char c. Qed.

Lemma toLowerCase_idem s : JS.toLowerCase (JS.toLowerCase s) = JS.toLowerCase s.
Proof.
  induction s as [|c s IH]; simpl; [reflexivity|].
  now rewrite lower_char_idem, IH.
Qed.

Lemma toLowerCase_length s : String.length (JS.toLowerCase s) = String.length s.
Proof. induction s as [|c s IH]; simpl; [reflexivity | now rewrite IH]. Qed.

Lemma toLowerCase_app a b :
  JS.toLowerCase (a ++ b) = (JS.toLowerCase a ++ JS.toLowerCase b)%string.
Proof. induction a as [|c a IH]; simpl; [reflexivity | now rewrite IH]. Qed.

Lemma toLowerCase_trimStart s :
  JS.toLowerCase (JS.trimStart s) = JS.trimStart (JS.toLowerCase s).
Proof.
  induction s as [|c s IH]; simpl; [reflexivity|].
  rewrite is_space_lower. destruct (JS.is_space c); [exact IH | reflexivity].
Qed.

Lemma toLowerCase_trimEnd s :
  JS.toLowerCase (JS.trimEnd s) = JS.trimEnd (JS.toLowerCase s).
Proof.
  induction s as [|c s IH]; simpl; [reflexivity|].
  rewrite <- IH, is_space_lower.
  destruct (JS.trimEnd s); simpl; [destruct (JS.is_space c)|]; reflexivity.
Qed.

Lemma trimEnd_idem s : JS.trimEnd (JS.trimEnd s) = JS.trimEnd s.
Proof.
  induction s as [|c s IH]; simpl; [reflexivity|].
  destruct (JS.trimEnd s) as [|a t] eqn:E.
  - destruct (JS.is_space c) eqn:Ec; simpl; [reflexivity | now rewrite Ec].
  - change (JS.trimEnd (String c (String a t)))
      with (match JS.trimEnd (String a t) with
            | EmptyString =>
                if JS.is_space c then EmptyString else String c EmptyString
            | u => String c u
            end).
    now rewrite IH.
Qed.

Lemma trimStart_head s :
  match JS.trimStart s with
  | EmptyString => True
  | String c _ => JS.is_space c = false
  end.
Proof.
  induction s as [|c s IH]; simpl; [exact I|].
  destruct (JS.is_space c) eqn:E; [exact IH | exact E].
Qed.

Lemma trimStart_trim s : JS.trimStart (JS.trim s) = JS.trim s.
Proof.
  unfold JS.trim. assert (H := trimStart_head s).
  destruct (JS.trimStart s) as [|c t]; [reflexivity|].
  simpl. destruct (JS.trimEnd t); rewrite ?H; simpl; now rewrite H.
Qed.

Lemma trim_idem s : JS.trim (JS.trim s) = JS.trim s.
Proof.
  unfold JS.trim at 1. rewrite trimStart_trim.
  unfold JS.trim. apply trimEnd_idem.
Qed.

Lemma normalizeName_idem name :
  normalizeName (normalizeName name) = normalizeName name.
Proof.
  unfold normalizeName, JS.trim.
  rewrite toLowerCase_trimEnd, toLowerCase_trimStart, toLowerCase_idem.
  apply trim_idem.
Qed.

Lemma split_runs_lower insep tok s :
  JS.split_runs name_separator insep (JS.toLowerCase tok) (JS.toLowerCase s)
  = map JS.toLowerCase (JS.split_runs name_separator insep tok s).
Proof.
  revert insep tok. induction s as [|c s IH]; intros insep tok; simpl.
  - reflexivity.
  - rewrite name_separator_lower.
    destruct (name_separator c).
    + destruct insep; simpl; [apply (IH true EmptyString)|].
      f_equal. apply (IH true EmptyString).
    + rewrite <- IH. f_equal. now rewrite toLowerCase_app.
Qed.

(** On the code units below U+0100 the pieces of the lower-cased name are
    as long as the pieces of the name: a name whose pieces all have at most
    two characters has no significant part. *)
Lemma nameParts_short name :
  Forall (fun tok => String.length tok <= 2)
         (JS.split_class name_separator name) ->
  nameParts name = [].
Proof.
  unfold nameParts, JS.split_class.
  assert (E := split_runs_lower false EmptyString name).
  change (JS.toLowerCase EmptyString) with EmptyString in E. rewrite E.
  clear E.
  induction 1 as [|tok l Htok Hl IH]; simpl; [reflexivity|].
  rewrite toLowerCase_length.
  destruct (Nat.ltb_spec 2 (String.length tok)); [lia | exact IH].
Qed.

(** A name whose lower case has no piece of more than two code units has
    no significant part. *)
Lemma nameParts_none name :
  Forall (fun tok => String.length tok <= 2)
         (JS.split_class name_separator (JS.toLowerCase name)) ->
  nameParts name = [].
Proof.
  unfold nameParts.
  induction 1 as [|tok l Htok Hl IH]; simpl; [reflexivity|].
  destruct (Nat.ltb_spec 2 (String.length tok)); [lia | exact IH].
Qed.

(** Whatever [toLowerCase] does: a name whose lower case has no piece of
    more than two code units matches no title. *)
Lemma wide_short_name (lower : Wide.text -> Wide.text) (t name : Wide.text) :
  Forall (fun tok => List.length tok <= 2)
         (Wide.split_class Wide.name_separator (lower name)) ->
  Wide.titleContainsPlayerName lower t name = false.
Proof.
  intros H. unfold Wide.titleContainsPlayerName.
  assert (E : Wide.nameParts lower name = []).
  { unfold Wide.nameParts.
    induction H as [|tok l Htok Hl IH]; simpl; [reflexivity|].
    destruct (Nat.ltb_spec 2 (List.length tok)); [lia | exact IH]. }
  rewrite E. reflexivity.
Qed.

(* ====================================================================== *)
(** ** The order of sale dates *)
(* ====================================================================== *)

Lemma ltb_false_leb x y : String.ltb x y = false <-> String.leb y x = true.
Proof.
  unfold String.ltb, String.leb. rewrite (String.compare_antisym y x).
  destruct (String.compare x y); simpl; intuition discriminate.
Qed.

Lemma leb_trans x y z :
  String.leb x y = true -> String.leb y z = true -> String.leb x z = true.
Proof.
  unfold String.leb. intros Hxy Hyz.
  destruct (String.compare x y) eqn:Exy; try discriminate;
    destruct (String.compare y z) eqn:Eyz; try discriminate.
  - apply String.compare_eq_iff in Exy. subst. now rewrite Eyz.
  - apply String.compare_eq_iff in Exy. subst. now rewrite Eyz.
  - apply String.compare_eq_iff in Eyz. subst. now rewrite Exy.
  - apply OrderedTypeEx.String_as_OT.cmp_lt in Exy, Eyz.
    assert (H := OrderedTypeEx.String_as_OT.lt_trans _ _ _ Exy Eyz).
    apply OrderedTypeEx.String_as_OT.cmp_lt in H.
    unfold OrderedTypeEx.String_as_OT.cmp in H. now rewrite H.
Qed.

Lemma sorted_weaken {A : Type} (R R' : A -> A -> Prop) (l : list A) :
  (forall a b, R a b -> R' a b) -> StronglySorted R l -> StronglySorted R' l.
Proof.
  intros HR. induction 1 as [|x l Hs IH Hx]; constructor; [exact IH|].
  eapply Forall_impl; [|exact Hx]. intros b. apply HR.
Qed.

Lemma order_by_desc_sorted (rows : list Row) :
  StronglySorted newer_or_same (Sqlite.order_by_desc sale_date rows).
Proof.
  unfold Sqlite.order_by_desc.
  eapply sorted_weaken;
    [| apply sort_sorted with (after := fun a b =>
                                 String.ltb (sale_date a) (sale_date b)) ].
  - intros a b H. unfold precedes in H. now apply ltb_false_leb in H.
  - intros a b H. apply ltb_false_leb.
    unfold String.ltb in H. unfold String.leb.
    destruct (String.compare (sale_date a) (sale_date b)); discriminate || reflexivity.
  - unfold precedes. intros a b c Hab Hbc.
    apply ltb_false_leb in Hab, Hbc. apply ltb_false_leb.
    eapply leb_trans; eassumption.
Qed.

(* ====================================================================== *)
(** ** The orchestrator *)
(* ====================================================================== *)

Lemma truthy_idem y : JS.truthy (JS.truthy y) = JS.truthy y.
Proof.
  destruct y as [v|]; simpl; [|reflexivity].
  destruct (v =? 0)%Z eqn:E; simpl; [reflexivity | now rewrite E].
Qed.

Lemma selectSales_incl baseAutos refractors firstYear s :
  In s (fst (selectSales baseAutos refractors firstYear)) ->
  In s baseAutos \/ In s refractors.
Proof.
  unfold selectSales.
  destruct (JS.truthy firstYear) as [y|].
  - destruct (0 <? List.length (filter (year_is y) baseAutos))%nat; simpl.
    + intros H. apply filter_In in H. tauto.
    + destruct (0 <? List.length (filter (year_is y) refractors))%nat; simpl.
      * intros H. apply filter_In in H. tauto.
      * contradiction.
  - destruct (0 <? List.length baseAutos)%nat; simpl; [tauto|].
    destruct (0 <? List.length refractors)%nat; simpl; [tauto | contradiction].
Qed.

Lemma selectSales_nothing firstYear :
  fst (selectSales [] [] firstYear) = [].
Proof. unfold selectSales. destruct (JS.truthy firstYear); reflexivity. Qed.

Lemma sel_salesToStore_eq rawSales name targetYear :
  sel_salesToStore (selectForPlayer rawSales name targetYear)
  = fst (selectSales
           (sel_baseAutos (selectForPlayer rawSales name targetYear))
           (sel_refractors (selectForPlayer rawSales name targetYear))
           (sel_firstYear (selectForPlayer rawSales name targetYear))).
Proof.
  unfold selectForPlayer.
  destruct (selectSales _ _ _) as [l ct] eqn:E.
  cbn [sel_salesToStore sel_cardType sel_baseAutos sel_refractors
       sel_firstYear].
  now rewrite E.
Qed.

Lemma sel_baseAutos_eq rawSales name targetYear :
  sel_baseAutos (selectForPlayer rawSales name targetYear)
  = filter isBaseAuto
      (filter (fun s => titleContainsPlayerName (title (parsed s)) name)
              (map categorizeListingSale rawSales)).
Proof.
  unfold selectForPlayer. destruct (selectSales _ _ _). reflexivity.
Qed.

Lemma sel_refractors_eq rawSales name targetYear :
  sel_refractors (selectForPlayer rawSales name targetYear)
  = filter isRefractor
      (filter (fun s => titleContainsPlayerName (title (parsed s)) name)
              (map categorizeListingSale rawSales)).
Proof.
  unfold selectForPlayer. destruct (selectSales _ _ _). reflexivity.
Qed.

Lemma sel_firstYear_eq rawSales name targetYear :
  sel_firstYear (selectForPlayer rawSales name targetYear)
  = match JS.truthy targetYear with
    | Some y => Some y
    | None => determineFirstBowmanYear (map categorizeListingSale rawSales)
    end.
Proof.
  unfold selectForPlayer. destruct (selectSales _ _ _). reflexivity.
Qed.

Lemma nothing_fetched name targetYear :
  sel_salesToStore (selectForPlayer [] name targetYear) = [].
Proof.
  rewrite sel_salesToStore_eq, sel_baseAutos_eq, sel_refractors_eq.
  apply selectSales_nothing.
Qed.

Lemma sel_cardType_eq rawSales name targetYear :
  sel_cardType (selectForPlayer rawSales name targetYear)
  = snd (selectSales
           (sel_baseAutos (selectForPlayer rawSales name targetYear))
           (sel_refractors (selectForPlayer rawSales name targetYear))
           (sel_firstYear (selectForPlayer rawSales name targetYear))).
Proof.
  unfold selectForPlayer.
  destruct (selectSales _ _ _) as [l ct] eqn:E.
  cbn [sel_salesToStore sel_cardType sel_baseAutos sel_refractors
       sel_firstYear].
  now rewrite E.
Qed.

(** Every listing to store is a fetched one, classified, whose title passed
    the name filter. *)
Lemma to_store_fetched rawSales name targetYear s :
  In s (sel_salesToStore (selectForPlayer rawSales name targetYear)) ->
  In (parsed s) rawSales
  /\ s = categorizeListingSale (parsed s)
  /\ titleContainsPlayerName (title (parsed s)) name = true.
Proof.
  rewrite sel_salesToStore_eq. intros H. apply selectSales_incl in H.
  assert (Hm : In s (filter (fun s => titleContainsPlayerName
                                        (title (parsed s)) name)
                            (map categorizeListingSale rawSales))).
  { unfold selectForPlayer in H. destruct (selectSales _ _ _) in H.
    simpl in H. destruct H as [H | H]; apply filter_In in H; tauto. }
  apply filter_In in Hm. destruct Hm as (Hm & Ht).
  apply in_map_iff in Hm. destruct Hm as (p & <- & Hp). auto.
Qed.

Section PipelineFacts.

Variable URL_parse : string -> option URL.
Variable uuidv4 : nat -> string.
Variable clock : nat -> Date.
Variable elapsedMs : Z.

Local Abbreviation run := (scrapeAndStorePlayer URL_parse uuidv4 clock elapsedMs).

Lemma run_nothing_to_store db rawSales name targetYear :
  rawSales <> [] ->
  sel_salesToStore (selectForPlayer rawSales name targetYear) = [] ->
  fst (run db (Returned rawSales) name targetYear) = db
  /\ success (snd (run db (Returned rawSales) name targetYear)) = false
  /\ error_code (snd (run db (Returned rawSales) name targetYear))
     = Some "NO_VALID_SALES"
  /\ salesInserted (snd (run db (Returned rawSales) name targetYear)) = 0
  /\ salesDuplicate (snd (run db (Returned rawSales) name targetYear)) = 0.
Proof.
  intros Hne Hsel. unfold scrapeAndStorePlayer.
  destruct rawSales as [|p raw]; [contradiction|].
  rewrite Hsel. repeat split.
Qed.

(** A run that stores: its table and its result. *)
Lemma run_stores db rawSales name targetYear :
  sel_salesToStore (selectForPlayer rawSales name targetYear) <> [] ->
  forall db' i d,
    storeSales URL_parse uuidv4 clock db name
               (sel_cardType (selectForPlayer rawSales name targetYear))
               (sel_salesToStore (selectForPlayer rawSales name targetYear))
    = (db', Return (i, d)) ->
    let firstYear := sel_firstYear (selectForPlayer rawSales name targetYear) in
    let recent :=
      selectRows db' (normalizeName name) (JS.truthy firstYear)
                 (Some 5%nat) None in
    let r := snd (run db (Returned rawSales) name targetYear) in
    fst (run db (Returned rawSales) name targetYear) = db'
    /\ success r = true
    /\ salesInserted r = i /\ salesDuplicate r = d
    /\ inferredFirstBowmanYear r = firstYear
    /\ sampleSize r = List.length recent
    /\ averagePrice r = m_average (marketStats (map view recent))
    /\ medianPrice r = m_median (marketStats (map view recent))
    /\ lastSalePrice r = m_lastPrice (marketStats (map view recent))
    /\ lastSaleDate r = m_lastDate (marketStats (map view recent)).
Proof.
  intros Hne db' i d Hst. cbv zeta. unfold scrapeAndStorePlayer.
  destruct rawSales as [|p raw].
  { exfalso. apply Hne, nothing_fetched. }
  destruct (sel_salesToStore (selectForPlayer (p :: raw) name targetYear))
    as [|s l] eqn:E; [congruence|].
  rewrite Hst. unfold getPlayerSalesFromDb. cbn [fst snd success salesInserted
    salesDuplicate inferredFirstBowmanYear sampleSize averagePrice medianPrice
    lastSalePrice lastSaleDate].
  rewrite length_map. repeat split.
Qed.

(** A run in which an INSERT throws: the table as the loop left it, and the
    result of the [catch]. *)
Lemma run_throws db rawSales name targetYear :
  sel_salesToStore (selectForPlayer rawSales name targetYear) <> [] ->
  forall db' msg,
    storeSales URL_parse uuidv4 clock db name
               (sel_cardType (selectForPlayer rawSales name targetYear))
               (sel_salesToStore (selectForPlayer rawSales name targetYear))
    = (db', Throw msg) ->
    run db (Returned rawSales) name targetYear
    = (db', failure name 0 0 0 None elapsedMs "SCRAPE_ERROR" msg).
Proof.
  intros Hne db' msg Hst. unfold scrapeAndStorePlayer.
  destruct rawSales as [|p raw].
  { exfalso. apply Hne, nothing_fetched. }
  destruct (sel_salesToStore (selectForPlayer (p :: raw) name targetYear))
    as [|s l] eqn:E; [congruence|].
  rewrite Hst. reflexivity.
Qed.

Lemma run_success_stores db fetched name targetYear :
  success (snd (run db fetched name targetYear)) = true ->
  exists rawSales,
    fetched = Returned rawSales
    /\ sel_salesToStore (selectForPlayer rawSales name targetYear) <> []
    /\ exists db' i d,
        storeSales URL_parse uuidv4 clock db name
                   (sel_cardType (selectForPlayer rawSales name targetYear))
                   (sel_salesToStore (selectForPlayer rawSales name targetYear))
        = (db', Return (i, d)).
Proof.
  destruct fetched as [msg | rawSales]; [discriminate|].
  intros H. exists rawSales. split; [reflexivity|].
  assert (Hne : sel_salesToStore (selectForPlayer rawSales name targetYear)
                <> []).
  { intros E. destruct rawSales as [|p raw]; [discriminate|].
    destruct (run_nothing_to_store db (p :: raw) name targetYear)
      as (_ & H0 & _); [discriminate | exact E | congruence]. }
  split; [exact Hne|].
  destruct (storeSales URL_parse uuidv4 clock db name
              (sel_cardType (selectForPlayer rawSales name targetYear))
              (sel_salesToStore (selectForPlayer rawSales name targetYear)))
    as [db' [[i d]|msg]] eqn:E.
  - exists db', i, d. reflexivity.
  - rewrite (run_throws db rawSales name targetYear Hne _ _ E) in H.
    discriminate.
Qed.

(** C7: when the source returned listings and none of them is selected for
    storing (none survives the name filter, classification and the year
    filter), the run fails with NO_VALID_SALES, reports no inserted and no
    duplicate sale, and leaves the table as it was. *)
Theorem no_valid_sales_persists_nothing (db : list Row)
        (rawSales : list ParsedSale) (name : string) (targetYear : option Z) :
  rawSales <> [] ->
  to_store (Returned rawSales) name targetYear = [] ->
  fst (run db (Returned rawSales) name targetYear) = db
  /\ success (snd (run db (Returned rawSales) name targetYear)) = false
  /\ error_code (snd (run db (Returned rawSales) name targetYear))
     = Some "NO_VALID_SALES"
  /\ salesInserted (snd (run db (Returned rawSales) name targetYear)) = 0
  /\ salesDuplicate (snd (run db (Returned rawSales) name targetYear)) = 0.
Proof. intros Hne Hsel. now apply run_nothing_to_store. Qed.

(** C10 (as amended): a player name whose lower case has no piece (between
    runs of white space and hyphens) of more than two code units matches no
    title, so a run that fetched listings for it selects none, fails with
    NO_VALID_SALES and persists nothing.  The first part is the name filter
    on UTF-16 code units, whatever [toLowerCase] does; the second is the
    pipeline. *)
Theorem short_name_matches_nothing :
  (forall (lower : Wide.text -> Wide.text) (name : Wide.text),
      Forall (fun tok => List.length tok <= 2)
             (Wide.split_class Wide.name_separator (lower name)) ->
      forall t, Wide.titleContainsPlayerName lower t name = false)
  /\ forall name : string,
      Forall (fun tok => String.length tok <= 2)
             (JS.split_class name_separator (JS.toLowerCase name)) ->
      (forall t, titleContainsPlayerName t name = false)
      /\ forall db rawSales targetYear,
          rawSales <> [] ->
          fst (run db (Returned rawSales) name targetYear) = db
          /\ success (snd (run db (Returned rawSales) name targetYear)) = false
          /\ error_code (snd (run db (Returned rawSales) name targetYear))
             = Some "NO_VALID_SALES"
          /\ salesInserted (snd (run db (Returned rawSales) name targetYear))
             = 0
          /\ salesDuplicate (snd (run db (Returned rawSales) name targetYear))
             = 0.
Proof.
  split.
  { intros lower name H t. now apply wide_short_name. }
  intros name Hshort.
  assert (Hno : forall t, titleContainsPlayerName t name = false).
  { intros t. unfold titleContainsPlayerName.
    rewrite (nameParts_none name Hshort). reflexivity. }
  split; [exact Hno|].
  intros db rawSales targetYear Hne.
  apply run_nothing_to_store; [exact Hne|].
  destruct (sel_salesToStore (selectForPlayer rawSales name targetYear))
    as [|s l] eqn:E; [reflexivity|].
  assert (Hin : In s (sel_salesToStore
                        (selectForPlayer rawSales name targetYear)))
    by (rewrite E; now left).
  apply to_store_fetched in Hin. destruct Hin as (_ & _ & Ht).
  rewrite Hno in Ht. discriminate.
Qed.


(** C6 (as amended): the market summary of a successful run is computed
    over the at most five most recent rows of the player in the table
    (ordered by sale date, latest first; of the resolved year when there is
    one).  The average is the mean of their prices rounded to two decimals;
    the median is the middle price for an odd count and, for an even count,
    the mean of the two middle prices rounded to two decimals; the last
    sale is the most recent row. *)
Theorem market_summary_of_recent_rows (db : list Row) (fetched : Fetched)
        (name : string) (targetYear : option Z) :
  success (snd (run db fetched name targetYear)) = true ->
  exists recent rest,
    Permutation
      (recent ++ rest)
      (filter (row_matches
                 (normalizeName name)
                 (inferredFirstBowmanYear (snd (run db fetched name targetYear)))
                 None)
              (fst (run db fetched name targetYear)))
    /\ List.length recent = Nat.min 5 (List.length (recent ++ rest))
    /\ StronglySorted newer_or_same recent
    /\ (forall a b, In a recent -> In b rest -> newer_or_same a b)
    /\ summary_of recent (snd (run db fetched name targetYear)).
Proof.
  intros Hok.
  destruct (run_success_stores _ _ _ _ Hok)
    as (rawSales & -> & Hne & db1 & i1 & d1 & E1).
  destruct (run_stores db rawSales name targetYear Hne _ _ _ E1)
    as (Hdb1 & _ & _ & _ & Hy & Hn & Ha & Hm & Hp & Hd).
  rewrite Hdb1, Hy.
  set (firstYear := sel_firstYear (selectForPlayer rawSales name targetYear))
    in *.
  set (mine := filter (row_matches (normalizeName name) firstYear None) db1).
  set (sorted := Sqlite.order_by_desc sale_date mine).
  assert (Hrecent :
            selectRows db1 (normalizeName name) (JS.truthy firstYear)
                       (Some 5%nat) None
            = firstn 5 sorted).
  { unfold selectRows, Sqlite.limit, sorted, mine.
    rewrite normalizeName_idem. do 2 f_equal.
    apply filter_ext. intros row. unfold row_matches.
    now rewrite truthy_idem. }
  rewrite Hrecent in Hn, Ha, Hm, Hp, Hd.
  assert (Hsorted : StronglySorted newer_or_same sorted)
    by apply order_by_desc_sorted.
  rewrite <- (firstn_skipn 5 sorted) in Hsorted.
  exists (firstn 5 sorted), (skipn 5 sorted).
  rewrite (firstn_skipn 5 sorted). split.
  { symmetry. apply sort_perm. }
  split; [apply length_firstn|].
  split; [eapply sorted_app_left; exact Hsorted|].
  split; [apply sorted_app_precedes; exact Hsorted|].
  unfold summary_of. split; [exact Hn|].
  rewrite Ha, Hm, Hp, Hd. unfold marketStats.
  destruct (firstn 5 sorted) as [|latest more]; [repeat split|].
  cbn [map m_average m_median m_lastPrice m_lastDate view v_salePrice
       v_saleDate].
  rewrite map_map. cbn [view v_salePrice].
  repeat split.
Qed.

End PipelineFacts.

(* ====================================================================== *)
(** ** Runs on plain web addresses *)
(* ====================================================================== *)

(** C3: the code at a table that holds the single URL [.../itm/12345] and
    a listing of the item page [.../itm/1234].  No row has the normalized
    URL of the listing, nor its original URL; the listing is reported as a
    duplicate all the same and is not stored, because the stored URL starts
    with its normalized URL.  On the empty table the listing is
    inserted. *)
Theorem duplicate_without_equal_url :
  map ebay_url store_with_12345 = [ "https://www.ebay.com/itm/12345" ]
  /\ ebayUrl (parsed item_1234) = "https://www.ebay.com/itm/1234?nordt=true"
  /\ normalizeEbayUrl PlainURL.parse (ebayUrl (parsed item_1234))
     = "https://www.ebay.com/itm/1234"
  /\ saleExists PlainURL.parse store_with_12345 (ebayUrl (parsed item_1234))
     = true
  /\ plain_insert store_with_12345 "Player Z" item_1234 base
     = (store_with_12345, Return false)
  /\ snd (plain_insert [] "Player Z" item_1234 base) = Return true.
Proof. vm_compute. repeat split. Qed.



(** Scenario A: the listing is excluded as graded, the run fails with
    NO_VALID_SALES and the table stays empty. *)
Lemma no_valid_sales_persists_nothing_witness :
  scenario_A <> []
  /\ to_store (Returned scenario_A) "Player X" None = []
  /\ map exclusionReason (map categorizeListingSale scenario_A)
     = [ Some "Graded card: psa" ]
  /\ fst (plain_run [] (Returned scenario_A) "Player X" None) = []
  /\ error_code (snd (plain_run [] (Returned scenario_A) "Player X" None))
     = Some "NO_VALID_SALES".
Proof.
  assert (Hne : scenario_A <> []) by discriminate.
  assert (Hsel : to_store (Returned scenario_A) "Player X" None = [])
    by reflexivity.
  split; [exact Hne|]. split; [exact Hsel|]. split; [reflexivity|].
  destruct (no_valid_sales_persists_nothing PlainURL.parse row_id row_clock 0
              [] scenario_A "Player X" None Hne Hsel)
    as (Hdb & _ & Hcode & _).
  split; [exact Hdb | exact Hcode].
Defined.

(** The player name Bo Ek. *)
Lemma short_name_matches_nothing_witness :
  Forall (fun tok => String.length tok <= 2)
         (JS.split_class name_separator (JS.toLowerCase "Bo Ek"))
  /\ (forall t, titleContainsPlayerName t "Bo Ek" = false)
  /\ error_code (snd (plain_run [] (Returned scenario_B) "Bo Ek" None))
     = Some "NO_VALID_SALES"
  /\ fst (plain_run [] (Returned scenario_B) "Bo Ek" None) = [].
Proof.
  assert (H : Forall (fun tok => String.length tok <= 2)
                     (JS.split_class name_separator (JS.toLowerCase "Bo Ek")))
    by (repeat constructor).
  split; [exact H|].
  destruct (proj2 (short_name_matches_nothing PlainURL.parse row_id row_clock
                                              0)
                  "Bo Ek" H) as (Hno & Hrun).
  split; [exact Hno|].
  assert (Hne : scenario_B <> []) by discriminate.
  destruct (Hrun [] scenario_B None Hne) as (Hdb & _ & Hcode & _).
  split; [exact Hcode | exact Hdb].
Defined.

(** Five sales at 10, 20, 30, 40 and 50: average 30 and median 30. *)
Lemma market_summary_of_recent_rows_witness :
  success (snd (plain_run [] (Returned five_sales) "Player Y" None)) = true
  /\ averagePrice (snd (plain_run [] (Returned five_sales) "Player Y" None))
     = Some 30%float
  /\ medianPrice (snd (plain_run [] (Returned five_sales) "Player Y" None))
     = Some 30%float
  /\ exists recent rest,
      Permutation
        (recent ++ rest)
        (filter (row_matches
                   (normalizeName "Player Y")
                   (inferredFirstBowmanYear
                      (snd (plain_run [] (Returned five_sales) "Player Y" None)))
                   None)
                (fst (plain_run [] (Returned five_sales) "Player Y" None)))
      /\ List.length recent = Nat.min 5 (List.length (recent ++ rest))
      /\ StronglySorted newer_or_same recent
      /\ (forall a b, In a recent -> In b rest -> newer_or_same a b)
      /\ summary_of recent
                    (snd (plain_run [] (Returned five_sales) "Player Y" None)).
Proof.
  assert (H : success (snd (plain_run [] (Returned five_sales) "Player Y" None))
              = true) by reflexivity.
  split; [exact H|]. split; [reflexivity|]. split; [reflexivity|].
  exact (market_summary_of_recent_rows PlainURL.parse row_id row_clock 0
           [] (Returned five_sales) "Player Y" None H).
Defined.

(** Two sales at 10 and 20: average 15 and median 15. *)
Example summary_of_two_sales :
  averagePrice (snd (plain_run [] (Returned two_sales) "Player Y" None))
  = Some 15%float
  /\ medianPrice (snd (plain_run [] (Returned two_sales) "Player Y" None))
     = Some 15%float
  /\ lastSalePrice (snd (plain_run [] (Returned two_sales) "Player Y" None))
     = Some 20%float.
Proof. vm_compute. repeat split. Qed.

(** C6 (as stated) fails: for the prices 10.01 and 10.02 the mean of the
    two middle values is 10.015000000000001, and the reported median is
    that value rounded to two decimals, 10.02. *)
Lemma even_median_is_rounded :
  map sale_price (fst (plain_run [] (Returned two_cent_sales) "Player Y" None))
  = [ 10.01%float; 10.02%float ]
  /\ ((10.01 + 10.02) / 2)%float = 10.015000000000001%float
  /\ medianPrice (snd (plain_run [] (Returned two_cent_sales) "Player Y" None))
     = Some 10.02%float.
Proof. vm_compute. repeat split. Qed.

(** C2: the code at a fetch with a listing of another player.  The listing
    of 2022 does not pass the name filter, yet its year is the inferred
    one; the listing of the player, of 2023, is then filtered out by year
    and the run fails.  On the name-matched listings alone the inferred
    year is 2023. *)
Theorem other_player_year_is_inferred :
  titleContainsPlayerName (title other_player_2022) "John Smith" = false
  /\ titleContainsPlayerName (title john_smith_2023) "John Smith" = true
  /\ inferredFirstBowmanYear
       (snd (plain_run [] (Returned [other_player_2022; john_smith_2023])
                       "John Smith" None))
     = Some 2022%Z
  /\ error_code
       (snd (plain_run [] (Returned [other_player_2022; john_smith_2023])
                       "John Smith" None))
     = Some "NO_VALID_SALES"
  /\ determineFirstBowmanYear
       (filter (fun s => titleContainsPlayerName (title (parsed s)) "John Smith")
               (map categorizeListingSale [other_player_2022; john_smith_2023]))
     = Some 2023%Z.
Proof. vm_compute. repeat split. Qed.

(* ====================================================================== *)
(** ** More about the regular expressions and the year of a title *)
(* ====================================================================== *)

(** A match found by the search is a match at some position. *)
Lemma search_match_here (r : Regex.pattern) :
  forall s prev m,
    Regex.search r prev s = Some m ->
    exists prev' s', Regex.match_here r prev' s' = Some m.
Proof.
  induction s as [|c s IH]; intros prev m; simpl.
  - destruct (Regex.match_here r prev EmptyString) eqn:E; [|discriminate].
    intros [= <-]. eauto.
  - destruct (Regex.match_here r prev (String c s)) eqn:E.
    + intros [= <-]. eauto.
    + apply IH.
Qed.

(** A class that is taken exactly once. *)
Lemma repeat_once p k prev s :
  Regex.repeat_greedy p 1 (Some 1) k prev s
  = match s with
    | EmptyString => None
    | String c s' =>
        if p c then option_map (String c) (k (Some c) s') else None
    end.
Proof.
  destruct s as [|c s]; simpl; [reflexivity|].
  destruct (p c); simpl; [|reflexivity].
  destruct s as [|c' s]; simpl.
  - destruct (k (Some c) EmptyString); reflexivity.
  - rewrite andb_false_r. destruct (k (Some c) (String c' s)); reflexivity.
Qed.

Lemma between_bounds lo hi n :
  JS.between lo hi n = true -> (lo <= n <= hi)%N.
Proof.
  unfold JS.between. rewrite andb_true_iff, !N.leb_le. tauto.
Qed.

(** What [YEAR_PATTERN] matches: 2, 0, a digit 1 or 2, a digit. *)
Lemma year_match prev s m :
  Regex.match_here YEAR_PATTERN prev s = Some m ->
  exists d1 d2,
    m = String "2" (String "0" (String d1 (String d2 EmptyString)))
    /\ (49 <= JS.code d1 <= 50)%N /\ (48 <= JS.code d2 <= 57)%N.
Proof.
  unfold YEAR_PATTERN, Regex.chr.
  cbn [Regex.match_here].
  destruct (xorb _ _); [|discriminate].
  rewrite repeat_once. destruct s as [|c0 s]; [discriminate|].
  destruct (Ascii.eqb_spec "2"%char c0); [subst c0|discriminate].
  rewrite repeat_once. destruct s as [|c1 s]; [discriminate|].
  destruct (Ascii.eqb_spec "0"%char c1); [subst c1|discriminate].
  rewrite repeat_once. destruct s as [|d1 s]; [discriminate|].
  destruct (JS.between 49 50 (JS.code d1)) eqn:E1; [|discriminate].
  rewrite repeat_once. destruct s as [|d2 s]; [discriminate|].
  unfold JS.is_digit.
  destruct (JS.between 48 57 (JS.code d2)) eqn:E2; [|discriminate].
  destruct (xorb _ _); [|discriminate].
  cbn [option_map]. intros [= <-].
  exists d1, d2. split; [reflexivity|].
  split; apply between_bounds; assumption.
Qed.

(** X1: the year extracted from a title, when there is one, lies between
    2010 and 2029; in particular it is never 0. *)
Theorem extractYear_range (t : string) (y : Z) :
  extractYear t = Some y -> (2010 <= y <= 2029)%Z.
Proof.
  unfold extractYear, Regex.exec.
  destruct (Regex.search YEAR_PATTERN None t) as [m|] eqn:E; [|discriminate].
  intros [= <-].
  apply search_match_here in E. destruct E as (prev & s & E).
  apply year_match in E. destruct E as (d1 & d2 & -> & H1 & H2).
  unfold parseInt. cbn [list_ascii_of_string fold_left].
  change (JS.code "2") with 50%N. change (JS.code "0") with 48%N.
  lia.
Qed.

Lemma extractYear_range_witness :
  extractYear "2024 Player X Chrome Auto PSA 10" = Some 2024%Z
  /\ (2010 <= 2024 <= 2029)%Z.
Proof.
  split; [reflexivity|].
  exact (extractYear_range "2024 Player X Chrome Auto PSA 10" 2024 eq_refl).
Defined.

(* ====================================================================== *)
(** ** More about the classifier *)
(* ====================================================================== *)

Lemma first_included_absent lt l :
  absent (first_included lt l) = true
  <-> ~ (exists x, In x l /\ JS.includes lt x = true).
Proof.
  unfold first_included.
  destruct (find (fun x => JS.includes lt x) l) as [y|] eqn:E; simpl.
  - split; [discriminate|]. intros H. exfalso. apply H.
    exists y. apply find_some in E. exact E.
  - split; [|reflexivity]. intros _ (x & Hin & Hx).
    apply (find_none _ _ E) in Hin. simpl in Hin. congruence.
Qed.

Lemma first_match_absent {A B : Type} (f : A -> option B) (l : list A) :
  absent (first_match f l) = true <-> forall a, In a l -> f a = None.
Proof.
  unfold first_match. induction l as [|a l IH]; simpl.
  - split; [contradiction | reflexivity].
  - destruct (f a) as [b|] eqn:E; simpl.
    + split; [discriminate|]. intros H.
      specialize (H a (or_introl eq_refl)). congruence.
    + rewrite IH. split.
      * intros H x [<- | Hx]; auto.
      * intros H x Hx. apply H. now right.
Qed.

Lemma quantity_absent t :
  absent (first_match (fun p => Regex.exec p t) LOT_QUANTITY_PATTERNS) = true
  <-> ~ quantity_indicated t.
Proof.
  rewrite first_match_absent. unfold quantity_indicated, Regex.test. split.
  - intros H (p & Hp & Ht). rewrite (H p Hp) in Ht. discriminate.
  - intros H p Hp. destruct (Regex.exec p t) eqn:E; [|reflexivity].
    exfalso. apply H. exists p. rewrite E. auto.
Qed.

Lemma passes_exclusions_iff t :
  passes_exclusions_b t = true <-> passes_exclusions t.
Proof.
  unfold passes_exclusions_b, passes_exclusions, indicated.
  rewrite !andb_true_iff, !first_included_absent, quantity_absent. tauto.
Qed.

(** The flags before the serial-number check, by the tests made. *)
Lemma before_serial_flags t :
  f_base (before_serial t) = passes_exclusions_b t
  /\ f_refractor (before_serial t) = false.
Proof.
  unfold before_serial, passes_exclusions_b; cbv zeta.
  unfold check_graded.
  destruct (first_included (JS.toLowerCase t) GRADED_INDICATORS).
  { rewrite skip_lot_text, skip_lot_quantity, skip_product, skip_ip
      by reflexivity. split; reflexivity. }
  unfold check_lot_text. cbn [f_base initial].
  destruct (first_included (JS.toLowerCase t) LOT_INDICATORS).
  { rewrite skip_lot_quantity, skip_product, skip_ip by reflexivity.
    split; reflexivity. }
  unfold check_lot_quantity. cbn [f_base initial].
  destruct (first_match _ LOT_QUANTITY_PATTERNS).
  { rewrite skip_product, skip_ip by reflexivity. split; reflexivity. }
  unfold check_product. cbn [f_base initial].
  destruct (first_included (JS.toLowerCase t) EXCLUDED_PRODUCTS).
  { rewrite skip_ip by reflexivity. split; reflexivity. }
  unfold check_ip. cbn [f_base initial].
  destruct (first_included (JS.toLowerCase t) IP_AUTOGRAPH_INDICATORS);
    split; reflexivity.
Qed.

Lemma first_color_refractor lt :
  JS.includes lt "refractor" = true ->
  first_included lt PARALLEL_COLORS = Some "refractor".
Proof.
  intros H. unfold first_included, PARALLEL_COLORS. cbn [find].
  now rewrite H.
Qed.

Lemma first_color_included lt color :
  first_included lt PARALLEL_COLORS = Some color ->
  JS.includes lt color = true.
Proof. unfold first_included. intros H. apply find_some in H. tauto. Qed.

(** The two flags of a classified title, by the tests made. *)
Lemma classify_flags_formula t :
  f_base (classify_flags t)
  = passes_exclusions_b t
    && negb (Regex.test SERIAL_PATTERN t)
    && absent (first_included (JS.toLowerCase t) PARALLEL_COLORS)
  /\ f_refractor (classify_flags t)
     = passes_exclusions_b t
       && JS.includes (JS.toLowerCase t) "/499"
       && JS.includes (JS.toLowerCase t) "refractor".
Proof.
  rewrite classify_flags_eq.
  destruct (before_serial_flags t) as (Hb & Hr).
  destruct (passes_exclusions_b t).
  2:{ rewrite (skip_serial _ _ _ Hb), (skip_color _ _ Hb). auto. }
  unfold check_serial. rewrite Hb, Hr. cbn [andb].
  destruct (Regex.test SERIAL_PATTERN t).
  { rewrite skip_color by reflexivity. cbn [f_base f_refractor negb andb].
    split; [reflexivity|].
    destruct (JS.includes (JS.toLowerCase t) "/499"
              && JS.includes (JS.toLowerCase t) "refractor"); reflexivity. }
  unfold check_color. rewrite Hb, Hr. cbn [negb andb].
  destruct (JS.includes (JS.toLowerCase t) "refractor") eqn:Eref.
  - rewrite (first_color_refractor _ Eref). cbn [f_base f_refractor absent].
    split; [reflexivity|]. cbn [String.eqb Ascii.eqb andb].
    rewrite andb_true_r.
    destruct (JS.includes (JS.toLowerCase t) "/499"); reflexivity.
  - destruct (first_included (JS.toLowerCase t) PARALLEL_COLORS)
      as [color|] eqn:Ec; cbn [f_base f_refractor absent].
    + split; [reflexivity|].
      destruct (String.eqb_spec color "refractor") as [-> | Hne].
      * apply first_color_included in Ec. congruence.
      * rewrite andb_false_r. reflexivity.
    + rewrite andb_false_r. auto.
Qed.

(** X2: a listing is classified as base exactly when no rule applies to its
    title: no grading, lot, quantity, wrong-product or in-person indicator,
    no serial number and no parallel colour.  Whatever is not excluded is
    base. *)
Theorem base_iff_no_rule_applies (sale : ParsedSale) :
  isBaseAuto (categorizeListingSale sale) = true
  <-> passes_exclusions (title sale)
      /\ Regex.test SERIAL_PATTERN (title sale) = false
      /\ ~ indicated PARALLEL_COLORS (title sale).
Proof.
  unfold categorizeListingSale; cbn [isBaseAuto].
  rewrite (proj1 (classify_flags_formula (title sale))).
  rewrite !andb_true_iff, negb_true_iff, passes_exclusions_iff.
  unfold indicated. rewrite first_included_absent. tauto.
Qed.

(** X3: a listing is marked as the fallback variant exactly when none of the
    first five rules applies and its lower-cased title contains both /499
    and refractor. *)
Theorem fallback_iff_numbered_refractor (sale : ParsedSale) :
  isRefractor (categorizeListingSale sale) = true
  <-> passes_exclusions (title sale)
      /\ JS.includes (JS.toLowerCase (title sale)) "/499" = true
      /\ JS.includes (JS.toLowerCase (title sale)) "refractor" = true.
Proof.
  unfold categorizeListingSale; cbn [isRefractor].
  rewrite (proj2 (classify_flags_formula (title sale))).
  rewrite !andb_true_iff, passes_exclusions_iff. tauto.
Qed.

(* ---------------------------------------------------------------------- *)
(** *** Letter case *)

Lemma is_word_lower c : JS.is_word (JS.lower_char c) = JS.is_word c.
Proof. each_char c. Qed.

Lemma word_before_lower prev :
  Regex.word_before (lower_prev prev) = Regex.word_before prev.
Proof. destruct prev; simpl; [apply is_word_lower | reflexivity]. Qed.

Lemma word_here_lower s :
  Regex.word_here (JS.toLowerCase s) = Regex.word_here s.
Proof. destruct s; simpl; [reflexivity | apply is_word_lower]. Qed.

Lemma repeat_greedy_lower p k k' :
  (forall c, p (JS.lower_char c) = p c) ->
  (forall prev s, k' (lower_prev prev) (JS.toLowerCase s)
                  = option_map JS.toLowerCase (k prev s)) ->
  forall s lo hi prev,
    Regex.repeat_greedy p lo hi k' (lower_prev prev) (JS.toLowerCase s)
    = option_map JS.toLowerCase (Regex.repeat_greedy p lo hi k prev s).
Proof.
  intros Hp Hk. induction s as [|c s IH]; intros lo hi prev; simpl.
  - destruct lo; [apply (Hk prev EmptyString) | reflexivity].
  - rewrite Hp. destruct (p c && Regex.room hi).
    + change (Some (JS.lower_char c)) with (lower_prev (Some c)).
      rewrite (IH (Nat.pred lo) (Regex.less hi) (Some c)).
      destruct (Regex.repeat_greedy p (Nat.pred lo) (Regex.less hi) k
                                    (Some c) s); simpl; [reflexivity|].
      destruct lo; [apply (Hk prev (String c s)) | reflexivity].
    + destruct lo; [apply (Hk prev (String c s)) | reflexivity].
Qed.

Lemma match_here_lower r :
  case_blind r ->
  forall prev s,
    Regex.match_here r (lower_prev prev) (JS.toLowerCase s)
    = option_map JS.toLowerCase (Regex.match_here r prev s).
Proof.
  induction 1 as [|a r Ha Hr IH]; intros prev s; simpl; [reflexivity|].
  destruct a as [p lo hi|].
  - apply repeat_greedy_lower; assumption.
  - rewrite word_before_lower, word_here_lower.
    destruct (xorb _ _); [apply IH | reflexivity].
Qed.

Lemma search_lower r :
  case_blind r ->
  forall s prev,
    Regex.search r (lower_prev prev) (JS.toLowerCase s)
    = option_map JS.toLowerCase (Regex.search r prev s).
Proof.
  intros Hr. induction s as [|c s IH]; intros prev; simpl.
  - assert (H := match_here_lower r Hr prev EmptyString).
    cbn [JS.toLowerCase] in H. rewrite H.
    destruct (Regex.match_here r prev EmptyString); reflexivity.
  - assert (H := match_here_lower r Hr prev (String c s)).
    cbn [JS.toLowerCase] in H. rewrite H.
    destruct (Regex.match_here r prev (String c s)); simpl; [reflexivity|].
    change (Some (JS.lower_char c)) with (lower_prev (Some c)).
    apply (IH (Some c)).
Qed.

Lemma test_lower r s :
  case_blind r -> Regex.test r (JS.toLowerCase s) = Regex.test r s.
Proof.
  intros Hr. unfold Regex.test, Regex.exec.
  change (Regex.search r None (JS.toLowerCase s))
    with (Regex.search r (lower_prev None) (JS.toLowerCase s)).
  rewrite (search_lower r Hr s None).
  destruct (Regex.search r None s); reflexivity.
Qed.

Ltac blind := repeat constructor; intros c; each_char c.

Lemma serial_case_blind : case_blind SERIAL_PATTERN.
Proof. blind. Qed.

Lemma quantity_case_blind :
  forall p, In p LOT_QUANTITY_PATTERNS -> case_blind p.
Proof.
  intros p Hp. unfold LOT_QUANTITY_PATTERNS in Hp. cbv zeta in Hp.
  simpl in Hp.
  repeat (destruct Hp as [<- | Hp]; [blind|]). contradiction.
Qed.

Lemma quantity_lower t :
  absent (first_match (fun p => Regex.exec p (JS.toLowerCase t))
                      LOT_QUANTITY_PATTERNS)
  = absent (first_match (fun p => Regex.exec p t) LOT_QUANTITY_PATTERNS).
Proof.
  assert (H := quantity_case_blind).
  unfold first_match.
  induction LOT_QUANTITY_PATTERNS as [|p l IH]; simpl; [reflexivity|].
  assert (Hp : case_blind p) by (apply H; now left).
  unfold Regex.exec at 1 3.
  change (Regex.search p None (JS.toLowerCase t))
    with (Regex.search p (lower_prev None) (JS.toLowerCase t)).
  rewrite (search_lower p Hp t None).
  destruct (Regex.search p None t); simpl; [reflexivity|].
  apply IH. intros q Hq. apply H. now right.
Qed.

Lemma classify_flags_lower t :
  f_base (classify_flags (JS.toLowerCase t)) = f_base (classify_flags t)
  /\ f_refractor (classify_flags (JS.toLowerCase t))
     = f_refractor (classify_flags t).
Proof.
  destruct (classify_flags_formula t) as (-> & ->).
  destruct (classify_flags_formula (JS.toLowerCase t)) as (-> & ->).
  unfold passes_exclusions_b.
  rewrite !toLowerCase_idem, quantity_lower,
    (test_lower _ t serial_case_blind).
  split; reflexivity.
Qed.

(** X4: the class of a listing depends on its title only up to letter case:
    two listings whose titles have the same lower case get the same base
    and fallback flags.  (The recorded reason may differ in case: a
    quantity reason quotes the title.) *)
Theorem classification_ignores_case (s1 s2 : ParsedSale) :
  JS.toLowerCase (title s1) = JS.toLowerCase (title s2) ->
  isBaseAuto (categorizeListingSale s1) = isBaseAuto (categorizeListingSale s2)
  /\ isRefractor (categorizeListingSale s1)
     = isRefractor (categorizeListingSale s2).
Proof.
  intros H. unfold categorizeListingSale; cbn [isBaseAuto isRefractor].
  destruct (classify_flags_lower (title s1)) as (<- & <-).
  destruct (classify_flags_lower (title s2)) as (<- & <-).
  rewrite H. split; reflexivity.
Qed.

(* ====================================================================== *)
(** ** More about year inference *)
(* ====================================================================== *)

Lemma tally_keys_truthy (pick : FilteredSale -> bool)
      (sales : list FilteredSale) :
  forall (m : Arr.NumMap) (y : Z),
    In y (Arr.keys (tally pick sales m))
    <-> In y (Arr.keys m) \/ In y (truthy_years pick sales).
Proof.
  unfold tally.
  induction sales as [|s sales IH]; intros m y; simpl.
  - intuition.
  - rewrite IH, in_app_iff.
    destruct (JS.truthy (releaseYear (parsed s))) as [v|]; simpl.
    + destruct (pick s); simpl; [rewrite keys_set|]; intuition.
    + intuition.
Qed.

Lemma tally_empty_truthy (pick : FilteredSale -> bool)
      (sales : list FilteredSale) :
  tally pick sales [] = [] <-> truthy_years pick sales = [].
Proof.
  assert (H := tally_keys_truthy pick sales []).
  split; intros E.
  - destruct (truthy_years pick sales) as [|y l]; [reflexivity|].
    specialize (H y). rewrite E in H. simpl in H. exfalso. apply H. auto.
  - apply no_keys. destruct (Arr.keys _) as [|y l]; [reflexivity|].
    specialize (H y). rewrite E in H. simpl in H. exfalso. intuition.
Qed.

Lemma earliest_of_tally_truthy (pick : FilteredSale -> bool)
      (sales : list FilteredSale) :
  truthy_years pick sales <> [] ->
  exists y,
    hd_error (Arr.sort (fun a b => (0 <? a - b)%Z)
                       (Arr.keys (tally pick sales [])))
    = Some y
    /\ earliest y (truthy_years pick sales).
Proof.
  intros Hne.
  assert (Hk : Arr.keys (tally pick sales []) <> []).
  { intros E. apply no_keys in E. now apply tally_empty_truthy in E. }
  destruct (sort_ascending_head _ Hk) as (y & Hhd & Hin & Hmin).
  exists y. split; [exact Hhd|].
  assert (H := tally_keys_truthy pick sales []).
  split.
  - apply H in Hin. simpl in Hin. tauto.
  - intros y' Hy'. apply Hmin, H. now right.
Qed.

(** The inferred year, whatever the years of the sales. *)
Lemma determineFirstBowmanYear_cases (sales : list FilteredSale) :
  (truthy_years isBaseAuto sales <> []
   /\ exists y, determineFirstBowmanYear sales = Some y
                /\ earliest y (truthy_years isBaseAuto sales))
  \/ (truthy_years isBaseAuto sales = []
      /\ truthy_years isRefractor sales <> []
      /\ exists y, determineFirstBowmanYear sales = Some y
                   /\ earliest y (truthy_years isRefractor sales))
  \/ (truthy_years isBaseAuto sales = []
      /\ truthy_years isRefractor sales = []
      /\ determineFirstBowmanYear sales = None).
Proof.
  unfold determineFirstBowmanYear.
  destruct (truthy_years isBaseAuto sales) as [|b B] eqn:EB.
  - right. rewrite (proj2 (tally_empty_truthy isBaseAuto sales) EB).
    destruct (truthy_years isRefractor sales) as [|f F] eqn:EF.
    + right. rewrite (proj2 (tally_empty_truthy isRefractor sales) EF). auto.
    + left. split; [reflexivity|]. split; [discriminate|].
      assert (Hne : truthy_years isRefractor sales <> [])
        by (rewrite EF; discriminate).
      destruct (earliest_of_tally_truthy isRefractor sales Hne)
        as (y & Hhd & He).
      exists y. rewrite <- EF. split; [|exact He].
      destruct (tally isRefractor sales []) eqn:E; [|exact Hhd].
      apply tally_empty_truthy in E. contradiction.
  - left. split; [discriminate|].
    assert (Hne : truthy_years isBaseAuto sales <> [])
      by (rewrite EB; discriminate).
    destruct (earliest_of_tally_truthy isBaseAuto sales Hne)
      as (y & Hhd & He).
    exists y. rewrite <- EB. split; [|exact He].
    destruct (tally isBaseAuto sales []) eqn:E; [|exact Hhd].
    apply tally_empty_truthy in E. contradiction.
Qed.

Lemma truthy_years_In pick sales y :
  In y (truthy_years pick sales)
  <-> exists s, In s sales /\ releaseYear (parsed s) = Some y
                /\ y <> 0%Z /\ pick s = true.
Proof.
  unfold truthy_years. rewrite in_flat_map. split.
  - intros (s & Hs & H). exists s. split; [exact Hs|].
    destruct (releaseYear (parsed s)) as [v|]; simpl in H; [|contradiction].
    destruct (Z.eqb_spec v 0); [contradiction|].
    destruct (pick s); simpl in H; [|contradiction].
    destruct H as [<- | []]. auto.
  - intros (s & Hs & Hy & Hnz & Hp). exists s. split; [exact Hs|].
    rewrite Hy. simpl. destruct (Z.eqb_spec y 0); [contradiction|].
    rewrite Hp. now left.
Qed.

(** X5: an inferred year is the year of one of the listings, one that is
    base or fallback, and is never 0; and no year is inferred only when no
    base or fallback listing carries a year. *)
Theorem inferred_year_is_observed (sales : list FilteredSale) :
  (forall y, determineFirstBowmanYear sales = Some y ->
             y <> 0%Z
             /\ exists s, In s sales
                          /\ releaseYear (parsed s) = Some y
                          /\ (isBaseAuto s = true \/ isRefractor s = true))
  /\ (determineFirstBowmanYear sales = None ->
      forall s y, In s sales -> releaseYear (parsed s) = Some y ->
                  y <> 0%Z ->
                  isBaseAuto s = false /\ isRefractor s = false).
Proof.
  destruct (determineFirstBowmanYear_cases sales)
    as [(_ & y0 & E & Hin & _) | [(_ & _ & y0 & E & Hin & _) | (EB & EF & E)]].
  - split; [|rewrite E; discriminate].
    intros y Hy. rewrite E in Hy. injection Hy as <-.
    apply truthy_years_In in Hin. destruct Hin as (s & Hs & Hy & Hnz & Hp).
    split; [exact Hnz|]. exists s. auto.
  - split; [|rewrite E; discriminate].
    intros y Hy. rewrite E in Hy. injection Hy as <-.
    apply truthy_years_In in Hin. destruct Hin as (s & Hs & Hy & Hnz & Hp).
    split; [exact Hnz|]. exists s. auto.
  - split; [rewrite E; discriminate|].
    intros _ s y Hs Hy Hnz.
    split.
    + destruct (isBaseAuto s) eqn:Hb; [|reflexivity].
      assert (X : In y (truthy_years isBaseAuto sales))
        by (apply truthy_years_In; exists s; auto).
      rewrite EB in X. contradiction.
    + destruct (isRefractor s) eqn:Hr; [|reflexivity].
      assert (X : In y (truthy_years isRefractor sales))
        by (apply truthy_years_In; exists s; auto).
      rewrite EF in X. contradiction.
Qed.

Lemma truthy_years_perm pick sales sales' :
  Permutation sales sales' ->
  Permutation (truthy_years pick sales) (truthy_years pick sales').
Proof.
  unfold truthy_years.
  induction 1; simpl.
  - constructor.
  - now apply Permutation_app_head.
  - rewrite !app_assoc. apply Permutation_app_tail, Permutation_app_comm.
  - etransitivity; eassumption.
Qed.

Lemma earliest_unique y y' l l' :
  Permutation l l' -> earliest y l -> earliest y' l' -> y = y'.
Proof.
  intros Hp (Hin & Hmin) (Hin' & Hmin').
  assert (y <= y')%Z.
  { apply Hmin. eapply Permutation_in; [symmetry; exact Hp | exact Hin']. }
  assert (y' <= y)%Z.
  { apply Hmin'. eapply Permutation_in; [exact Hp | exact Hin]. }
  lia.
Qed.

Lemma perm_nil_iff {A : Type} (l l' : list A) :
  Permutation l l' -> (l = [] <-> l' = []).
Proof.
  intros Hp. split; intros ->.
  - now apply Permutation_nil in Hp.
  - symmetry in Hp. now apply Permutation_nil in Hp.
Qed.

(** X6: the inferred year does not depend on the order of the listings. *)
Theorem inferred_year_ignores_order (sales sales' : list FilteredSale) :
  Permutation sales sales' ->
  determineFirstBowmanYear sales = determineFirstBowmanYear sales'.
Proof.
  intros Hp.
  assert (HB := truthy_years_perm isBaseAuto _ _ Hp).
  assert (HF := truthy_years_perm isRefractor _ _ Hp).
  assert (HBn := perm_nil_iff _ _ HB).
  assert (HFn := perm_nil_iff _ _ HF).
  destruct (determineFirstBowmanYear_cases sales)
    as [(NB & y & E & He) | [(EB & NF & y & E & He) | (EB & EF & E)]];
    destruct (determineFirstBowmanYear_cases sales')
      as [(NB' & y' & E' & He') | [(EB' & NF' & y' & E' & He')
                                  | (EB' & EF' & E')]];
    rewrite E, E';
    first [ exact (f_equal Some (earliest_unique _ _ _ _ HB He He'))
          | exact (f_equal Some (earliest_unique _ _ _ _ HF He He'))
          | reflexivity
          | exfalso; tauto ].
Qed.

(* ====================================================================== *)
(** ** More about the player-name filter *)
(* ====================================================================== *)

Lemma startsWith_app p s b :
  JS.startsWith p s = true -> JS.startsWith p (s ++ b) = true.
Proof.
  revert s. induction p as [|a p IH]; intros s; [reflexivity|].
  destruct s as [|c s]; simpl; [discriminate|].
  rewrite !andb_true_iff. intros (H1 & H2). auto.
Qed.

Lemma includes_app_r s b p :
  JS.includes s p = true -> JS.includes (s ++ b) p = true.
Proof.
  induction s as [|c s IH]; simpl.
  - rewrite orb_false_r. intros H.
    destruct p; [|discriminate H].
    destruct b; reflexivity.
  - rewrite !orb_true_iff. intros [H | H].
    + left. exact (startsWith_app p (String c s) b H).
    + right. auto.
Qed.

Lemma includes_app_l a s p :
  JS.includes s p = true -> JS.includes (a ++ s) p = true.
Proof.
  intros H. induction a as [|c a IH]; simpl; [exact H|].
  rewrite IH. apply orb_true_r.
Qed.

Lemma startsWith_iff p s :
  JS.startsWith p s = true <-> exists b, s = (p ++ b)%string.
Proof.
  revert s. induction p as [|a p IH]; intros s; simpl.
  - split; [intros _; now exists s | reflexivity].
  - destruct s as [|c s].
    + split; [discriminate | intros (b & H); discriminate].
    + rewrite andb_true_iff, IH. split.
      * intros (Hc & b & ->). apply Ascii.eqb_eq in Hc. subst. now exists b.
      * intros (b & [= -> ->]). split; [apply Ascii.eqb_refl | now exists b].
Qed.

Lemma includes_iff s p :
  JS.includes s p = true <-> exists a b, s = (a ++ p ++ b)%string.
Proof.
  split.
  - induction s as [|c s IH]; simpl; rewrite orb_true_iff.
    + intros [H | H]; [|discriminate].
      apply startsWith_iff in H. destruct H as (b & ->).
      now exists EmptyString, b.
    + intros [H | H].
      * apply startsWith_iff in H. destruct H as (b & ->).
        now exists EmptyString, b.
      * destruct (IH H) as (a & b & ->). now exists (String c a), b.
  - intros (a & b & ->). apply includes_app_l.
    destruct (p ++ b)%string eqn:E; simpl; apply orb_true_iff; left;
      apply startsWith_iff; exists b; now rewrite E.
Qed.

Lemma append_assoc (a b c : string) :
  ((a ++ b) ++ c)%string = (a ++ b ++ c)%string.
Proof. induction a as [|x a IH]; simpl; [reflexivity | now rewrite IH]. Qed.

Lemma includes_trans s t p :
  JS.includes s t = true -> JS.includes t p = true ->
  JS.includes s p = true.
Proof.
  rewrite !includes_iff. intros (a & b & ->) (a' & b' & ->).
  exists (a ++ a')%string, (b' ++ b)%string.
  now rewrite !append_assoc.
Qed.

(** X7: a title whose lower case contains the lower case of a title that
    passes the name filter passes it too. *)
Theorem name_match_survives_longer_title (t t' name : string) :
  JS.includes (JS.toLowerCase t') (JS.toLowerCase t) = true ->
  titleContainsPlayerName t name = true ->
  titleContainsPlayerName t' name = true.
Proof.
  intros Hin. unfold titleContainsPlayerName.
  destruct (forallb _ (nameParts name)) eqn:E; [|discriminate].
  intros Hlen.
  assert (E' : forallb (fun part => JS.includes (JS.toLowerCase t') part)
                       (nameParts name) = true).
  { rewrite forallb_forall in *. intros part Hp.
    eapply includes_trans; [exact Hin | now apply E]. }
  rewrite E'. exact Hlen.
Qed.

Lemma unhyphen_lower s :
  JS.toLowerCase (unhyphen s) = unhyphen (JS.toLowerCase s).
Proof.
  induction s as [|c s IH]; simpl; [reflexivity|].
  rewrite IH. f_equal. each_char c.
Qed.

Lemma unhyphen_split insep tok s :
  JS.split_runs name_separator insep tok (unhyphen s)
  = JS.split_runs name_separator insep tok s.
Proof.
  revert insep tok. induction s as [|c s IH]; intros insep tok; simpl.
  - reflexivity.
  - destruct (Ascii.eqb_spec c "-") as [-> | Hc].
    + cbn. destruct insep; now rewrite IH.
    + destruct (name_separator c); [destruct insep|]; now rewrite IH.
Qed.

(** X8: hyphens and spaces are interchangeable in the player name. *)
Theorem name_hyphens_are_spaces (t name : string) :
  titleContainsPlayerName t (unhyphen name) = titleContainsPlayerName t name.
Proof.
  unfold titleContainsPlayerName, nameParts, JS.split_class.
  now rewrite unhyphen_lower, unhyphen_split.
Qed.

(* ====================================================================== *)
(** ** More about persistence and the orchestrator *)
(* ====================================================================== *)

Lemma selectSales_class baseAutos refractors firstYear s :
  In s (fst (selectSales baseAutos refractors firstYear)) ->
  (forall y, JS.truthy firstYear = Some y -> year_is y s = true)
  /\ match snd (selectSales baseAutos refractors firstYear) with
     | base => In s baseAutos
     | refractor => In s refractors
     end.
Proof.
  unfold selectSales.
  destruct (JS.truthy firstYear) as [y|].
  - destruct (0 <? List.length (filter (year_is y) baseAutos))%nat; simpl.
    + intros H. apply filter_In in H. split; [|tauto].
      intros y' [= <-]. tauto.
    + destruct (0 <? List.length (filter (year_is y) refractors))%nat; simpl.
      * intros H. apply filter_In in H. split; [|tauto].
        intros y' [= <-]. tauto.
      * contradiction.
  - destruct (0 <? List.length baseAutos)%nat; simpl.
    + split; [discriminate | assumption].
    + destruct (0 <? List.length refractors)%nat; simpl;
        [split; [discriminate | assumption] | contradiction].
Qed.

(** What the selection says of a listing it keeps. *)
Lemma to_store_class rawSales name targetYear s :
  In s (sel_salesToStore (selectForPlayer rawSales name targetYear)) ->
  s = categorizeListingSale (parsed s)
  /\ titleContainsPlayerName (title (parsed s)) name = true
  /\ (forall y, JS.truthy (sel_firstYear
                             (selectForPlayer rawSales name targetYear))
                = Some y ->
                releaseYear (parsed s) = Some y)
  /\ match sel_cardType (selectForPlayer rawSales name targetYear) with
     | base => isBaseAuto s = true
     | refractor => isRefractor s = true
     end.
Proof.
  intros Hin.
  destruct (to_store_fetched _ _ _ _ Hin) as (_ & Hcat & Hname).
  split; [exact Hcat|]. split; [exact Hname|].
  rewrite sel_salesToStore_eq in Hin. apply selectSales_class in Hin.
  destruct Hin as (Hyear & Hclass). split.
  - intros y Hy. specialize (Hyear y Hy). unfold year_is in Hyear.
    destruct (releaseYear (parsed s)) as [v|]; [|discriminate].
    apply Z.eqb_eq in Hyear. now subst.
  - rewrite sel_cardType_eq.
    destruct (snd (selectSales _ _ _));
      [rewrite sel_baseAutos_eq in Hclass
      |rewrite sel_refractors_eq in Hclass];
      apply filter_In in Hclass; tauto.
Qed.

Section MorePersistence.

Variable URL_parse : string -> option URL.
Variable uuidv4 : nat -> string.
Variable clock : nat -> Date.
Variable elapsedMs : Z.

(** X9: the duplicate check is system-wide and blind to query strings: once
    a listing has been presented to persistence and the call has returned
    (inserted or duplicate), a listing with the same normalized URL is a
    duplicate, for whatever player and card type, and leaves the table as
    it is. *)
Theorem same_page_is_duplicate (db : list Row) (name1 name2 : string)
        (s1 s2 : FilteredSale) (ct1 ct2 : CardType) (inserted : bool) :
  normalizeEbayUrl URL_parse (ebayUrl (parsed s1))
  = normalizeEbayUrl URL_parse (ebayUrl (parsed s2)) ->
  stable_url URL_parse (ebayUrl (parsed s2)) ->
  snd (insertSale URL_parse uuidv4 clock db name1 s1 ct1) = Return inserted ->
  insertSale URL_parse uuidv4 clock
             (fst (insertSale URL_parse uuidv4 clock db name1 s1 ct1))
             name2 s2 ct2
  = (fst (insertSale URL_parse uuidv4 clock db name1 s1 ct1), Return false).
Proof.
  intros Heq Hst Hret. apply insertSale_duplicate.
  destruct (insertSale_cases URL_parse uuidv4 clock db name1 s1 ct1)
    as [(E & H) | [(E & msg & C & H) | (E & C & H)]];
    rewrite H in *; cbn [fst snd] in *.
  - rewrite <- Heq. exact E.
  - discriminate.
  - apply saleExists_iff.
    exists (row_to_insert URL_parse uuidv4 clock db name1 s1 ct1).
    split; [apply in_or_app; right; now left|].
    left. simpl. rewrite Heq. symmetry. exact Hst.
Qed.

Local Abbreviation run :=
  (scrapeAndStorePlayer URL_parse uuidv4 clock elapsedMs).

(** The three ways of a run: nothing is handed to persistence; the
    insertion loop comes to its end; an INSERT throws. *)
Lemma run_cases db fetched name targetYear :
  (to_store fetched name targetYear = []
   /\ fst (run db fetched name targetYear) = db
   /\ success (snd (run db fetched name targetYear)) = false)
  \/ (exists db' i d,
         storeSales URL_parse uuidv4 clock db name
           (sel_cardType
              (selectForPlayer (fetched_sales fetched) name targetYear))
           (to_store fetched name targetYear)
         = (db', Return (i, d))
         /\ fst (run db fetched name targetYear) = db'
         /\ success (snd (run db fetched name targetYear)) = true
         /\ salesInserted (snd (run db fetched name targetYear)) = i
         /\ inferredFirstBowmanYear (snd (run db fetched name targetYear))
            = sel_firstYear
                (selectForPlayer (fetched_sales fetched) name targetYear))
  \/ (to_store fetched name targetYear <> []
      /\ exists db' msg,
          storeSales URL_parse uuidv4 clock db name
            (sel_cardType
               (selectForPlayer (fetched_sales fetched) name targetYear))
            (to_store fetched name targetYear)
          = (db', Throw msg)
          /\ run db fetched name targetYear
             = (db', failure name 0 0 0 None elapsedMs "SCRAPE_ERROR" msg)).
Proof.
  unfold to_store.
  destruct fetched as [msg | rawSales]; simpl fetched_sales.
  { left. rewrite nothing_fetched. repeat split. }
  destruct (sel_salesToStore (selectForPlayer rawSales name targetYear))
    as [|s0 l0] eqn:E.
  { left. split; [reflexivity|].
    destruct rawSales as [|p raw]; [repeat split|].
    destruct (run_nothing_to_store URL_parse uuidv4 clock elapsedMs
                db (p :: raw) name targetYear) as (H1 & H2 & _);
      [discriminate | exact E | auto]. }
  right.
  assert (Hne : sel_salesToStore (selectForPlayer rawSales name targetYear)
                <> []) by (rewrite E; discriminate).
  rewrite <- E.
  destruct (storeSales URL_parse uuidv4 clock db name
              (sel_cardType (selectForPlayer rawSales name targetYear))
              (sel_salesToStore (selectForPlayer rawSales name targetYear)))
    as [db' [[i d]|msg]] eqn:E1.
  - left. exists db', i, d. split; [reflexivity|].
    destruct (run_stores URL_parse uuidv4 clock elapsedMs db rawSales name
                         targetYear Hne _ _ _ E1)
      as (H1 & H2 & H3 & _ & H4 & _).
    auto.
  - right. split; [exact Hne|]. exists db', msg. split; [reflexivity|].
    now apply run_throws.
Qed.

(** A run that does not succeed. *)
Lemma run_failure db fetched name targetYear :
  success (snd (run db fetched name targetYear)) = false ->
  salesInserted (snd (run db fetched name targetYear)) = 0
  /\ salesDuplicate (snd (run db fetched name targetYear)) = 0
  /\ salesTotal (snd (run db fetched name targetYear)) = 0
  /\ sampleSize (snd (run db fetched name targetYear)) = 0
  /\ cardType (snd (run db fetched name targetYear)) = None
  /\ averagePrice (snd (run db fetched name targetYear)) = None
  /\ medianPrice (snd (run db fetched name targetYear)) = None
  /\ lastSalePrice (snd (run db fetched name targetYear)) = None
  /\ lastSaleDate (snd (run db fetched name targetYear)) = None
  /\ error (snd (run db fetched name targetYear)) <> None.
Proof.
  unfold scrapeAndStorePlayer.
  destruct fetched as [msg | [|p raw]].
  - intros _. simpl. repeat split; discriminate.
  - intros _. simpl. repeat split; discriminate.
  - destruct (sel_salesToStore (selectForPlayer (p :: raw) name targetYear)).
    + intros _. simpl. repeat split; discriminate.
    + destruct (storeSales _ _ _ _ _ _ _) as [db' [[i d]|msg]];
        [discriminate|].
      intros _. simpl. repeat split; discriminate.
Qed.

Lemma run_success_error db fetched name targetYear :
  success (snd (run db fetched name targetYear)) = true ->
  error (snd (run db fetched name targetYear)) = None
  /\ cardType (snd (run db fetched name targetYear))
     = Some (sel_cardType
               (selectForPlayer (fetched_sales fetched) name targetYear)).
Proof.
  unfold scrapeAndStorePlayer.
  destruct fetched as [msg | [|p raw]]; try discriminate.
  simpl fetched_sales.
  destruct (sel_salesToStore (selectForPlayer (p :: raw) name targetYear));
    [discriminate|].
  destruct (storeSales _ _ _ _ _ _ _) as [db' [[i d]|msg]];
    [|discriminate].
  simpl. auto.
Qed.

(** A failed run that changed the table failed in the insertion loop. *)
Lemma run_failure_table db fetched name targetYear :
  success (snd (run db fetched name targetYear)) = false ->
  fst (run db fetched name targetYear) = db
  \/ (error_code (snd (run db fetched name targetYear)) = Some "SCRAPE_ERROR"
      /\ to_store fetched name targetYear <> []).
Proof.
  intros Hfail.
  destruct (run_cases db fetched name targetYear)
    as [(_ & H & _) | [(db' & i & d & _ & _ & Hok & _)
                      | (Hne & db' & msg & _ & Hrun)]].
  - now left.
  - congruence.
  - right. rewrite Hrun. split; [reflexivity | exact Hne].
Qed.


(** The rows of a run. *)
Lemma run_rows db fetched name targetYear :
  exists new,
    fst (run db fetched name targetYear) = db ++ new
    /\ Forall (row_of_run
                 name
                 (sel_cardType
                    (selectForPlayer (fetched_sales fetched) name targetYear))
                 (sel_firstYear
                    (selectForPlayer (fetched_sales fetched) name targetYear)))
              new
    /\ (success (snd (run db fetched name targetYear)) = true ->
        List.length new = salesInserted (snd (run db fetched name targetYear))).
Proof.
  assert (Hrows :
            forall db' c,
              storeSales URL_parse uuidv4 clock db name
                (sel_cardType
                   (selectForPlayer (fetched_sales fetched) name targetYear))
                (to_store fetched name targetYear)
              = (db', c) ->
              exists new,
                db' = db ++ new
                /\ Forall (row_of_run
                             name
                             (sel_cardType
                                (selectForPlayer (fetched_sales fetched) name
                                                 targetYear))
                             (sel_firstYear
                                (selectForPlayer (fetched_sales fetched) name
                                                 targetYear)))
                          new
                /\ match c with
                   | Return (i, _) => i = List.length new
                   | Throw _ => True
                   end).
  { intros db' c Hst. apply storeSales_spec in Hst.
    destruct Hst as (new & -> & Hall & _ & Hc).
    exists new. split; [reflexivity|]. split.
    - eapply Forall_impl; [|exact Hall].
      intros row (s & Hs & _ & Hn & Hnn & Ht & _ & Hyr & Hc' & _).
      destruct (to_store_class _ _ _ _ Hs) as (Hcat & Hname & Hyear & Hclass).
      unfold row_of_run. rewrite Hc', Ht.
      repeat split; auto.
      + intros y Hyy. rewrite Hyr. now apply Hyear.
      + rewrite Hcat in Hclass. unfold categorizeListingSale in Hclass.
        cbn [isBaseAuto isRefractor] in Hclass. exact Hclass.
    - destruct c as [[i d]|m]; [tauto | exact I]. }
  destruct (run_cases db fetched name targetYear)
    as [(_ & H & Hf) | [(db' & i & d & Hst & Hdb & Hok & Hi & _)
                      | (Hne & db' & msg & Hst & Hrun)]].
  - exists []. rewrite app_nil_r. split; [exact H|].
    split; [constructor | congruence].
  - destruct (Hrows _ _ Hst) as (new & -> & Hall & Hlen).
    exists new. split; [exact Hdb|]. split; [exact Hall|].
    intros _. now rewrite Hi.
  - destruct (Hrows _ _ Hst) as (new & -> & Hall & _).
    exists new. rewrite Hrun. split; [reflexivity|].
    split; [exact Hall | discriminate].
Qed.

(** X11: a run only appends to the table.  Every row it appends is for the
    player of the run, of one card type and (when a year was resolved) of
    one year; its title names the player and is of the card type's class.
    When the run succeeds it appends as many rows as it reports inserted,
    and the card type and the year are those of its result; when it fails
    it reports no inserted row, whatever it appended. *)
Theorem run_appends_rows_of_player (db : list Row) (fetched : Fetched)
        (name : string) (targetYear : option Z) :
  exists new ct year,
    fst (run db fetched name targetYear) = db ++ new
    /\ Forall (row_of_run name ct year) new
    /\ (success (snd (run db fetched name targetYear)) = true ->
        List.length new = salesInserted (snd (run db fetched name targetYear))
        /\ cardType (snd (run db fetched name targetYear)) = Some ct
        /\ inferredFirstBowmanYear (snd (run db fetched name targetYear))
           = year)
    /\ (success (snd (run db fetched name targetYear)) = false ->
        salesInserted (snd (run db fetched name targetYear)) = 0).
Proof.
  destruct (run_rows db fetched name targetYear) as (new & Hdb & Hall & Hlen).
  exists new,
    (sel_cardType (selectForPlayer (fetched_sales fetched) name targetYear)),
    (sel_firstYear (selectForPlayer (fetched_sales fetched) name targetYear)).
  split; [exact Hdb|]. split; [exact Hall|]. split.
  - intros Hok. split; [now apply Hlen|].
    split; [now apply run_success_error|].
    destruct (run_cases db fetched name targetYear)
      as [(_ & _ & Hf) | [(db' & i & d & _ & _ & _ & _ & Hy)
                        | (_ & db' & msg & _ & Hrun)]].
    + congruence.
    + exact Hy.
    + rewrite Hrun in Hok. discriminate.
  - intros Hf. now apply run_failure in Hf.
Qed.

Lemma run_stores_total db rawSales name targetYear :
  sel_salesToStore (selectForPlayer rawSales name targetYear) <> [] ->
  forall db' i d,
    storeSales URL_parse uuidv4 clock db name
               (sel_cardType (selectForPlayer rawSales name targetYear))
               (sel_salesToStore (selectForPlayer rawSales name targetYear))
    = (db', Return (i, d)) ->
    salesTotal (snd (run db (Returned rawSales) name targetYear))
    = getPlayerSalesCount
        db' (normalizeName name)
        (JS.truthy (sel_firstYear (selectForPlayer rawSales name targetYear))).
Proof.
  intros Hne db' i d Hst. unfold scrapeAndStorePlayer.
  destruct rawSales as [|p raw].
  { exfalso. apply Hne, nothing_fetched. }
  destruct (sel_salesToStore (selectForPlayer (p :: raw) name targetYear))
    as [|s l] eqn:E; [congruence|].
  rewrite Hst. reflexivity.
Qed.

Lemma selectRows_length db name year lim :
  List.length (selectRows db name year lim None)
  = match lim with
    | Some (S n) => Nat.min (S n) (getPlayerSalesCount db name year)
    | _ => getPlayerSalesCount db name year
    end.
Proof.
  unfold selectRows, getPlayerSalesCount, Sqlite.limit, Sqlite.order_by_desc.
  set (mine := filter _ db).
  assert (Hlen : List.length (Arr.sort (fun a b => String.ltb (sale_date a)
                                                               (sale_date b))
                                       mine)
                 = List.length mine).
  { symmetry. apply Permutation_length, sort_perm. }
  destruct lim as [[|n]|]; [exact Hlen | | exact Hlen].
  now rewrite length_firstn, Hlen.
Qed.

(** X12: in every run the sample size is the smaller of 5 and the total
    number of sales reported for the player. *)
Theorem sample_is_five_or_all (db : list Row) (fetched : Fetched)
        (name : string) (targetYear : option Z) :
  sampleSize (snd (run db fetched name targetYear))
  = Nat.min 5 (salesTotal (snd (run db fetched name targetYear))).
Proof.
  destruct (success (snd (run db fetched name targetYear))) eqn:Hok.
  2:{ apply run_failure in Hok.
      destruct Hok as (_ & _ & -> & -> & _). reflexivity. }
  destruct (run_success_stores _ _ _ _ _ _ _ _ Hok)
    as (rawSales & -> & Hne & db1 & i1 & d1 & E1).
  rewrite (run_stores_total db rawSales name targetYear Hne _ _ _ E1).
  destruct (run_stores URL_parse uuidv4 clock elapsedMs db rawSales name
                       targetYear Hne _ _ _ E1)
    as (_ & _ & _ & _ & _ & -> & _).
  apply (selectRows_length db1 (normalizeName name) _ (Some 5)).
Qed.




End MorePersistence.

Lemma sorted_map {A B : Type} (f : A -> B) (R : A -> A -> Prop)
      (R' : B -> B -> Prop) (l : list A) :
  (forall a b, R a b -> R' (f a) (f b)) ->
  StronglySorted R l -> StronglySorted R' (map f l).
Proof.
  intros HR. induction 1 as [|x l Hs IH Hx]; simpl; constructor; [exact IH|].
  rewrite Forall_forall in *. intros y Hy.
  apply in_map_iff in Hy. destruct Hy as (a & <- & Ha). apply HR, Hx, Ha.
Qed.

Lemma filter_and_length {A : Type} (f g : A -> bool) (l : list A) :
  List.length (filter (fun x => f x && g x) l) <= List.length (filter f l).
Proof.
  induction l as [|x l IH]; simpl; [lia|].
  destruct (f x); simpl; [|exact IH].
  destruct (g x); simpl; lia.
Qed.

(** X14: [getPlayerSalesFromDb] returns the player's sales newest first;
    without a date cut-off it returns as many as [getPlayerSalesCount]
    counts, or the limit when that is smaller (a limit of 0 is no limit);
    with a cut-off it never returns more than that count. *)
Theorem sales_query_length_and_order (db : list Row) (name : string)
        (year : option Z) (lim : option nat) (cutoff : option string) :
  List.length (getPlayerSalesFromDb db name year lim None)
  = match lim with
    | Some (S n) => Nat.min (S n) (getPlayerSalesCount db name year)
    | _ => getPlayerSalesCount db name year
    end
  /\ List.length (getPlayerSalesFromDb db name year lim cutoff)
     <= getPlayerSalesCount db name year
  /\ StronglySorted
       (fun a b => String.leb (v_saleDate b) (v_saleDate a) = true)
       (getPlayerSalesFromDb db name year lim cutoff).
Proof.
  unfold getPlayerSalesFromDb. rewrite !length_map. split; [|split].
  - apply selectRows_length.
  - unfold selectRows, getPlayerSalesCount, Sqlite.limit,
      Sqlite.order_by_desc.
    set (mine := filter (row_matches (normalizeName name) year cutoff) db).
    assert (Hlen : List.length
                     (Arr.sort (fun a b => String.ltb (sale_date a)
                                                      (sale_date b)) mine)
                   = List.length mine).
    { symmetry. apply Permutation_length, sort_perm. }
    assert (Hmine : List.length mine
                    <= List.length
                         (filter (row_matches (normalizeName name) year None)
                                 db)).
    { unfold mine. destruct cutoff as [c|]; [|lia].
      unfold row_matches.
      rewrite (filter_ext _ (fun row =>
                 (fun row => String.eqb (normalized_player_name row)
                                        (normalizeName name)
                             && match JS.truthy year with
                                | Some y => match release_year row with
                                            | Some v => (v =? y)%Z
                                            | None => false
                                            end
                                | None => true
                                end && true) row
                 && (fun row => String.leb c (sale_date row)) row)).
      - apply filter_and_length.
      - intros row. now rewrite andb_true_r. }
    destruct lim as [[|n]|]; rewrite ?length_firstn; lia.
  - apply sorted_map with (R := newer_or_same); [intros a b H; exact H|].
    unfold selectRows, Sqlite.limit.
    set (sorted := Sqlite.order_by_desc sale_date _).
    assert (Hs : StronglySorted newer_or_same sorted)
      by apply order_by_desc_sorted.
    destruct lim as [[|n]|]; try exact Hs.
    rewrite <- (firstn_skipn (S n) sorted) in Hs.
    eapply sorted_app_left. exact Hs.
Qed.

(* ====================================================================== *)
(** ** The end of the parser *)
(* ====================================================================== *)

Lemma existsb_eqb_In (x : string) (l : list string) :
  existsb (String.eqb x) l = true <-> In x l.
Proof.
  rewrite existsb_exists. split.
  - intros (y & Hy & E). apply String.eqb_eq in E. now subst.
  - intros H. exists x. split; [exact H | apply String.eqb_refl].
Qed.

Lemma dedupe_seen_spec (sales : list ParsedSale) :
  forall seen,
    NoDup (map ebayItemId (dedupe_seen seen sales))
    /\ (forall i, In i (map ebayItemId (dedupe_seen seen sales))
                  <-> In i (map ebayItemId sales) /\ ~ In i seen)
    /\ (forall s, In s (dedupe_seen seen sales) -> In s sales).
Proof.
  induction sales as [|s sales IH]; intros seen; simpl.
  - split; [constructor|]. split; [tauto | tauto].
  - destruct (existsb (String.eqb (ebayItemId s)) seen) eqn:E.
    + apply existsb_eqb_In in E.
      destruct (IH seen) as (Hnd & Hids & Hincl).
      split; [exact Hnd|]. split.
      * intros i. rewrite Hids. split; [tauto|].
        intros ([<- | Hi] & Hn); [contradiction | tauto].
      * intros s' Hs'. right. now apply Hincl.
    + assert (Hns : ~ In (ebayItemId s) seen).
      { intros H. apply existsb_eqb_In in H. congruence. }
      destruct (IH (ebayItemId s :: seen)) as (Hnd & Hids & Hincl).
      simpl. split; [|split].
      * constructor; [|exact Hnd]. rewrite Hids. simpl. tauto.
      * intros i. rewrite Hids. simpl.
        destruct (String.string_dec (ebayItemId s) i) as [<- | Hne];
          tauto.
      * intros s' [<- | Hs']; [now left | right; now apply Hincl].
Qed.

Lemma dedupe_seen_fresh (sales : list ParsedSale) :
  forall seen,
    NoDup (map ebayItemId sales) ->
    (forall i, In i (map ebayItemId sales) -> ~ In i seen) ->
    dedupe_seen seen sales = sales.
Proof.
  induction sales as [|s sales IH]; intros seen Hnd Hfresh; simpl.
  - reflexivity.
  - simpl in Hnd. inversion Hnd as [|? ? Hni Hnd']; subst.
    destruct (existsb (String.eqb (ebayItemId s)) seen) eqn:E.
    + apply existsb_eqb_In in E. exfalso.
      apply (Hfresh (ebayItemId s)); simpl; auto.
    + f_equal. apply IH; [exact Hnd'|].
      intros i Hi [<- | Hs]; [contradiction|].
      apply (Hfresh i); simpl; auto.
Qed.

(** X15: the parser returns no two sales with the same item id; it keeps
    one sale of every item id that was parsed, drops nothing else, and
    returns the sales unchanged when their item ids are distinct already. *)
Theorem parsed_sales_have_distinct_ids (sales : list ParsedSale) :
  NoDup (map ebayItemId (deduplicatedSales sales))
  /\ (forall i, In i (map ebayItemId (deduplicatedSales sales))
                <-> In i (map ebayItemId sales))
  /\ (forall s, In s (deduplicatedSales sales) -> In s sales)
  /\ (NoDup (map ebayItemId sales) -> deduplicatedSales sales = sales)
  /\ deduplicatedSales (deduplicatedSales sales) = deduplicatedSales sales.
Proof.
  unfold deduplicatedSales.
  destruct (dedupe_seen_spec sales []) as (Hnd & Hids & Hincl).
  split; [exact Hnd|]. split.
  { intros i. rewrite Hids. simpl. tauto. }
  split; [exact Hincl|]. split.
  - intros H. apply dedupe_seen_fresh; [exact H | auto].
  - apply dedupe_seen_fresh; [exact Hnd | auto].
Qed.

(* ====================================================================== *)
(** ** The batch *)
(* ====================================================================== *)

Lemma results_get_set_same (m : ResultMap) k v :
  results_get (results_set m k v) k = Some v.
Proof.
  induction m as [|[k' v'] m IH]; simpl.
  - now rewrite String.eqb_refl.
  - destruct (String.eqb k' k) eqn:E; simpl; rewrite E; auto.
Qed.

Lemma results_get_set_other (m : ResultMap) k v k0 :
  k <> k0 -> results_get (results_set m k v) k0 = results_get m k0.
Proof.
  intros Hne. induction m as [|[k' v'] m IH]; simpl.
  - destruct (String.eqb_spec k k0); [contradiction | reflexivity].
  - destruct (String.eqb_spec k' k) as [-> | Hk]; simpl.
    + destruct (String.eqb_spec k k0); [contradiction | reflexivity].
    + destruct (String.eqb k' k0); [reflexivity | exact IH].
Qed.

Lemma results_set_keys (m : ResultMap) k v k0 :
  In k0 (map fst (results_set m k v)) <-> k0 = k \/ In k0 (map fst m).
Proof.
  induction m as [|[k' v'] m IH]; simpl.
  - intuition.
  - destruct (String.eqb_spec k' k) as [-> | Hk]; simpl.
    + intuition.
    + rewrite IH. intuition.
Qed.

Lemma results_set_nodup (m : ResultMap) k v :
  NoDup (map fst m) -> NoDup (map fst (results_set m k v)).
Proof.
  induction m as [|[k' v'] m IH]; simpl; intros Hnd.
  - repeat constructor. intros [].
  - inversion Hnd as [|? ? Hni Hnd']; subst.
    destruct (String.eqb_spec k' k) as [-> | Hk]; simpl.
    + now constructor.
    + constructor; [|now apply IH].
      rewrite results_set_keys. intros [E | Hin]; [congruence | contradiction].
Qed.

Section BatchFacts.

Variable URL_parse : string -> option URL.
Variable uuidv4 : nat -> string.
Variable clock : nat -> Date.
Variable elapsedMs : Z.
Variable fetch : nat -> Fetched.

Local Abbreviation batch_from' :=
  (batch_from URL_parse uuidv4 clock elapsedMs fetch).

Lemma run_normalizedPlayerName db fetched name targetYear :
  normalizedPlayerName
    (snd (scrapeAndStorePlayer URL_parse uuidv4 clock elapsedMs
                               db fetched name targetYear))
  = normalizeName name.
Proof.
  unfold scrapeAndStorePlayer.
  destruct fetched as [msg | [|p raw]]; try reflexivity.
  destruct (sel_salesToStore (selectForPlayer (p :: raw) name targetYear));
    [reflexivity|].
  destruct (storeSales _ _ _ _ _ _ _) as [db' [[i d]|msg]]; reflexivity.
Qed.

Lemma filed_set results name r :
  filed results -> normalizedPlayerName r = normalizeName name ->
  filed (results_set results (normalizeName name) r).
Proof.
  intros (Hnd & Hown) Hr. split; [now apply results_set_nodup|].
  intros k r0.
  destruct (String.string_dec (normalizeName name) k) as [<- | Hne].
  - rewrite results_get_set_same. intros [= <-]. exact Hr.
  - rewrite results_get_set_other by exact Hne. apply Hown.
Qed.

Lemma batch_from_spec (playerNames : list string) :
  forall i db results,
    filed results ->
    (exists new,
        fst (batch_from' i playerNames db results) = db ++ new)
    /\ filed (snd (batch_from' i playerNames db results))
    /\ (forall k, In k (map fst (snd (batch_from' i playerNames db results)))
                  <-> In k (map fst results)
                      \/ In k (map normalizeName playerNames)).
Proof.
  induction playerNames as [|player rest IH]; intros i db results Hf; simpl.
  - split; [exists []; now rewrite app_nil_r|]. split; [exact Hf|].
    intros k. tauto.
  - destruct (scrapeAndStorePlayer URL_parse uuidv4 clock elapsedMs db
                                   (fetch i) player None)
      as [db' result] eqn:E.
    assert (Hdb : exists new, db' = db ++ new).
    { destruct (run_rows URL_parse uuidv4 clock elapsedMs db (fetch i)
                         player None) as (new & Hnew & _).
      rewrite E in Hnew. exists new. exact Hnew. }
    assert (Hname : normalizedPlayerName result = normalizeName player).
    { assert (H := run_normalizedPlayerName db (fetch i) player None).
      now rewrite E in H. }
    destruct (IH (S i) db'
                 (results_set results (normalizeName player) result)
                 (filed_set _ _ _ Hf Hname))
      as ((new' & Hnew') & Hfiled & Hkeys).
    destruct Hdb as (new & ->).
    split; [exists (new ++ new'); now rewrite Hnew', app_assoc|].
    split; [exact Hfiled|].
    intros k. rewrite Hkeys, results_set_keys. intuition.
Qed.

(** X16: a batch gives every player of the list a result, filed under the
    player's normalized name and made for that name; no name is filed
    twice, nothing is filed for a name that is not in the list, and the
    table only grows. *)
Theorem batch_files_every_player (playerNames : list string)
        (db : list Row) :
  (forall player,
      In player playerNames ->
      exists r,
        results_get
          (snd (scrapeMultiplePlayers URL_parse uuidv4 clock elapsedMs fetch
                                      playerNames db))
          (normalizeName player) = Some r
        /\ normalizedPlayerName r = normalizeName player)
  /\ NoDup (map fst (snd (scrapeMultiplePlayers URL_parse uuidv4 clock
                            elapsedMs fetch playerNames db)))
  /\ (forall k,
         In k (map fst (snd (scrapeMultiplePlayers URL_parse uuidv4 clock
                               elapsedMs fetch playerNames db)))
         -> In k (map normalizeName playerNames))
  /\ exists new,
      fst (scrapeMultiplePlayers URL_parse uuidv4 clock elapsedMs fetch
                                 playerNames db) = db ++ new.
Proof.
  unfold scrapeMultiplePlayers.
  assert (H0 : filed []).
  { split; [constructor | intros k r; discriminate]. }
  destruct (batch_from_spec playerNames 0 db [] H0)
    as (Hdb & (Hnd & Hown) & Hkeys).
  split; [|split; [exact Hnd | split; [|exact Hdb]]].
  - intros player Hp.
    assert (Hk : In (normalizeName player)
                    (map fst (snd (batch_from' 0 playerNames db [])))).
    { apply Hkeys. right. now apply in_map. }
    destruct (results_get (snd (batch_from' 0 playerNames db []))
                          (normalizeName player)) as [r|] eqn:E.
    + exists r. split; [reflexivity | now apply Hown].
    + exfalso. revert Hk E.
      generalize (snd (batch_from' 0 playerNames db [])) as m.
      induction m as [|[k v] m IHm]; simpl; [tauto|].
      intros [-> | Hin]; [now rewrite String.eqb_refl|].
      destruct (String.eqb k (normalizeName player)); [discriminate | auto].
  - intros k Hk. apply Hkeys in Hk. simpl in Hk. tauto.
Qed.

End BatchFacts.

(* ====================================================================== *)
(** ** The refresh script against the scraper *)
(* ====================================================================== *)

Lemma existsb_incl_includes lt (small big : list string) :
  incl small big ->
  absent (first_included lt big) = true ->
  existsb (fun x => JS.includes lt x) small = false.
Proof.
  intros Hincl Habs. apply first_included_absent in Habs.
  destruct (existsb _ small) eqn:E; [|reflexivity].
  exfalso. apply Habs. apply existsb_exists in E.
  destruct E as (x & Hx & Hi). exists x. split; [now apply Hincl | exact Hi].
Qed.

Ltac sub_table :=
  intros x Hx; simpl in Hx;
  repeat (destruct Hx as [<- | Hx]; [simpl; tauto|]); contradiction.

Lemma script_graded : incl CronScript.GRADED_INDICATORS GRADED_INDICATORS.
Proof. sub_table. Qed.

Lemma script_lot : incl CronScript.LOT_INDICATORS LOT_INDICATORS.
Proof. sub_table. Qed.

Lemma script_products : incl CronScript.EXCLUDED_PRODUCTS EXCLUDED_PRODUCTS.
Proof. sub_table. Qed.

Lemma script_ip : incl CronScript.IP_INDICATORS IP_AUTOGRAPH_INDICATORS.
Proof. sub_table. Qed.

(** X17: the refresh script is the more permissive of the two classifiers:
    every title the scraper classifies as base is a base auto for the
    script. *)
Theorem script_accepts_scraper_base (sale : ParsedSale) :
  isBaseAuto (categorizeListingSale sale) = true ->
  CronScript.isBaseAuto (title sale) = true.
Proof.
  unfold categorizeListingSale; cbn [isBaseAuto].
  rewrite (proj1 (classify_flags_formula (title sale))).
  rewrite !andb_true_iff, negb_true_iff. intros ((Hp & Hs) & Hc).
  unfold passes_exclusions_b in Hp. rewrite !andb_true_iff in Hp.
  destruct Hp as ((((Hg & Hl) & _) & He) & Hi).
  unfold CronScript.isBaseAuto. cbv zeta.
  rewrite !existsb_app.
  rewrite (existsb_incl_includes _ _ _ script_graded Hg),
    (existsb_incl_includes _ _ _ script_lot Hl),
    (existsb_incl_includes _ _ _ script_products He),
    (existsb_incl_includes _ _ _ script_ip Hi).
  cbn [orb].
  rewrite (existsb_incl_includes _ _ _ (incl_refl _) Hc), Hs. reflexivity.
Qed.


(* ====================================================================== *)
(** ** The sales route against the scraper *)
(* ====================================================================== *)

(** X19: on the same recent sales the GET handler of the sales route and
    the scraper report the same sample size, average and last sale; they
    report the same median for an even number of sales, and for an odd
    number the route reports the scraper's median rounded to two
    decimals. *)
Theorem route_stats_against_scraper (recent : list SaleView) :
  match SalesRoute.marketStats recent with
  | None =>
      recent = [] /\ m_average (marketStats recent) = None
  | Some st =>
      SalesRoute.sampleSize st = List.length recent
      /\ m_average (marketStats recent) = Some (SalesRoute.averagePrice st)
      /\ m_lastPrice (marketStats recent) = Some (SalesRoute.lastSalePrice st)
      /\ m_lastDate (marketStats recent) = Some (SalesRoute.lastSaleDate st)
      /\ (Nat.even (List.length recent) = true ->
          m_median (marketStats recent) = Some (SalesRoute.medianPrice st))
      /\ (Nat.odd (List.length recent) = true ->
          option_map Num.round2 (m_median (marketStats recent))
          = Some (SalesRoute.medianPrice st))
  end.
Proof.
  destruct recent as [|first more]; [split; reflexivity|].
  unfold SalesRoute.marketStats, marketStats.
  cbn [SalesRoute.sampleSize SalesRoute.averagePrice SalesRoute.medianPrice
       SalesRoute.lastSalePrice SalesRoute.lastSaleDate
       m_average m_median m_lastPrice m_lastDate].
  set (prices := Arr.sort Num.after (map v_salePrice (first :: more))).
  assert (Hlen : List.length prices = List.length (first :: more)).
  { unfold prices. rewrite <- (Permutation_length (sort_perm _ _)).
    apply length_map. }
  rewrite Hlen. repeat split.
  - intros He. rewrite <- Nat.negb_even, He. reflexivity.
  - intros Ho. rewrite Ho. reflexivity.
Qed.

(* ====================================================================== *)
(** ** The collection database *)
(* ====================================================================== *)

Module CollectionDbFacts.

Import CollectionDb.

Lemma find_insert_or_update_same tbl offered :
  find (fun row => String.eqb (cm_normalized_player_name row)
                              (cm_normalized_player_name offered))
       (insert_or_update tbl offered)
  = Some match find (fun row => String.eqb (cm_normalized_player_name row)
                                           (cm_normalized_player_name offered))
                    tbl with
         | Some old => updated_row old offered
         | None => offered
         end.
Proof.
  induction tbl as [|row rest IH]; simpl.
  - now rewrite String.eqb_refl.
  - destruct (String.eqb (cm_normalized_player_name row)
                         (cm_normalized_player_name offered)) eqn:E; simpl.
    + now rewrite E.
    + rewrite E. exact IH.
Qed.

Lemma find_insert_or_update_other tbl offered k :
  cm_normalized_player_name offered <> k ->
  find (fun row => String.eqb (cm_normalized_player_name row) k)
       (insert_or_update tbl offered)
  = find (fun row => String.eqb (cm_normalized_player_name row) k) tbl.
Proof.
  intros Hne. induction tbl as [|row rest IH]; simpl.
  - destruct (String.eqb_spec (cm_normalized_player_name offered) k);
      [contradiction | reflexivity].
  - destruct (String.eqb_spec (cm_normalized_player_name row)
                              (cm_normalized_player_name offered))
      as [E | E]; simpl.
    + destruct (String.eqb_spec (cm_normalized_player_name row) k)
        as [E' | E']; [congruence | reflexivity].
    + destruct (String.eqb (cm_normalized_player_name row) k);
        [reflexivity | exact IH].
Qed.

Lemma insert_or_update_names tbl offered k :
  In k (map cm_normalized_player_name (insert_or_update tbl offered))
  <-> k = cm_normalized_player_name offered
      \/ In k (map cm_normalized_player_name tbl).
Proof.
  induction tbl as [|row rest IH]; simpl.
  - intuition.
  - destruct (String.eqb_spec (cm_normalized_player_name row)
                              (cm_normalized_player_name offered))
      as [E | E]; simpl.
    + rewrite E. intuition.
    + rewrite IH. intuition.
Qed.

Lemma insert_or_update_nodup tbl offered :
  NoDup (map cm_normalized_player_name tbl) ->
  NoDup (map cm_normalized_player_name (insert_or_update tbl offered)).
Proof.
  induction tbl as [|row rest IH]; simpl; intros Hnd.
  - repeat constructor. intros [].
  - inversion Hnd as [|? ? Hni Hnd']; subst.
    destruct (String.eqb_spec (cm_normalized_player_name row)
                              (cm_normalized_player_name offered))
      as [E | E]; simpl.
    + now constructor.
    + constructor; [|now apply IH].
      rewrite insert_or_update_names. intros [E' | Hin];
        [congruence | contradiction].
Qed.

(** X20: after [upsertCurrentMarket], [getCurrentMarket] for the player
    returns the data written, under the player name of the row that was
    there before when there was one (an update keeps the display name);
    the data of every other player is as before, and normalized names that
    were distinct stay distinct. *)
Theorem market_upsert_then_get (now : Z) (tbl : list CurrentMarketRow)
        (market : CurrentMarketData) :
  getCurrentMarket (upsertCurrentMarket now tbl market)
                   (md_normalizedPlayerName market)
  = Some (named match getCurrentMarket tbl (md_normalizedPlayerName market)
                with
                | Some old => md_playerName old
                | None => md_playerName market
                end market)
  /\ (forall k, k <> md_normalizedPlayerName market ->
                getCurrentMarket (upsertCurrentMarket now tbl market) k
                = getCurrentMarket tbl k)
  /\ (NoDup (map cm_normalized_player_name tbl) ->
      NoDup (map cm_normalized_player_name
                 (upsertCurrentMarket now tbl market))).
Proof.
  unfold getCurrentMarket, upsertCurrentMarket. split; [|split].
  - assert (H := find_insert_or_update_same tbl (offered_row now market)).
    cbn [offered_row cm_normalized_player_name] in H. rewrite H.
    destruct (find _ tbl) as [old|] eqn:E; [|reflexivity].
    apply find_some in E. destruct E as (_ & E).
    apply String.eqb_eq in E.
    unfold rowToCurrentMarket, named, updated_row, offered_row; simpl.
    now rewrite E.
  - intros k Hk. rewrite find_insert_or_update_other; [reflexivity|].
    simpl. congruence.
  - apply insert_or_update_nodup.
Qed.

Lemma order_by_desc_sorted_by {A : Type} (key : A -> string) (rows : list A) :
  StronglySorted (fun a b => String.leb (key b) (key a) = true)
                 (Sqlite.order_by_desc key rows).
Proof.
  unfold Sqlite.order_by_desc.
  eapply sorted_weaken;
    [| apply sort_sorted with (after := fun a b => String.ltb (key a) (key b)) ].
  - intros a b H. unfold precedes in H. now apply ltb_false_leb in H.
  - intros a b H. apply ltb_false_leb.
    unfold String.ltb in H. unfold String.leb.
    destruct (String.compare (key a) (key b)); discriminate || reflexivity.
  - unfold precedes. intros a b c Hab Hbc.
    apply ltb_false_leb in Hab, Hbc. apply ltb_false_leb.
    eapply leb_trans; eassumption.
Qed.

(** X21: [getBaselinePrice] returns the player's baseline with the latest
    article date, and null exactly when the player has no baseline. *)
Theorem baseline_is_the_latest (tbl : list BaselinePriceRow)
        (name : string) :
  match getBaselinePrice tbl name with
  | Some baseline =>
      exists row,
        In row tbl
        /\ b_normalized_player_name row = name
        /\ baseline = rowToBaselinePrice row
        /\ forall other,
            In other tbl -> b_normalized_player_name other = name ->
            String.leb (b_article_date other) (b_article_date row) = true
  | None =>
      forall row, In row tbl -> b_normalized_player_name row <> name
  end.
Proof.
  unfold getBaselinePrice.
  set (mine := filter (fun row => String.eqb (b_normalized_player_name row)
                                             name) tbl).
  assert (Hp : Permutation mine (Sqlite.order_by_desc b_article_date mine))
    by apply sort_perm.
  assert (Hs := order_by_desc_sorted_by b_article_date mine).
  destruct (Sqlite.order_by_desc b_article_date mine) as [|row rest].
  - apply Permutation_sym, Permutation_nil in Hp.
    intros row Hrow Hname.
    assert (Hin : In row mine).
    { apply filter_In. split; [exact Hrow | now apply String.eqb_eq]. }
    rewrite Hp in Hin. contradiction.
  - assert (Hin : In row mine).
    { eapply Permutation_in; [symmetry; exact Hp | now left]. }
    apply filter_In in Hin. destruct Hin as (Hin & Hname).
    apply String.eqb_eq in Hname.
    exists row. repeat split; auto.
    intros other Ho Hon.
    assert (Hom : In other (row :: rest)).
    { eapply Permutation_in; [exact Hp|]. apply filter_In.
      split; [exact Ho | now apply String.eqb_eq]. }
    inversion Hs as [|? ? _ Hall]; subst.
    destruct Hom as [<- | Hom].
    + destruct (String.leb_total (b_article_date row) (b_article_date row));
        assumption.
    + rewrite Forall_forall in Hall. now apply Hall.
Qed.

End CollectionDbFacts.

(* ====================================================================== *)
(** ** The refresh route *)
(* ====================================================================== *)

Module CronRouteFacts.

Import CollectionDb CronRoute.

Lemma split_char_piece (tok a rest : string) :
  spaceless a ->
  split_char " " tok (a ++ String " " rest)
  = (tok ++ a)%string :: split_char " " EmptyString rest.
Proof.
  revert tok. induction a as [|c a IH]; intros tok Ha; simpl.
  - f_equal. clear. induction tok as [|c tok IH]; simpl; congruence.
  - destruct Ha as (Hc & Ha).
    destruct (Ascii.eqb_spec c " "); [contradiction|].
    rewrite IH by exact Ha. f_equal.
    clear. induction tok as [|c' tok IH]; simpl; congruence.
Qed.

Lemma split_char_last (tok a : string) :
  spaceless a -> split_char " " tok a = [(tok ++ a)%string].
Proof.
  revert tok. induction a as [|c a IH]; intros tok Ha; simpl.
  - f_equal. clear. induction tok as [|c tok IH]; simpl; congruence.
  - destruct Ha as (Hc & Ha).
    destruct (Ascii.eqb_spec c " "); [contradiction|].
    rewrite IH by exact Ha. f_equal.
    clear. induction tok as [|c' tok IH]; simpl; congruence.
Qed.

(** The first piece of a text and what follows its first space. *)
Lemma first_piece (s : string) :
  (spaceless s /\ forall tok, split_char " " tok s = [(tok ++ s)%string])
  \/ exists a rest,
      s = (a ++ String " " rest)%string /\ spaceless a.
Proof.
  induction s as [|c s IH].
  - left. split; [exact I|]. intros tok. now apply split_char_last.
  - destruct (Ascii.eqb_spec c " ") as [-> | Hc].
    + right. exists EmptyString, s. split; [reflexivity | exact I].
    + destruct IH as [(Hs & _) | (a & rest & -> & Ha)].
      * left. assert (H : spaceless (String c s)) by (split; assumption).
        split; [exact H|]. intros tok. now apply split_char_last.
      * right. exists (String c a), rest. split; [reflexivity|].
        split; assumption.
Qed.

Lemma spaceless_prefix (a b x y : string) :
  spaceless a -> spaceless x ->
  (a ++ String " " b)%string = (x ++ String " " y)%string ->
  a = x /\ b = y.
Proof.
  revert x. induction a as [|c a IH]; intros x Ha Hx E.
  - destruct x as [|d x]; simpl in *.
    + injection E as ->. auto.
    + injection E as <- _. destruct Hx as (Hx & _). congruence.
  - destruct x as [|d x]; simpl in *.
    + injection E as -> _. destruct Ha as (Ha & _). congruence.
    + injection E as <- E. destruct Ha as (_ & Ha), Hx as (_ & Hx).
      destruct (IH x Ha Hx E) as (-> & ->). auto.
Qed.

(** X22: who may trigger the refresh.  Without a secret only the
    development environment is let in.  With a secret, a request without
    an Authorization header is let in exactly when it carries the header
    X-Railway-Cron: true; a request with an Authorization header is let in
    exactly when the header is Bearer, one space and the secret, possibly
    followed by a space and more, the secret having no space in it. *)
Theorem who_may_trigger_the_refresh (secret : string) (NODE_ENV : option string)
        (authorization railwayCron : option string) :
  isAuthorized None NODE_ENV authorization railwayCron
  = match NODE_ENV with
    | Some env => String.eqb env "development"
    | None => false
    end
  /\ (secret <> EmptyString ->
      isAuthorized (Some secret) NODE_ENV None railwayCron
      = match railwayCron with
        | Some v => String.eqb v "true"
        | None => false
        end)
  /\ (secret <> EmptyString ->
      forall header,
        header <> EmptyString ->
        (isAuthorized (Some secret) NODE_ENV (Some header) railwayCron = true
         <-> spaceless secret
             /\ (header = ("Bearer " ++ secret)%string
                 \/ exists more,
                     header
                     = ("Bearer " ++ secret ++ String " " more)%string))).
Proof.
  split; [reflexivity|]. split.
  { intros Hs. unfold isAuthorized.
    destruct secret; [contradiction | reflexivity]. }
  intros Hs header Hh. unfold isAuthorized.
  destruct secret as [|s0 secret']; [contradiction|].
  destruct header as [|h0 header']; [contradiction|].
  cbn [present].
  set (secret := String s0 secret') in *.
  set (header := String h0 header') in *.
  destruct (first_piece header) as [(Hall & Hsplit) | (a & rest & Eh & Ha)].
  - rewrite (Hsplit EmptyString). split; [discriminate|].
    intros (Hsec & [E | (more & E)]); exfalso; rewrite E in Hall.
    + simpl in Hall. tauto.
    + simpl in Hall. tauto.
  - rewrite Eh, (split_char_piece EmptyString a rest Ha). cbn [append].
    destruct (first_piece rest) as [(Hrest & Hsplit) | (b & more & Er & Hb)].
    + rewrite (Hsplit EmptyString). cbn [append].
      rewrite andb_true_iff, !String.eqb_eq. split.
      * intros (-> & ->). split; [exact Hrest|]. now left.
      * intros (Hsec & [E | (more & E)]).
        -- assert (X : (a ++ String " " rest)%string
                       = ("Bearer" ++ String " " secret)%string)
             by exact E.
           apply spaceless_prefix in X; [tauto | exact Ha|].
           simpl. repeat split; discriminate.
        -- assert (X : (a ++ String " " rest)%string
                       = ("Bearer" ++ String " "
                                   (secret ++ String " " more))%string)
             by exact E.
           apply spaceless_prefix in X; [| exact Ha|].
           2:{ simpl. repeat split; discriminate. }
           destruct X as (_ & X). exfalso. clear - X Hrest.
           rewrite X in Hrest. clear X.
           induction secret as [|c s IH]; simpl in Hrest; tauto.
    + rewrite Er, (split_char_piece EmptyString b more Hb). cbn [append].
      rewrite andb_true_iff, !String.eqb_eq. split.
      * intros (-> & ->). split; [exact Hb|]. right. now exists more.
      * intros (Hsec & [E | (more' & E)]).
        -- assert (X : (a ++ String " " (b ++ String " " more))%string
                       = ("Bearer" ++ String " " secret)%string)
             by exact E.
           apply spaceless_prefix in X; [| exact Ha|].
           2:{ simpl. repeat split; discriminate. }
           destruct X as (_ & X). exfalso. clear - X Hsec.
           rewrite <- X in Hsec. clear X.
           induction b as [|c s IH]; simpl in Hsec; tauto.
        -- assert (X : (a ++ String " " (b ++ String " " more))%string
                       = ("Bearer" ++ String " "
                                   (secret ++ String " " more'))%string)
             by exact E.
           apply spaceless_prefix in X; [| exact Ha|].
           2:{ simpl. repeat split; discriminate. }
           destruct X as (-> & X).
           apply spaceless_prefix in X; [tauto | exact Hb | exact Hsec].
Qed.

Section HandlerFacts.

Variable URL_parse : string -> option URL.
Variable uuidv4 : nat -> string.
Variable clock : nat -> Date.
Variable elapsedMs : Z.
Variable fetch : nat -> Fetched.
Variable elapsedAt : nat -> Z.
Variable nowMs : nat -> Z.
Variable nowDate : nat -> Date.
Variable fetchedDate : nat -> Date.
Variable baseline_prices : list BaselinePriceRow.

Local Abbreviation turn' :=
  (turn URL_parse uuidv4 clock elapsedMs fetch nowMs nowDate fetchedDate
        baseline_prices).
Local Abbreviation loop_from' :=
  (loop_from URL_parse uuidv4 clock elapsedMs fetch elapsedAt nowMs nowDate
             fetchedDate baseline_prices).
Local Abbreviation refresh' :=
  (refresh URL_parse uuidv4 clock elapsedMs fetch elapsedAt nowMs nowDate
           fetchedDate baseline_prices).

(** What a turn does to the counters and to the table of sales. *)
Lemma turn_spec i name st :
  refreshed (turn' i name st) + failed (turn' i name st)
  = S (refreshed st + failed st)
  /\ List.length (errors (turn' i name st)) + failed st
     = List.length (errors st) + failed (turn' i name st)
  /\ failed st <= failed (turn' i name st)
  /\ exists new,
      individual_sales (turn' i name st) = individual_sales st ++ new
      /\ newSalesAdded (turn' i name st)
         <= newSalesAdded st + List.length new
      /\ newSalesAdded st <= newSalesAdded (turn' i name st)
      /\ (failed (turn' i name st) = failed st ->
          newSalesAdded (turn' i name st)
          = newSalesAdded st + List.length new).
Proof.
  unfold turn.
  set (targetYear := match getBaselinePrice baseline_prices name with
                     | Some baseline => JS.truthy (bp_releaseYear baseline)
                     | None => None
                     end).
  assert (Hrows := run_rows URL_parse uuidv4 clock elapsedMs
                            (individual_sales st) (fetch i) name targetYear).
  destruct (scrapeAndStorePlayer URL_parse uuidv4 clock elapsedMs
                                 (individual_sales st) (fetch i) name
                                 targetYear) as [db' result].
  cbn [fst snd] in *.
  destruct Hrows as (new & Hdb & _ & Hlen).
  destruct (success result) eqn:Hok.
  - destruct (averagePrice result) as [average|] eqn:Hav.
    + destruct (upsert_refused (nowMs i) (current_market st)
                               (marketDataOf nowDate fetchedDate i result
                                             average)).
      * cbn. rewrite length_app. simpl.
        split; [lia|]. split; [lia|]. split; [lia|].
        exists new. split; [exact Hdb|]. repeat split; lia.
      * cbn. split; [lia|]. split; [lia|]. split; [lia|].
        exists new. split; [exact Hdb|]. rewrite (Hlen eq_refl).
        repeat split; lia.
    + cbn. rewrite length_app. simpl.
      split; [lia|]. split; [lia|]. split; [lia|].
      exists new. split; [exact Hdb|]. repeat split; lia.
  - cbn. rewrite length_app. simpl.
    split; [lia|]. split; [lia|]. split; [lia|].
    exists new. split; [exact Hdb|]. repeat split; lia.
Qed.

Lemma loop_from_spec (playerNames : list string) :
  forall i st,
    refreshed (fst (loop_from' i playerNames st))
    + failed (fst (loop_from' i playerNames st))
    + snd (loop_from' i playerNames st)
    = refreshed st + failed st + List.length playerNames
    /\ List.length (errors (fst (loop_from' i playerNames st))) + failed st
       = List.length (errors st) + failed (fst (loop_from' i playerNames st))
    /\ failed st <= failed (fst (loop_from' i playerNames st))
    /\ exists new,
        individual_sales (fst (loop_from' i playerNames st))
        = individual_sales st ++ new
        /\ newSalesAdded (fst (loop_from' i playerNames st))
           <= newSalesAdded st + List.length new
        /\ newSalesAdded st <= newSalesAdded (fst (loop_from' i playerNames st))
        /\ (failed (fst (loop_from' i playerNames st)) = failed st ->
            newSalesAdded (fst (loop_from' i playerNames st))
            = newSalesAdded st + List.length new).
Proof.
  induction playerNames as [|name rest IH]; intros i st.
  - simpl. split; [lia|]. split; [lia|]. split; [lia|].
    exists []. rewrite app_nil_r. simpl. repeat split; lia.
  - cbn [loop_from].
    destruct (MAX_EXECUTION_TIME_MS <? elapsedAt i)%Z.
    + cbn [fst snd]. split; [lia|]. split; [lia|]. split; [lia|].
      exists []. rewrite app_nil_r. simpl. repeat split; lia.
    + destruct (IH (S i) (turn' i name st))
        as (Hc & He & Hf' & new' & Hdb' & Hle' & Hge' & Heq').
      destruct (turn_spec i name st)
        as (Tc & Te & Tf & new & Hdb & Hle & Hge & Heq).
      split; [simpl List.length; lia|]. split; [lia|]. split; [lia|].
      exists (new ++ new'). rewrite Hdb', Hdb, app_assoc.
      split; [reflexivity|]. rewrite length_app.
      split; [lia|]. split; [lia|].
      intros Hsame.
      assert (H1 : failed (turn' i name st) = failed st) by lia.
      assert (H2 : failed (fst (loop_from' (S i) rest (turn' i name st)))
                   = failed (turn' i name st)) by lia.
      specialize (Heq H1). specialize (Heq' H2). lia.
Qed.

(** X23: the stats of a refresh account for every player: refreshed, failed
    and skipped add up to the number of players, and there is one recorded
    error for every failed player. *)
Theorem refresh_accounts_for_every_player (playerNames : list string)
        (db : list Row) (market : list CurrentMarketRow) :
  s_refreshed (snd (refresh' playerNames db market))
  + s_failed (snd (refresh' playerNames db market))
  + s_skipped (snd (refresh' playerNames db market))
  = List.length playerNames
  /\ s_totalPlayers (snd (refresh' playerNames db market))
     = List.length playerNames
  /\ List.length (errors (fst (refresh' playerNames db market)))
     = s_failed (snd (refresh' playerNames db market)).
Proof.
  unfold refresh.
  set (st0 := {| individual_sales := db; current_market := market;
                 refreshed := 0; failed := 0; newSalesAdded := 0;
                 errors := [] |}).
  destruct (loop_from_spec playerNames 0 st0) as (Hc & He & _).
  destruct (loop_from' 0 playerNames st0) as [st skipped].
  cbn [fst snd s_refreshed s_failed s_skipped s_totalPlayers] in *.
  simpl in Hc, He. lia.
Qed.

(** X24: the number of new sales a refresh reports never exceeds the
    number of rows it appended to the table of sales, and is that number
    when no player failed.  Rows that were there stay. *)
Theorem refresh_counts_rows_of_refreshed_players (playerNames : list string)
        (db : list Row) (market : list CurrentMarketRow) :
  exists new,
    individual_sales (fst (refresh' playerNames db market)) = db ++ new
    /\ s_newSalesAdded (snd (refresh' playerNames db market))
       <= List.length new
    /\ (s_failed (snd (refresh' playerNames db market)) = 0 ->
        s_newSalesAdded (snd (refresh' playerNames db market))
        = List.length new).
Proof.
  unfold refresh.
  set (st0 := {| individual_sales := db; current_market := market;
                 refreshed := 0; failed := 0; newSalesAdded := 0;
                 errors := [] |}).
  destruct (loop_from_spec playerNames 0 st0)
    as (_ & _ & _ & new & Hdb & Hle & _ & Heq).
  destruct (loop_from' 0 playerNames st0) as [st skipped].
  cbn [fst snd s_newSalesAdded s_failed] in *.
  exists new. split; [exact Hdb|]. simpl in Hle, Heq.
  split; [lia|]. intros H0. specialize (Heq H0). lia.
Qed.

Lemma loop_from_late (done rest : list string) :
  rest <> [] ->
  forall i st,
    (forall j, j < List.length done ->
               (elapsedAt (i + j) <= MAX_EXECUTION_TIME_MS)%Z) ->
    (MAX_EXECUTION_TIME_MS < elapsedAt (i + List.length done))%Z ->
    loop_from' i (done ++ rest) st
    = (fst (loop_from' i done st), List.length rest)
    /\ snd (loop_from' i done st) = 0.
Proof.
  intros Hrest. induction done as [|name done IH]; intros i st Hin Hlate.
  - simpl in Hlate. rewrite Nat.add_0_r in Hlate.
    destruct rest as [|r rest]; [contradiction|].
    cbn [app loop_from fst snd].
    apply Z.ltb_lt in Hlate. rewrite Hlate. auto.
  - cbn [app loop_from].
    assert (H0 : (elapsedAt i <= MAX_EXECUTION_TIME_MS)%Z).
    { specialize (Hin 0). rewrite Nat.add_0_r in Hin. apply Hin.
      simpl. lia. }
    apply Z.ltb_ge in H0. rewrite H0.
    apply IH.
    + intros j Hj. specialize (Hin (S j)).
      rewrite Nat.add_succ_r in Hin. apply Hin. simpl. lia.
    + simpl in Hlate. rewrite Nat.add_succ_r in Hlate. exact Hlate.
Qed.

(** X25: when the time limit is found passed at the head of a turn, that
    player and all the players after are skipped and nothing more is done:
    the tables, the counters and the errors are those of the refresh of the
    players before, in which nobody is skipped. *)
Theorem time_limit_skips_the_rest (done rest : list string)
        (db : list Row) (market : list CurrentMarketRow) :
  rest <> [] ->
  (forall j, j < List.length done ->
             (elapsedAt j <= MAX_EXECUTION_TIME_MS)%Z) ->
  (MAX_EXECUTION_TIME_MS < elapsedAt (List.length done))%Z ->
  fst (refresh' (done ++ rest) db market) = fst (refresh' done db market)
  /\ s_skipped (snd (refresh' (done ++ rest) db market)) = List.length rest
  /\ s_skipped (snd (refresh' done db market)) = 0
  /\ s_refreshed (snd (refresh' (done ++ rest) db market))
     = s_refreshed (snd (refresh' done db market))
  /\ s_failed (snd (refresh' (done ++ rest) db market))
     = s_failed (snd (refresh' done db market)).
Proof.
  intros Hrest Hin Hlate. unfold refresh.
  set (st0 := {| individual_sales := db; current_market := market;
                 refreshed := 0; failed := 0; newSalesAdded := 0;
                 errors := [] |}).
  destruct (loop_from_late done rest Hrest 0 st0 Hin Hlate) as (E & E0).
  rewrite E.
  destruct (loop_from' 0 done st0) as [st skipped].
  cbn [fst snd s_skipped s_refreshed s_failed] in *. auto.
Qed.

End HandlerFacts.

End CronRouteFacts.

(* ====================================================================== *)
(** ** The name filter on UTF-16 code units *)
(* ====================================================================== *)

Lemma wide_lower_unit c :
  Wide.lower_unit (JS.code c) = [JS.code (JS.lower_char c)].
Proof. each_char c. Qed.

Lemma wide_separator c : Wide.name_separator (JS.code c) = name_separator c.
Proof. each_char c. Qed.

Lemma wide_code_eqb a b : (JS.code a =? JS.code b)%N = Ascii.eqb a b.
Proof.
  destruct (Ascii.eqb_spec a b) as [-> | Hne].
  - apply N.eqb_refl.
  - apply N.eqb_neq. intros H. apply Hne.
    rewrite <- (ascii_N_embedding a), <- (ascii_N_embedding b).
    unfold JS.code in H. now rewrite H.
Qed.

Lemma wide_lower_table s :
  Wide.lower_table (Wide.of_string s) = Wide.of_string (JS.toLowerCase s).
Proof.
  induction s as [|c s IH]; [reflexivity|].
  change (Wide.lower_table (Wide.of_string (String c s)))
    with (Wide.lower_unit (JS.code c)
            ++ Wide.lower_table (Wide.of_string s)).
  rewrite wide_lower_unit, IH. reflexivity.
Qed.

Lemma wide_of_string_snoc tok c :
  Wide.of_string (tok ++ String c EmptyString)
  = Wide.of_string tok ++ [JS.code c].
Proof.
  induction tok as [|a tok IH]; [reflexivity|].
  change (Wide.of_string (String a tok ++ String c EmptyString))
    with (JS.code a :: Wide.of_string (tok ++ String c EmptyString)).
  rewrite IH. reflexivity.
Qed.

Lemma wide_length s : List.length (Wide.of_string s) = String.length s.
Proof.
  induction s as [|c s IH]; [reflexivity|].
  change (Wide.of_string (String c s)) with (JS.code c :: Wide.of_string s).
  simpl. now rewrite IH.
Qed.

Lemma wide_split_runs insep tok s :
  Wide.split_runs Wide.name_separator insep (Wide.of_string tok)
                  (Wide.of_string s)
  = map Wide.of_string (JS.split_runs name_separator insep tok s).
Proof.
  revert insep tok. induction s as [|c s IH]; intros insep tok.
  - reflexivity.
  - change (Wide.of_string (String c s)) with (JS.code c :: Wide.of_string s).
    cbn [Wide.split_runs JS.split_runs]. rewrite wide_separator.
    destruct (name_separator c).
    + destruct insep.
      * apply (IH true EmptyString).
      * cbn [map]. f_equal. apply (IH true EmptyString).
    + rewrite <- wide_of_string_snoc. apply IH.
Qed.

Lemma wide_startsWith p s :
  Wide.startsWith (Wide.of_string p) (Wide.of_string s) = JS.startsWith p s.
Proof.
  revert s. induction p as [|a p IH]; intros s; [reflexivity|].
  destruct s as [|b s]; [reflexivity|].
  change (Wide.startsWith (JS.code a :: Wide.of_string p)
                          (JS.code b :: Wide.of_string s)
          = JS.startsWith (String a p) (String b s)).
  cbn [Wide.startsWith JS.startsWith]. now rewrite wide_code_eqb, IH.
Qed.

Lemma wide_includes s p :
  Wide.includes (Wide.of_string s) (Wide.of_string p) = JS.includes s p.
Proof.
  induction s as [|c s IH].
  - cbn [Wide.includes JS.includes Wide.of_string list_ascii_of_string map].
    f_equal. apply (wide_startsWith p EmptyString).
  - change (Wide.of_string (String c s)) with (JS.code c :: Wide.of_string s).
    cbn [Wide.includes JS.includes]. rewrite IH. f_equal.
    apply (wide_startsWith p (String c s)).
Qed.

Lemma wide_nameParts name :
  Wide.nameParts Wide.lower_table (Wide.of_string name)
  = map Wide.of_string (nameParts name).
Proof.
  unfold Wide.nameParts, nameParts, Wide.split_class, JS.split_class.
  rewrite wide_lower_table.
  assert (E := wide_split_runs false EmptyString (JS.toLowerCase name)).
  change (Wide.of_string EmptyString) with (@nil N) in E. rewrite E. clear E.
  induction (JS.split_runs name_separator false EmptyString
                           (JS.toLowerCase name)) as [|tok l IH];
    [reflexivity|].
  cbn [map filter]. rewrite wide_length.
  destruct (2 <? String.length tok)%nat; cbn [map]; now rewrite IH.
Qed.

(** On strings of code units below U+0100 the filter on UTF-16 code units,
    with the lower-case table, is the filter of the pipeline. *)
Lemma wide_filter_agrees (t name : string) :
  Wide.titleContainsPlayerName Wide.lower_table
                               (Wide.of_string t) (Wide.of_string name)
  = titleContainsPlayerName t name.
Proof.
  unfold Wide.titleContainsPlayerName, titleContainsPlayerName.
  rewrite wide_nameParts, wide_lower_table, length_map.
  assert (E : forallb (fun part => Wide.includes
                                     (Wide.of_string (JS.toLowerCase t)) part)
                      (map Wide.of_string (nameParts name))
              = forallb (fun part => JS.includes (JS.toLowerCase t) part)
                        (nameParts name)).
  { induction (nameParts name) as [|part l IH]; [reflexivity|].
    cbn [map forallb]. now rewrite wide_includes, IH. }
  now rewrite E.
Qed.

(** C10 (as stated) fails: the name of the two code units U+0130 (capital
    I with a dot above) and b has no piece longer than 2, but its lower
    case has the three code units U+0069 U+0307 U+0062, and the name
    filter accepts a title with the name in it. *)
Lemma two_unit_name_matches :
  Forall (fun tok => List.length tok <= 2)
         (Wide.split_class Wide.name_separator name_Ib)
  /\ Wide.lower_table name_Ib = [105%N; 775%N; 98%N]
  /\ Wide.nameParts Wide.lower_table name_Ib = [[105%N; 775%N; 98%N]]
  /\ Wide.titleContainsPlayerName Wide.lower_table title_Ib name_Ib = true.
Proof.
  split; [repeat constructor|]. vm_compute. repeat split.
Qed.

(* ====================================================================== *)
(** ** The further statements at examples *)
(* ====================================================================== *)

(** The /499 refractor and the same title in capitals. *)
Lemma classification_ignores_case_witness :
  JS.toLowerCase (title numbered_refractor)
  = JS.toLowerCase (title numbered_refractor_capitals)
  /\ isBaseAuto (categorizeListingSale numbered_refractor)
     = isBaseAuto (categorizeListingSale numbered_refractor_capitals)
  /\ isRefractor (categorizeListingSale numbered_refractor)
     = isRefractor (categorizeListingSale numbered_refractor_capitals).
Proof.
  assert (H : JS.toLowerCase (title numbered_refractor)
              = JS.toLowerCase (title numbered_refractor_capitals))
    by reflexivity.
  split; [exact H|].
  exact (classification_ignores_case numbered_refractor
                                     numbered_refractor_capitals H).
Defined.

(** The four listings of 2023, 2022, 2023, 2024, and the same in reverse. *)
Lemma inferred_year_ignores_order_witness :
  Permutation three_years (rev three_years)
  /\ determineFirstBowmanYear three_years
     = determineFirstBowmanYear (rev three_years).
Proof.
  assert (H : Permutation three_years (rev three_years))
    by apply Permutation_rev.
  split; [exact H|].
  exact (inferred_year_ignores_order three_years (rev three_years) H).
Defined.

(** The name as a title, and a title in capitals around it. *)
Lemma name_match_survives_longer_title_witness :
  JS.includes (JS.toLowerCase "2023 BOWMAN CHROME PLAYER Y AUTO")
              (JS.toLowerCase "Player Y") = true
  /\ titleContainsPlayerName "Player Y" "Player Y" = true
  /\ titleContainsPlayerName "2023 BOWMAN CHROME PLAYER Y AUTO" "Player Y"
     = true.
Proof.
  assert (H0 : JS.includes (JS.toLowerCase "2023 BOWMAN CHROME PLAYER Y AUTO")
                           (JS.toLowerCase "Player Y") = true)
    by reflexivity.
  assert (H : titleContainsPlayerName "Player Y" "Player Y" = true)
    by reflexivity.
  split; [exact H0|]. split; [exact H|].
  exact (name_match_survives_longer_title
           "Player Y" "2023 BOWMAN CHROME PLAYER Y AUTO" "Player Y" H0 H).
Defined.

(** One item page under two query strings, presented for two players. *)
Lemma same_page_is_duplicate_witness :
  normalizeEbayUrl PlainURL.parse (ebayUrl (parsed item_7001_a))
  = normalizeEbayUrl PlainURL.parse (ebayUrl (parsed item_7001_b))
  /\ stable_url PlainURL.parse (ebayUrl (parsed item_7001_b))
  /\ snd (plain_insert [] "Player Y" item_7001_a base) = Return true
  /\ plain_insert (fst (plain_insert [] "Player Y" item_7001_a base))
                  "Player Z" item_7001_b refractor
     = (fst (plain_insert [] "Player Y" item_7001_a base), Return false).
Proof.
  assert (H1 : normalizeEbayUrl PlainURL.parse (ebayUrl (parsed item_7001_a))
               = normalizeEbayUrl PlainURL.parse
                                  (ebayUrl (parsed item_7001_b)))
    by reflexivity.
  assert (H2 : stable_url PlainURL.parse (ebayUrl (parsed item_7001_b)))
    by reflexivity.
  assert (H3 : snd (plain_insert [] "Player Y" item_7001_a base)
               = Return true)
    by reflexivity.
  split; [exact H1|]. split; [exact H2|]. split; [exact H3|].
  exact (same_page_is_duplicate PlainURL.parse row_id row_clock []
           "Player Y" "Player Z" item_7001_a item_7001_b base refractor
           true H1 H2 H3).
Defined.


(** The graded listing of scenario A is no base auto; the listings of
    scenario B are base for both classifiers. *)
Lemma script_accepts_scraper_base_witness :
  Forall (fun sale => isBaseAuto (categorizeListingSale sale) = true)
         scenario_B
  /\ Forall (fun sale => CronScript.isBaseAuto (title sale) = true)
            scenario_B.
Proof.
  assert (H : Forall (fun sale => isBaseAuto (categorizeListingSale sale)
                                  = true) scenario_B)
    by (repeat constructor).
  split; [exact H|].
  eapply Forall_impl; [|exact H].
  intros sale. apply script_accepts_scraper_base.
Defined.

(** Two players, the time limit passed at the head of the second turn. *)
Lemma time_limit_skips_the_rest_witness :
  [ "player z" ] <> []
  /\ (forall j, j < List.length [ "player y" ] ->
                (late_after_one j <= CronRoute.MAX_EXECUTION_TIME_MS)%Z)
  /\ (CronRoute.MAX_EXECUTION_TIME_MS
      < late_after_one (List.length [ "player y" ]))%Z
  /\ CronRoute.s_skipped
       (snd (plain_refresh ([ "player y" ] ++ [ "player z" ]) [] []))
     = 1
  /\ CronRoute.s_refreshed
       (snd (plain_refresh ([ "player y" ] ++ [ "player z" ]) [] []))
     = 1
  /\ fst (plain_refresh ([ "player y" ] ++ [ "player z" ]) [] [])
     = fst (plain_refresh [ "player y" ] [] []).
Proof.
  assert (H1 : [ "player z" ] <> []) by discriminate.
  assert (H2 : forall j, j < List.length [ "player y" ] ->
                         (late_after_one j
                          <= CronRoute.MAX_EXECUTION_TIME_MS)%Z).
  { intros j Hj. destruct j; [vm_compute; discriminate | simpl in Hj; lia]. }
  assert (H3 : (CronRoute.MAX_EXECUTION_TIME_MS
                < late_after_one (List.length [ "player y" ]))%Z)
    by reflexivity.
  split; [exact H1|]. split; [exact H2|]. split; [exact H3|].
  destruct (CronRouteFacts.time_limit_skips_the_rest
              PlainURL.parse row_id row_clock 0
              (fun _ => Returned scenario_B) late_after_one
              (fun _ => 1738393200000%Z) row_clock row_clock []
              [ "player y" ] [ "player z" ] [] [] H1 H2 H3)
    as (Hst & Hsk & _).
  split; [exact Hsk|]. split; [reflexivity | exact Hst].
Defined.

(** Rows of failed players.  With a price that is no number the run stores
    the listing before it and fails; with the two infinite prices the run
    stores both listings and succeeds with an average that is no number,
    which the market table refuses.  Either way the player is counted as
    failed, with the message of the error, and the rows stay uncounted. *)
Example failed_player_rows_are_not_counted :
  List.length (CronRoute.individual_sales
                 (fst (refresh_of one_price_unparsed [ "player y" ] [] [])))
  = 1
  /\ CronRoute.s_newSalesAdded
       (snd (refresh_of one_price_unparsed [ "player y" ] [] []))
     = 0
  /\ CronRoute.errors (fst (refresh_of one_price_unparsed [ "player y" ] [] []))
     = [ ("player y",
          "NOT NULL constraint failed: individual_sales.sale_price") ]
  /\ List.length (CronRoute.individual_sales
                    (fst (refresh_of infinite_prices [ "player y" ] [] [])))
     = 2
  /\ CronRoute.s_newSalesAdded
       (snd (refresh_of infinite_prices [ "player y" ] [] []))
     = 0
  /\ CronRoute.current_market
       (fst (refresh_of infinite_prices [ "player y" ] [] []))
     = []
  /\ CronRoute.errors (fst (refresh_of infinite_prices [ "player y" ] [] []))
     = [ ("player y",
          "NOT NULL constraint failed: current_market.average_price") ].
Proof. vm_compute. repeat split. Qed.
